(** * User-interaction simulation: event normalisation and replay

    A shallow embedding of [parsers/events.py], [parsers/mixpanel.py],
    [navigators/selenium_navigator.py] and the handler of [example.py], and
    the properties of the specification checked against it.

    Python values are modelled by the inductive type [Py.value]; a [dict] is
    an association list in insertion order, an exception is a constructor of
    [Py.exn], and code that can raise returns a [Py.result].  Methods that
    change their instance, and code that acts on the browser, are
    computations of [Py.M] over the instance or over the trace of actions.
    Strings are sequences of Latin-1 code points (Rocq's [ascii]); numbers
    are the integers ([Z]), so JSON numbers with a fractional part are
    outside the model.

    The file has three parts: the model, one module per class of the
    source; the vocabulary of the statements; the lemmas and theorems, by
    class. *)

From Stdlib Require Import ZArith String Ascii List Bool Lia DecimalString ZifyNat.
Import ListNotations.

Set Warnings "-register-all".
Open Scope string_scope.
Open Scope Z_scope.

(* ===================================================================== *)
(** * Python values, dictionaries and exceptions                          *)
(* ===================================================================== *)

Module Py.

(** The values that [json.loads] produces, which are also the values a
    parsed event holds. *)
Inductive value : Type :=
| None_
| Bool (b : bool)
| Int (z : Z)
| Str (s : string)
| List_ (l : list value)
| Dict (d : list (string * value)).

(** Exceptions, with the payload the source gives them.  The two last ones
    come from the browser driver: [JavascriptException] is the class that
    [Controls.simulate_scroll] catches, [DriverException] stands for every
    other class a driver call can raise. *)
Inductive exn : Type :=
| KeyError (key : string)
| TypeError
| AttributeError
| IndexError
| StopIteration
| ValueError (msg : string)
| NotImplementedError (msg : string)
| OverflowError (msg : string)
| JavascriptException
| DriverException (cls : string).

Inductive result (A : Type) : Type :=
| Ok (a : A)
| Raise (e : exn).
Arguments Ok {A} a.
Arguments Raise {A} e.

Definition bind {A B} (r : result A) (k : A -> result B) : result B :=
  match r with
  | Ok a => k a
  | Raise e => Raise e
  end.

Definition is_ok {A} (r : result A) : bool :=
  match r with Ok _ => true | Raise _ => false end.

(** ** Dictionaries: association lists with Python's insertion order *)

Section Assoc.
Context {K V : Type} (eqb : K -> K -> bool).

Fixpoint assoc_get (k : K) (d : list (K * V)) : option V :=
  match d with
  | [] => None
  | (k', v) :: d' => if eqb k k' then Some v else assoc_get k d'
  end.

(** [d[k] = v]: an existing key keeps its position, a new one goes last. *)
Fixpoint assoc_set (k : K) (v : V) (d : list (K * V)) : list (K * V) :=
  match d with
  | [] => [(k, v)]
  | (k', v') :: d' =>
      if eqb k k' then (k, v) :: d' else (k', v') :: assoc_set k v d'
  end.

Fixpoint assoc_remove (k : K) (d : list (K * V)) : list (K * V) :=
  match d with
  | [] => []
  | (k', v') :: d' =>
      if eqb k k' then d' else (k', v') :: assoc_remove k d'
  end.

Definition assoc_mem (k : K) (d : list (K * V)) : bool :=
  match assoc_get k d with Some _ => true | None => false end.
End Assoc.

Definition dict : Type := list (string * value).

Definition dict_get {V} (k : string) (d : list (string * V)) : option V :=
  assoc_get String.eqb k d.
Definition dict_set {V} (k : string) (v : V) (d : list (string * V))
  : list (string * V) :=
  assoc_set String.eqb k v d.
Definition dict_mem {V} (k : string) (d : list (string * V)) : bool :=
  assoc_mem String.eqb k d.

(** [d.get(k)] on a dictionary: [None] when the key is missing. *)
Definition get_or_none (k : string) (d : dict) : value :=
  match dict_get k d with Some v => v | None => None_ end.

(** [d[k]] on a dictionary. *)
Definition dict_item (k : string) (d : dict) : result value :=
  match dict_get k d with Some v => Ok v | None => Raise (KeyError k) end.

(** [d.pop(k)] with no default: the entry is removed, [KeyError] when the
    key is missing.  The callers drop the popped value. *)
Definition dict_pop {V} (k : string) (d : list (string * V))
  : result (list (string * V)) :=
  if dict_mem k d then Ok (assoc_remove String.eqb k d)
  else Raise (KeyError k).

(** ** Operations on arbitrary values *)

(** [obj[k]] for a string [k]: only a dictionary accepts a string subscript. *)
Definition getitem (obj : value) (k : string) : result value :=
  match obj with
  | Dict d => dict_item k d
  | _ => Raise TypeError
  end.

(** [obj.get(k)]: only a dictionary has the method.  The key is an optional
    string: [None] is hashable and is never a key of a JSON object. *)
Definition method_get (obj : value) (k : option string) : result value :=
  match obj with
  | Dict d => Ok (match k with Some k => get_or_none k d | None => None_ end)
  | _ => Raise AttributeError
  end.

(** [obj[i]] for a non-negative integer literal [i]. *)
Definition string_index (s : string) (i : nat) : option string :=
  match String.get i s with
  | Some c => Some (String c EmptyString)
  | None => None
  end.

Definition getitem_int (obj : value) (i : nat) : result value :=
  match obj with
  | List_ l =>
      match nth_error l i with Some v => Ok v | None => Raise IndexError end
  | Str s =>
      match string_index s i with
      | Some c => Ok (Str c)
      | None => Raise IndexError
      end
  | Dict _ => Raise (KeyError (NilZero.string_of_uint (Nat.to_uint i)))
  | _ => Raise TypeError
  end.

(** Truth value of an object, as [if obj:] and [not obj] read it. *)
Definition truthy (v : value) : bool :=
  match v with
  | None_ => false
  | Bool b => b
  | Int z => negb (z =? 0)
  | Str s => negb (String.eqb s EmptyString)
  | List_ l => match l with [] => false | _ => true end
  | Dict d => match d with [] => false | _ => true end
  end.

Definition truthy_opt (v : option string) : bool :=
  match v with
  | Some s => negb (String.eqb s EmptyString)
  | None => false
  end.

(** [bool] is a subclass of [int]. *)
Definition as_int (v : value) : option Z :=
  match v with
  | Int z => Some z
  | Bool b => Some (if b then 1 else 0)
  | _ => None
  end.

Definition isinstance_int (v : value) : bool :=
  match as_int v with Some _ => true | None => false end.

Definition isinstance_list (v : value) : bool :=
  match v with List_ _ => true | _ => false end.

(** [a + b] *)
Definition add (a b : value) : result value :=
  match a, b with
  | Str s, Str t => Ok (Str (s ++ t))
  | List_ l, List_ m => Ok (List_ (l ++ m))
  | _, _ =>
      match as_int a, as_int b with
      | Some x, Some y => Ok (Int (x + y))
      | _, _ => Raise TypeError
      end
  end.

(** [a - b] *)
Definition sub (a b : value) : result value :=
  match as_int a, as_int b with
  | Some x, Some y => Ok (Int (x - y))
  | _, _ => Raise TypeError
  end.

(** [a < 0] *)
Definition lt_zero (a : value) : result bool :=
  match as_int a with
  | Some x => Ok (x <? 0)
  | None => Raise TypeError
  end.

(** [a == b]: numbers compare by value across [bool] and [int], lists
    element by element, dictionaries as unordered mappings. *)
Fixpoint eqb (a b : value) {struct a} : bool :=
  match a, b with
  | None_, None_ => true
  | Bool x, Bool y => Bool.eqb x y
  | Bool x, Int y => (if x then 1 else 0) =? y
  | Int x, Bool y => x =? (if y then 1 else 0)
  | Int x, Int y => x =? y
  | Str s, Str t => String.eqb s t
  | List_ l, List_ m =>
      (fix go (l m : list value) {struct l} : bool :=
         match l, m with
         | [], [] => true
         | x :: l', y :: m' => eqb x y && go l' m'
         | _, _ => false
         end) l m
  | Dict d, Dict e =>
      (length d =? length e)%nat &&
      (fix go (d : list (string * value)) {struct d} : bool :=
         match d with
         | [] => true
         | (k, v) :: d' =>
             match dict_get k e with
             | Some w => eqb v w
             | None => false
             end && go d'
         end) d
  | _, _ => false
  end.

(** [a != b] *)
Definition ne (a b : value) : bool := negb (eqb a b).

(** ** Code that changes an object and can raise

    [M S A] is a computation over a state [S] (the instance [self], or the
    outside world) that returns an [A] or raises; the state reached when the
    exception leaves is kept. *)
Definition M (S A : Type) : Type := S -> S * result A.

Definition ret {S A} (a : A) : M S A := fun s => (s, Ok a).
Definition throw {S A} (e : exn) : M S A := fun s => (s, Raise e).
Definition lift {S A} (r : result A) : M S A := fun s => (s, r).
Definition mbind {S A B} (c : M S A) (k : A -> M S B) : M S B :=
  fun s =>
    match c s with
    | (s', Ok a) => k a s'
    | (s', Raise e) => (s', Raise e)
    end.
Definition read {S} : M S S := fun s => (s, Ok s).
Definition modify {S} (f : S -> S) : M S unit := fun s => (f s, Ok tt).

End Py.

Notation "x <- r ;; k" := (Py.bind r (fun x => k))
  (at level 61, r at next level, right associativity).
Notation "x <~ c ;; k" := (Py.mbind c (fun x => k))
  (at level 61, c at next level, right associativity).
Notation "c ;;; k" := (Py.mbind c (fun _ => k))
  (at level 61, right associativity).

(* ===================================================================== *)
(** * parsers/events.py                                                   *)
(* ===================================================================== *)

Module Variables.
Definition ALLOWED_PARSERS : list string := ["mixpanel"].
End Variables.

Module Schema.

(** The seven attributes, in the order [__init__] assigns them (the order
    of [self.__dict__]). *)
Record t : Type := Build {
  reproductive_data_key : option string;
  dimension_key : option string;
  scroll_top_key : option string;
  mouse_position_key : option string;
  time_key : option string;
  page_key : option string;
  query_key : option string
}.

Definition __dict__ (self : t) : list (string * option string) :=
  [ ("reproductive_data_key", reproductive_data_key self);
    ("dimension_key", dimension_key self);
    ("scroll_top_key", scroll_top_key self);
    ("mouse_position_key", mouse_position_key self);
    ("time_key", time_key self);
    ("page_key", page_key self);
    ("query_key", query_key self) ].

(** [Schema(...)]: raises when [not value] holds of every attribute. *)
Definition __init__
  (reproductive_data_key dimension_key scroll_top_key mouse_position_key
   time_key page_key query_key : option string) : Py.result t :=
  let self :=
    Build reproductive_data_key dimension_key scroll_top_key
          mouse_position_key time_key page_key query_key in
  if forallb (fun kv => negb (Py.truthy_opt (snd kv))) (__dict__ self)
  then Py.Raise (Py.ValueError "All arguments cannot be None")
  else Py.Ok self.

(** The comprehension [{key: value for ... if value is not None}]. *)
Fixpoint not_none (items : list (string * option string))
  : list (string * string) :=
  match items with
  | [] => []
  | (key, Some value) :: rest => (key, value) :: not_none rest
  | (_, None) :: rest => not_none rest
  end.

Definition return_schema (self : t) : Py.result (list (string * string)) :=
  let schema := not_none (__dict__ self) in
  Py.dict_pop "reproductive_data_key" schema.

End Schema.

Module Events.

(** [self.parsed_events]: index to parsed event, in insertion order. *)
Definition stream : Type := list (Z * Py.dict).

Record t : Type := Build {
  events : list Py.value;
  inital_parser : string;
  schema : option Schema.t;
  parsed_events : stream
}.

Definition set_schema (s : Schema.t) (self : t) : t :=
  Build (events self) (inital_parser self) (Some s) (parsed_events self).

(** [self.parsed_events[n] = parsed_event] *)
Definition store (n : Z) (parsed_event : Py.dict) (self : t) : t :=
  Build (events self) (inital_parser self) (schema self)
        (Py.assoc_set Z.eqb n parsed_event (parsed_events self)).

Definition __init__ (events : list Py.value) (schema : option Schema.t)
  (inital_parser : string) : Py.result t :=
  if existsb (String.eqb inital_parser) Variables.ALLOWED_PARSERS
  then Py.Ok (Build events inital_parser schema [])
  else Py.Raise (Py.NotImplementedError
         ("Inital parser " ++ String "034" inital_parser ++ String "034"
          " is not supported. Inital parser that are supported: ('mixpanel',)")).

(** [key.replace('_key', '')]: every occurrence, left to right. *)
Fixpoint replace_key (key : string) : string :=
  match key with
  | String "_" (String "k" (String "e" (String "y" rest))) => replace_key rest
  | String c rest => String c (replace_key rest)
  | EmptyString => EmptyString
  end.

(** The loop [for key, value in schema.items():
    parsed_event[key.replace('_key', '')] = container.get(value)]. *)
Fixpoint fill (container : Py.value) (schema : list (string * string))
  (parsed_event : Py.dict) : Py.result Py.dict :=
  match schema with
  | [] => Py.Ok parsed_event
  | (key, value) :: rest =>
      v <- Py.method_get container (Some value) ;;
      fill container rest (Py.dict_set (replace_key key) v parsed_event)
  end.

(** [self.schema.return_schema()]; [self.schema] may still be [None]. *)
Definition self_schema (self : t) : Py.result Schema.t :=
  match schema self with
  | Some s => Py.Ok s
  | None => Py.Raise Py.AttributeError
  end.

(** The body of the [for event in self.events] loop of
    [__mixpanel_inital_parser]; [valid_event] is the local counter, the
    result is its new value. *)
Definition loop_body (event : Py.value) (valid_event : Z) : Py.M t Z :=
  self <~ Py.read ;;
  properties <~ Py.lift (Py.getitem event "properties") ;;
  name <~ Py.lift (Py.getitem event "event") ;;
  let parsed_event : Py.dict := [("name", name)] in
  self_schema <~ Py.lift (self_schema self) ;;
  schema <~ Py.lift (Schema.return_schema self_schema) ;;
  reproductive <~ Py.lift
    (Py.method_get properties (Schema.reproductive_data_key self_schema)) ;;
  if Py.truthy reproductive then
    parsed_event <~ Py.lift (fill reproductive schema parsed_event) ;;
    time <~ Py.lift (Py.method_get properties (Py.dict_get "time_key" schema)) ;;
    let parsed_event := Py.dict_set "time" time parsed_event in
    page <~ Py.lift (Py.method_get properties (Py.dict_get "page_key" schema)) ;;
    let parsed_event := Py.dict_set "page" page parsed_event in
    has_query <~ Py.lift
      (if Py.truthy_opt (Py.dict_get "query_key" schema)
       then
         query <- Py.method_get properties (Py.dict_get "query_key" schema) ;;
         Py.Ok (Py.truthy query)
       else Py.Ok false) ;;
    parsed_event <~ Py.lift
      (if has_query : bool
       then
         page <- Py.dict_item "page" parsed_event ;;
         query <- Py.method_get properties (Py.dict_get "query_key" schema) ;;
         page <- Py.add page query ;;
         Py.Ok (Py.dict_set "page" page parsed_event)
       else Py.Ok parsed_event) ;;
    let valid_event := valid_event + 1 in
    Py.modify (store valid_event parsed_event) ;;;
    (* [parsed_event] and the stored entry are one object: the pop that
       follows is seen through [self.parsed_events]. *)
    parsed_event <~ Py.lift (Py.dict_pop "query" parsed_event) ;;
    Py.modify (store valid_event parsed_event) ;;;
    Py.ret valid_event
  else
    parsed_event <~ Py.lift (fill properties schema parsed_event) ;;
    time <~ Py.lift (Py.method_get properties (Py.dict_get "time_key" schema)) ;;
    let parsed_event := Py.dict_set "time" time parsed_event in
    page <~ Py.lift (Py.method_get properties (Py.dict_get "page_key" schema)) ;;
    let parsed_event := Py.dict_set "page" page parsed_event in
    parsed_event <~ Py.lift
      (if Py.truthy_opt (Py.dict_get "query_key" schema)
       then
         page <- Py.dict_item "page" parsed_event ;;
         query <- Py.method_get properties (Py.dict_get "query_key" schema) ;;
         page <- Py.add page query ;;
         Py.Ok (Py.dict_set "page" page parsed_event)
       else Py.Ok parsed_event) ;;
    let valid_event := valid_event + 1 in
    parsed_event <~ Py.lift (Py.dict_pop "query" parsed_event) ;;
    Py.modify (store valid_event parsed_event) ;;;
    Py.ret valid_event.

Fixpoint loop (events : list Py.value) (valid_event : Z) : Py.M t unit :=
  match events with
  | [] => Py.ret tt
  | event :: rest =>
      valid_event <~ loop_body event valid_event ;;
      loop rest valid_event
  end.

Definition __mixpanel_inital_parser : Py.M t stream :=
  self <~ Py.read ;;
  loop (events self) 0 ;;;
  self <~ Py.read ;;
  Py.ret (parsed_events self).

Definition PARSERS_AND_THEIR_FUNCTIONS : list (string * Py.M t stream) :=
  [("mixpanel", __mixpanel_inital_parser)].

Definition __perfom_parsing : Py.M t stream :=
  self <~ Py.read ;;
  match Py.dict_get (inital_parser self) PARSERS_AND_THEIR_FUNCTIONS with
  | Some parser => parser
  | None => Py.throw (Py.KeyError (inital_parser self))
  end.

Definition parse (schema : Schema.t) : Py.M t stream :=
  Py.modify (set_schema schema) ;;;
  __perfom_parsing.

(** [Events(events).parse(schema)]: the value returned or the exception. *)
Definition run_parse (events : list Py.value) (schema : Schema.t)
  : Py.result stream :=
  self <- __init__ events None "mixpanel" ;;
  snd (parse schema self).

End Events.

(* ===================================================================== *)
(** * Text: [str], [repr], [json.dumps] and the date pattern              *)
(* ===================================================================== *)

Module Text.

Definition dquote : ascii := "034".
Definition squote : ascii := "039".
Definition backslash : ascii := "092".

Definition chr (c : ascii) : string := String c EmptyString.

Definition join (sep : string) (parts : list string) : string :=
  String.concat sep parts.

Definition str_of_Z (z : Z) : string := NilZero.string_of_int (Z.to_int z).

Definition hex_digit (n : nat) : ascii :=
  match String.get n "0123456789abcdef" with
  | Some c => c
  | None => "0"%char
  end.

(** Two lowercase hexadecimal digits of a code point below 256. *)
Definition hex2 (c : ascii) : string :=
  let n := nat_of_ascii c in
  String (hex_digit (n / 16)) (String (hex_digit (n mod 16)) EmptyString).

Definition code (c : ascii) : nat := nat_of_ascii c.

Fixpoint contains (c : ascii) (s : string) : bool :=
  match s with
  | EmptyString => false
  | String c' s' => Ascii.eqb c c' || contains c s'
  end.

Fixpoint map_concat (f : ascii -> string) (s : string) : string :=
  match s with
  | EmptyString => EmptyString
  | String c s' => f c ++ map_concat f s'
  end.

(** *** [json.dumps(obj, ensure_ascii=False)] *)

(** The encoder's escape table: the quote, the backslash and the control
    characters below 0x20. *)
Definition json_escape_char (c : ascii) : string :=
  if Ascii.eqb c dquote then String backslash (chr dquote)
  else if Ascii.eqb c backslash then String backslash (chr backslash)
  else if Ascii.eqb c "010" then String backslash "n"
  else if Ascii.eqb c "013" then String backslash "r"
  else if Ascii.eqb c "009" then String backslash "t"
  else if Ascii.eqb c "008" then String backslash "b"
  else if Ascii.eqb c "012" then String backslash "f"
  else if (code c <? 32)%nat then String backslash ("u00" ++ hex2 c)
  else chr c.

Definition json_string (s : string) : string :=
  String dquote (map_concat json_escape_char s ++ chr dquote).

Fixpoint json_dumps (v : Py.value) : string :=
  match v with
  | Py.None_ => "null"
  | Py.Bool true => "true"
  | Py.Bool false => "false"
  | Py.Int z => str_of_Z z
  | Py.Str s => json_string s
  | Py.List_ l => "[" ++ join ", " (map json_dumps l) ++ "]"
  | Py.Dict d =>
      "{" ++ join ", "
               (map (fun kv => json_string (fst kv) ++ ": " ++ json_dumps (snd kv)) d)
          ++ "}"
  end.

(** *** [repr] and [str] *)

(** Latin-1 code points that [str.isprintable] rejects. *)
Definition printable (c : ascii) : bool :=
  let n := code c in
  (32 <=? n)%nat && negb (n =? 127)%nat
  && negb ((128 <=? n)%nat && (n <=? 160)%nat) && negb (n =? 173)%nat.

Definition repr_char (quote c : ascii) : string :=
  if Ascii.eqb c quote || Ascii.eqb c backslash then String backslash (chr c)
  else if Ascii.eqb c "009" then String backslash "t"
  else if Ascii.eqb c "010" then String backslash "n"
  else if Ascii.eqb c "013" then String backslash "r"
  else if printable c then chr c
  else String backslash ("x" ++ hex2 c).

Definition repr_str (s : string) : string :=
  let quote :=
    if contains squote s && negb (contains dquote s) then dquote else squote in
  String quote (map_concat (repr_char quote) s ++ chr quote).

Fixpoint repr (v : Py.value) : string :=
  match v with
  | Py.None_ => "None"
  | Py.Bool true => "True"
  | Py.Bool false => "False"
  | Py.Int z => str_of_Z z
  | Py.Str s => repr_str s
  | Py.List_ l => "[" ++ join ", " (map repr l) ++ "]"
  | Py.Dict d =>
      "{" ++ join ", " (map (fun kv => repr_str (fst kv) ++ ": " ++ repr (snd kv)) d)
          ++ "}"
  end.

Definition str (v : Py.value) : string :=
  match v with
  | Py.Str s => s
  | _ => repr v
  end.

(** *** Message templates: [template.format(user_input=value)] *)

Inductive piece : Type :=
| Lit (s : string)
| user_input.

Definition template : Type := list piece.

Definition format (t : template) (value : Py.value) : string :=
  String.concat EmptyString
    (map (fun p => match p with Lit s => s | user_input => str value end) t).

(** *** The date pattern

    [^(?:19|20)\d\d-(?:0[1-9]|1[0-2])-(?:0[1-9]|[12]\d|3[01])$], searched
    with [re.search]: [^] matches at the start only, [$] at the end or just
    before a newline that ends the string.  On a [str], [\d] matches every
    decimal digit of Unicode; among the Latin-1 code points, which are the
    characters of the texts here, these are the ten ASCII digits only. *)

Definition between (lo hi c : ascii) : bool :=
  (code lo <=? code c)%nat && (code c <=? code hi)%nat.

Definition digit (c : ascii) : bool := between "0" "9" c.

Definition char_is (c d : ascii) : bool := Ascii.eqb c d.

Definition date_body (l : list ascii) : bool :=
  match l with
  | [c1; c2; y1; y2; h1; m1; m2; h2; d1; d2] =>
      ((char_is c1 "1" && char_is c2 "9") || (char_is c1 "2" && char_is c2 "0"))
      && digit y1 && digit y2
      && char_is h1 "-"
      && ((char_is m1 "0" && between "1" "9" m2) || (char_is m1 "1" && between "0" "2" m2))
      && char_is h2 "-"
      && ((char_is d1 "0" && between "1" "9" d2)
          || (between "1" "2" d1 && digit d2)
          || (char_is d1 "3" && between "0" "1" d2))
  | _ => false
  end.

Definition DATE_REGEX_search (s : string) : bool :=
  let l := list_ascii_of_string s in
  date_body l
  || match rev l with
     | nl :: body => char_is nl "010" && date_body (rev body)
     | [] => false
     end.

(** *** [str.splitlines]

    The line boundaries among the Latin-1 code points are LF, VT, FF, CR,
    FS, GS, RS and NEL.  CR LF is one boundary, and no empty line follows
    the last boundary. *)

Definition linebreak (c : ascii) : bool :=
  existsb (Nat.eqb (code c)) [10; 11; 12; 13; 28; 29; 30; 133]%nat.

(** [line] is the part of the current line already read. *)
Fixpoint splitlines_from (line s : string) : list string :=
  match s with
  | EmptyString => if String.eqb line EmptyString then [] else [line]
  | String c rest =>
      if linebreak c
      then
        line ::
        match rest with
        | String c' rest' =>
            if Ascii.eqb c "013" && Ascii.eqb c' "010"
            then splitlines_from EmptyString rest'
            else splitlines_from EmptyString rest
        | EmptyString => []
        end
      else splitlines_from (line ++ chr c) rest
  end.

Definition splitlines (s : string) : list string := splitlines_from EmptyString s.

End Text.

(* ===================================================================== *)
(** * Bytes: [str.encode], [bytes.decode] and [base64.b64encode]          *)
(* ===================================================================== *)

Module Bytes.
Local Open Scope nat_scope.
Local Open Scope list_scope.

Definition byte_of_nat (n : nat) : Byte.byte := byte_of_ascii (ascii_of_nat n).
Definition nat_of_byte (b : Byte.byte) : nat := nat_of_ascii (ascii_of_byte b).

(** [s.encode()]: UTF-8, one byte for a code point below 128 and two for
    the other code points of Latin-1. *)
Fixpoint encode (s : string) : list Byte.byte :=
  match s with
  | EmptyString => []
  | String c rest =>
      let n := nat_of_ascii c in
      (if n <? 128
       then [byte_of_nat n]
       else [byte_of_nat (192 + n / 64); byte_of_nat (128 + n mod 64)])
      ++ encode rest
  end.

(** [bs.decode()]: [None] for a [UnicodeDecodeError], and for a code point
    outside Latin-1. *)
Fixpoint decode (bs : list Byte.byte) : option string :=
  match bs with
  | [] => Some EmptyString
  | b :: rest =>
      let n := nat_of_byte b in
      if n <? 128
      then option_map (String (ascii_of_nat n)) (decode rest)
      else if (n =? 194) || (n =? 195)
      then
        match rest with
        | b2 :: rest' =>
            let m := nat_of_byte b2 in
            if (128 <=? m) && (m <? 192)
            then option_map (String (ascii_of_nat ((n - 192) * 64 + (m - 128))))
                   (decode rest')
            else None
        | [] => None
        end
      else None
  end.

Definition alphabet : string :=
  "ABCDEFGHIJKLMNOPQRSTUVWXYZabcdefghijklmnopqrstuvwxyz0123456789+/".

Definition pad : Byte.byte := byte_of_ascii "=".

Definition sextet (i : nat) : Byte.byte :=
  match String.get i alphabet with
  | Some c => byte_of_ascii c
  | None => pad
  end.

(** [b64encode(s)]: four characters for every three bytes, the last group
    padded. *)
Fixpoint b64encode (s : list Byte.byte) : list Byte.byte :=
  match s with
  | [] => []
  | [a] =>
      let a := nat_of_byte a in
      [sextet (a / 4); sextet (a mod 4 * 16); pad; pad]
  | [a; b] =>
      let a := nat_of_byte a in
      let b := nat_of_byte b in
      [sextet (a / 4); sextet (a mod 4 * 16 + b / 16); sextet (b mod 16 * 4); pad]
  | a :: b :: c :: rest =>
      let a := nat_of_byte a in
      let b := nat_of_byte b in
      let c := nat_of_byte c in
      [sextet (a / 4); sextet (a mod 4 * 16 + b / 16);
       sextet (b mod 16 * 4 + c / 64); sextet (c mod 64)]
      ++ b64encode rest
  end.

End Bytes.

(* ===================================================================== *)
(** * parsers/mixpanel.py                                                 *)
(* ===================================================================== *)

Module MixpanelParser.
Module DataParams.

Definition SUPPORTED_PARAMS : list string :=
  ["from_date"; "to_date"; "limit"; "event"; "where"].

(** [repr] of the tuple above, as the f-string prints it. *)
Definition SUPPORTED_PARAMS_repr : string :=
  "('from_date', 'to_date', 'limit', 'event', 'where')".

(** One entry of a ['functions'] tuple.  The lambdas close over [kwargs],
    which the loop updates, so they receive the dictionary as it is when
    they are called. *)
Record check : Type := Check {
  function : Py.dict -> Py.value -> Py.result bool;
  error : Text.template;
  custom_result : option (Py.value -> Py.value)
}.

(** [re.search(DATE_REGEX, date) is not None]; [re.search] rejects what is
    not a string. *)
Definition matches_date (date : Py.value) : Py.result bool :=
  match date with
  | Py.Str s => Py.Ok (Text.DATE_REGEX_search s)
  | _ => Py.Raise Py.TypeError
  end.

Definition PARAMS_CHECKS : list (string * list check) :=
  [ ("from_date",
      [ Check (fun _ date => matches_date date)
          [Text.Lit "from_date param should be in the following pattern: YYYY-MM-DD | You provided ";
           Text.user_input]
          None;
        Check (fun kwargs _ => Py.Ok (Py.truthy (Py.get_or_none "to_date" kwargs)))
          [Text.Lit "from_date param have to be with to_date param"]
          None ]);
    ("to_date",
      [ Check (fun _ date => matches_date date)
          [Text.Lit "to_date param should be in the following pattern: YYYY-MM-DD | You provided ";
           Text.user_input]
          None;
        Check (fun kwargs _ => Py.Ok (Py.truthy (Py.get_or_none "from_date" kwargs)))
          [Text.Lit "to_date param have to be with from_date param"]
          None ]);
    ("limit",
      [ Check (fun _ limit => Py.Ok (Py.isinstance_int limit))
          [Text.Lit "limit param should be integer"]
          None ]);
    ("event",
      [ Check (fun _ event => Py.Ok (Py.isinstance_list event))
          [Text.Lit "event param should be list"]
          (Some (fun event => Py.Str (Text.json_dumps event))) ]);
    ("where", []) ].

(** The inner loop [for data in self.PARAMS_CHECKS[key]['functions']]. *)
Fixpoint run_checks (key : string) (value : Py.value) (functions : list check)
  (kwargs : Py.dict) : Py.result Py.dict :=
  match functions with
  | [] => Py.Ok kwargs
  | data :: rest =>
      passed <- function data kwargs value ;;
      if negb passed
      then Py.Raise (Py.ValueError (Text.format (error data) value))
      else
        let kwargs :=
          match custom_result data with
          | Some f => Py.dict_set key (f value) kwargs
          | None => kwargs
          end in
        run_checks key value rest kwargs
  end.

(** The outer loop [for key, value in kwargs.items()]: [items] is what is
    left to visit, [kwargs] the dictionary as updated so far.  Assigning to
    a key that is already there changes neither the order nor the values
    of the later items. *)
Fixpoint loop (items : list (string * Py.value)) (kwargs : Py.dict)
  : Py.result Py.dict :=
  match items with
  | [] => Py.Ok kwargs
  | (key, value) :: rest =>
      if negb (existsb (String.eqb key) SUPPORTED_PARAMS)
      then Py.Raise (Py.NotImplementedError
             (String Text.dquote key ++ String Text.dquote
                " is not supported param. Supported params are "
              ++ SUPPORTED_PARAMS_repr))
      else
        functions <-
          match Py.dict_get key PARAMS_CHECKS with
          | Some functions => Py.Ok functions
          | None => Py.Raise (Py.KeyError key)
          end ;;
        kwargs <- run_checks key value functions kwargs ;;
        loop rest kwargs
  end.

(** The constructor of [DataParams], called with the keyword arguments
    [kwargs]: the result is [self.params]. *)
Definition __init__ (kwargs : Py.dict) : Py.result Py.dict :=
  loop kwargs kwargs.

End DataParams.

(** [MixpanelParser(project_id, service_account_username,
    service_account_secret)] *)
Record t : Type := Build {
  project_id : Py.value;
  service_account_username : Py.value;
  service_account_secret : Py.value
}.

Definition __init__
  (project_id service_account_username service_account_secret : Py.value) : t :=
  Build project_id service_account_username service_account_secret.

(** The f-strings format each value with [str]; the result is [None] when
    [decode] raises. *)
Definition _authorization_as_base64 (self : t) : option string :=
  let string_to_encode :=
    Bytes.encode (Text.str (service_account_username self) ++ ":"
                  ++ Text.str (service_account_secret self)) in
  match Bytes.decode (Bytes.b64encode string_to_encode) with
  | Some base64_string => Some ("Basic " ++ base64_string)
  | None => None
  end.

(** The comprehension [[json.loads(event) for event in data.splitlines()]];
    [json_loads] is [json.loads]. *)
Fixpoint _extract_events_from_response_loop
  (json_loads : string -> Py.result Py.value) (lines : list string)
  : Py.result (list Py.value) :=
  match lines with
  | [] => Py.Ok []
  | event :: rest =>
      record <- json_loads event ;;
      records <- _extract_events_from_response_loop json_loads rest ;;
      Py.Ok (record :: records)
  end.

Definition _extract_events_from_response
  (json_loads : string -> Py.result Py.value) (data : string)
  : Py.result (list Py.value) :=
  _extract_events_from_response_loop json_loads (Text.splitlines data).

End MixpanelParser.

(* ===================================================================== *)
(** * navigators/selenium_navigator.py                                    *)
(* ===================================================================== *)

(** The browser and the clock are outside the repository.  What the code
    does to them is recorded, in order, in a trace; what they answer is
    given by the driver, a function of the trace so far and of the
    command. *)
Module Browser.

Inductive command : Type :=
| get (url : Py.value)
    (* [driver.get(url)] *)
| execute_script_scrollTo (pixels : Py.value)
    (* [driver.execute_script(f"window.scrollTo(0, {pixels});")] *)
| perform_click (x y : Py.value).
    (* [ActionBuilder(driver)]: move to [(x, y)], click, [perform()] *)

Inductive action : Type :=
| Sleep (seconds : Z)
| Call (c : command) (raised : option Py.exn)
| Print (line : string)
| Custom (n : Z) (performed : list action) (raised : option Py.exn).

Definition world : Type := list action.

Definition driver : Type := world -> command -> option Py.exn.

(** The longest duration [time.sleep] accepts: it converts the seconds to
    a 64-bit count of nanoseconds. *)
Definition max_sleep : Z := 9223372036.

(** [time.sleep(seconds)] for an integer: a duration that does not fit the
    clock raises [OverflowError], a negative one [ValueError]. *)
Definition sleep (seconds : Z) : Py.M world unit :=
  fun w =>
    if (seconds <? - max_sleep) || (max_sleep <? seconds)
    then (w, Py.Raise
               (Py.OverflowError "timestamp too large to convert to C _PyTime_t"))
    else if seconds <? 0
    then (w, Py.Raise (Py.ValueError "sleep length must be non-negative"))
    else ((w ++ [Sleep seconds])%list, Py.Ok tt).

Definition sleep_value (seconds : Py.value) : Py.M world unit :=
  match Py.as_int seconds with
  | Some z => sleep z
  | None => Py.throw Py.TypeError
  end.

Definition print (line : string) : Py.M world unit :=
  fun w => ((w ++ [Print line])%list, Py.Ok tt).

Definition call (d : driver) (c : command) : Py.M world unit :=
  fun w =>
    match d w c with
    | None => ((w ++ [Call c None])%list, Py.Ok tt)
    | Some e => ((w ++ [Call c (Some e)])%list, Py.Raise e)
    end.

(** [try: body except JavascriptException: handler] *)
Definition try_except_JavascriptException {A}
  (body handler : Py.M world A) : Py.M world A :=
  fun w =>
    match body w with
    | (w', Py.Raise Py.JavascriptException) => handler w'
    | r => r
    end.

End Browser.

Module Controls.

Definition simulate_click (driver : Browser.driver) (x y : Py.value)
  : Py.M Browser.world unit :=
  Browser.call driver (Browser.perform_click x y).

Definition simulate_scroll (driver : Browser.driver) (pixels : Py.value)
  : Py.M Browser.world unit :=
  Browser.try_except_JavascriptException
    (Browser.call driver (Browser.execute_script_scrollTo pixels))
    (Browser.print "Simulating scroll failed").

End Controls.

Module UserSimulation.

Record t : Type := Build {
  events : Events.stream;
  first_event : Py.dict;
  driver : Browser.driver
}.

(** [UserSimulation(parsed_events)]; [chrome] is the driver that
    [webdriver.Chrome(options=options)] returns. *)
Definition __init__ (parsed_events : Events.stream) (chrome : Browser.driver)
  : Py.result t :=
  first_event <-
    match parsed_events with
    | (_, event) :: _ => Py.Ok event
    | [] => Py.Raise Py.StopIteration
    end ;;
  dimension <- Py.dict_item "dimension" first_event ;;
  width <- Py.getitem_int dimension 0 ;;
  dimension <- Py.dict_item "dimension" first_event ;;
  height <- Py.getitem_int dimension 1 ;;
  Py.Ok (Build parsed_events first_event chrome).

(** What a custom [execute_function] is called with, and what it does: the
    actions it performs and whether it raises. *)
Definition callable : Type :=
  forall (n : Z) (event : Py.dict) (events : Events.stream)
         (driver : Browser.driver) (last_location last_timestamp : Py.value),
    Browser.world -> list Browser.action * Py.result unit.

(** The argument [execute_function]: [None], a callable, or another
    object. *)
Inductive execute_function_arg : Type :=
| NoFunction
| Callable (f : callable)
| NotCallable.

Definition call_custom (f : callable) (n : Z) (event : Py.dict)
  (self : t) (last_location last_timestamp : Py.value)
  : Py.M Browser.world unit :=
  fun w =>
    match f n event (events self) (driver self) last_location last_timestamp w with
    | (performed, Py.Ok _) =>
        ((w ++ [Browser.Custom n performed None])%list, Py.Ok tt)
    | (performed, Py.Raise e) =>
        ((w ++ [Browser.Custom n performed (Some e)])%list, Py.Raise e)
    end.

(** The body of the loop of [perform_simulation]; the result is the new
    [(last_timestamp, last_location)]. *)
Definition loop_body (self : t) (static_sleep_time : option Z)
  (execute_function : execute_function_arg)
  (n : Z) (event : Py.dict) (last_timestamp last_location : Py.value)
  : Py.M Browser.world (Py.value * Py.value) :=
  match static_sleep_time with
  | None =>
      next_event_in <~ Py.lift
        (time <- Py.dict_item "time" event ;; Py.sub time last_timestamp) ;;
      negative <~ Py.lift (Py.lt_zero next_event_in) ;;
      let next_event_in := if negative : bool then Py.Int 3 else next_event_in in
      Browser.sleep_value next_event_in
  | Some seconds => Browser.sleep seconds
  end ;;;
  match execute_function with
  | Callable f => call_custom f n event self last_location last_timestamp
  | _ =>
      page <~ Py.lift (Py.dict_item "page" event) ;;
      if Py.ne last_location page
      then
        page <~ Py.lift (Py.dict_item "page" event) ;;
        Browser.call (driver self) (Browser.get page)
      else Py.ret tt
  end ;;;
  (if Py.truthy (Py.get_or_none "scroll_top" event)
   then
     pixels <~ Py.lift (Py.dict_item "scroll_top" event) ;;
     Controls.simulate_scroll (driver self) pixels
   else Py.ret tt) ;;;
  (if Py.truthy (Py.get_or_none "mouse_position" event)
   then
     mouse_position <~ Py.lift (Py.dict_item "mouse_position" event) ;;
     x <~ Py.lift (Py.getitem_int mouse_position 0) ;;
     mouse_position <~ Py.lift (Py.dict_item "mouse_position" event) ;;
     y <~ Py.lift (Py.getitem_int mouse_position 1) ;;
     Controls.simulate_click (driver self) x y
   else Py.ret tt) ;;;
  last_timestamp <~ Py.lift (Py.dict_item "time" event) ;;
  last_location <~ Py.lift (Py.dict_item "page" event) ;;
  Py.ret (last_timestamp, last_location).

Fixpoint loop (self : t) (static_sleep_time : option Z)
  (execute_function : execute_function_arg)
  (items : Events.stream) (last_timestamp last_location : Py.value)
  : Py.M Browser.world unit :=
  match items with
  | [] => Py.ret tt
  | (n, event) :: rest =>
      state <~ loop_body self static_sleep_time execute_function
                 n event last_timestamp last_location ;;
      loop self static_sleep_time execute_function rest (fst state) (snd state)
  end.

Definition perform_simulation (self : t) (static_sleep_time : option Z)
  (execute_function : execute_function_arg) : Py.M Browser.world unit :=
  last_timestamp <~ Py.lift (Py.dict_item "time" (first_event self)) ;;
  let last_location := Py.None_ in
  loop self static_sleep_time execute_function (events self)
       last_timestamp last_location.

End UserSimulation.

(* ===================================================================== *)
(** * example.py                                                          *)
(* ===================================================================== *)

Module Example.

(** [events.get(n)] on the stream of parsed events. *)
Definition events_get (n : Z) (events : Events.stream) : Py.value :=
  match Py.assoc_get Z.eqb n events with
  | Some event => Py.Dict event
  | None => Py.None_
  end.

(** The test of the [if]: [or] and [and] evaluate their right operand only
    when the left one does not decide. *)
Definition wants_navigation (n : Z) (event : Py.dict) (events : Events.stream)
  (last_location : Py.value) : Py.result bool :=
  page <- Py.dict_item "page" event ;;
  if Py.ne last_location page then Py.Ok true
  else
    page <- Py.dict_item "page" event ;;
    if negb (Py.ne last_location page) then Py.Ok false
    else if negb (Py.truthy (events_get (n + 1) events)) then Py.Ok false
    else
      name <- Py.dict_item "name" event ;;
      if negb (Py.eqb name (Py.Str "Button clicked")) then Py.Ok false
      else
        next_name <- Py.getitem (events_get (n + 1) events) "name" ;;
        Py.Ok (Py.eqb next_name (Py.Str "Page viewed")).

(** The handler that [example.py] passes as [execute_function]: it prints
    the event, then navigates.  What it performs is what it adds to the
    trace. *)
Definition function_that_i_want_to_execute_inside_loop : UserSimulation.callable :=
  fun n event events driver last_location last_timestamp w =>
    let body : Py.M Browser.world unit :=
      Browser.print (Text.str (Py.Dict event)) ;;;
      navigate <~ Py.lift (wants_navigation n event events last_location) ;;
      if navigate : bool
      then
        page <~ Py.lift (Py.dict_item "page" event) ;;
        Browser.call driver (Browser.get page)
      else Py.ret tt in
    let (w', r) := body w in
    (skipn (length w) w', r).

End Example.

(* ===================================================================== *)
(** * Vocabulary of the statements                                        *)
(* ===================================================================== *)

(** ** Schema *)

(** The six slots other than [reproductive_data_key] that are not [None],
    in attribute order. *)
Definition active_fields (self : Schema.t) : list (string * string) :=
  Schema.not_none (tl (Schema.__dict__ self)).

(** ** What one record becomes

    [canonical_event] describes the dictionary that the loop body stores
    for one record, without the instance: both branches of the source
    written once, over the container they read the generic fields from.
    [loop_body_canonical] below shows that the loop body computes it. *)

Definition canonical_event (s : Schema.t) (event : Py.value)
  : Py.result Py.dict :=
  properties <- Py.getitem event "properties" ;;
  name <- Py.getitem event "event" ;;
  schema <- Schema.return_schema s ;;
  reproductive <- Py.method_get properties (Schema.reproductive_data_key s) ;;
  let container := if Py.truthy reproductive then reproductive else properties in
  parsed_event <- Events.fill container schema [("name", name)] ;;
  time <- Py.method_get properties (Py.dict_get "time_key" schema) ;;
  let parsed_event := Py.dict_set "time" time parsed_event in
  page <- Py.method_get properties (Py.dict_get "page_key" schema) ;;
  let parsed_event := Py.dict_set "page" page parsed_event in
  query <- Py.method_get properties (Py.dict_get "query_key" schema) ;;
  parsed_event <-
    (if Py.truthy_opt (Py.dict_get "query_key" schema)
        && (negb (Py.truthy reproductive) || Py.truthy query)
     then
       page <- Py.add page query ;;
       Py.Ok (Py.dict_set "page" page parsed_event)
     else Py.Ok parsed_event) ;;
  Py.dict_pop "query" parsed_event.

(** The first exception, or all the results in order. *)
Fixpoint traverse {A B} (f : A -> Py.result B) (l : list A)
  : Py.result (list B) :=
  match l with
  | [] => Py.Ok []
  | a :: l' =>
      b <- f a ;;
      bs <- traverse f l' ;;
      Py.Ok (b :: bs)
  end.

(** The indices [start + 1, ..., start + len]. *)
Fixpoint indices (start : Z) (len : nat) : list Z :=
  match len with
  | O => []
  | S len' => (start + 1) :: indices (start + 1) len'
  end.

(** [self.parsed_events] after storing [items] one after the other. *)
Definition store_all (items : list (Z * Py.dict)) (self : Events.t) : Events.t :=
  fold_left (fun self kv => Events.store (fst kv) (snd kv) self) items self.

(** What [Events.fill] computes when the container is a dictionary. *)
Definition fill_dict (c : Py.dict) (schema : list (string * string))
  (parsed_event : Py.dict) : Py.dict :=
  fold_left
    (fun pe kv =>
       Py.dict_set (Events.replace_key (fst kv)) (Py.get_or_none (snd kv) c) pe)
    schema parsed_event.

Definition is_mapping (v : Py.value) : bool :=
  match v with Py.Dict _ => true | _ => false end.

(** [properties.get(self.schema.reproductive_data_key)] *)
Definition nested_value (s : Schema.t) (props : Py.dict) : Py.value :=
  match Schema.reproductive_data_key s with
  | Some r => Py.get_or_none r props
  | None => Py.None_
  end.

(** A record that is a mapping with an event name and a [properties]
    mapping, in which the value under [reproductive_data_key] is absent,
    falsy or a mapping. *)
Definition well_shaped (s : Schema.t) (event : Py.value) : bool :=
  match event with
  | Py.Dict d =>
      match Py.dict_get "properties" d, Py.dict_get "event" d with
      | Some (Py.Dict props), Some _ =>
          negb (Py.truthy (nested_value s props))
          || is_mapping (nested_value s props)
      | _, _ => false
      end
  | _ => false
  end.

(** The key whose removal fails when [query_key] is not configured. *)
Definition missing_key (s : Schema.t) : string :=
  match Schema.reproductive_data_key s with
  | Some _ => "query"
  | None => "reproductive_data_key"
  end.

Definition raises_one_of (e : Py.exn) : Prop :=
  e = Py.TypeError \/ e = Py.AttributeError \/ exists k, e = Py.KeyError k.

Definition no_field (s : Schema.t) : bool :=
  match active_fields s with [] => true | _ => false end.

(** The exception of a first record when [query_key] is not configured,
    in the order in which the loop body can fail: the record is not a
    mapping; it has no [properties]; it has no [event];
    [reproductive_data_key] is not configured; [properties] is not a
    mapping; the nested value is truthy, not a mapping, and some field is
    read from it; and otherwise the [pop] of the key that was never
    written. *)
Definition failure_without_query_key (s : Schema.t) (event : Py.value) : Py.exn :=
  match event with
  | Py.Dict d =>
      match Py.dict_get "properties" d, Py.dict_get "event" d with
      | None, _ => Py.KeyError "properties"
      | Some _, None => Py.KeyError "event"
      | Some properties, Some _ =>
          match Schema.reproductive_data_key s, properties with
          | None, _ => Py.KeyError "reproductive_data_key"
          | Some _, Py.Dict props =>
              if Py.truthy (nested_value s props)
                 && negb (is_mapping (nested_value s props))
                 && negb (no_field s)
              then Py.AttributeError
              else Py.KeyError "query"
          | Some _, _ => Py.AttributeError
          end
      end
  | _ => Py.TypeError
  end.

(** [container.get(key)] for a container that is a mapping. *)
Definition read_from (container : Py.value) (key : option string) : Py.value :=
  match container, key with
  | Py.Dict d, Some k => Py.get_or_none k d
  | _, _ => Py.None_
  end.

(** The container the generic fields are read from. *)
Definition source_container (s : Schema.t) (props : Py.dict) : Py.value :=
  if Py.truthy (nested_value s props) then nested_value s props
  else Py.Dict props.

(** The page of a parsed event: the top-level page, with the top-level
    query value appended when [query_key] is a non-empty key and, in the
    branch of the nested container, the query value is truthy. *)
Definition resolved_page (s : Schema.t) (props : Py.dict) : Py.result Py.value :=
  let page := read_from (Py.Dict props) (Schema.page_key s) in
  let query := read_from (Py.Dict props) (Schema.query_key s) in
  if Py.truthy_opt (Schema.query_key s)
     && (negb (Py.truthy (nested_value s props)) || Py.truthy query)
  then Py.add page query
  else Py.Ok page.

(** Where each field of the parsed event [pe] of a record with properties
    [props] comes from. *)
Definition fields_read (s : Schema.t) (props : Py.dict) (pe : Py.dict) : Prop :=
  (forall k, Schema.dimension_key s = Some k ->
     Py.dict_get "dimension" pe
     = Some (read_from (source_container s props) (Some k))) /\
  (forall k, Schema.scroll_top_key s = Some k ->
     Py.dict_get "scroll_top" pe
     = Some (read_from (source_container s props) (Some k))) /\
  (forall k, Schema.mouse_position_key s = Some k ->
     Py.dict_get "mouse_position" pe
     = Some (read_from (source_container s props) (Some k))) /\
  Py.dict_get "time" pe = Some (read_from (Py.Dict props) (Schema.time_key s)) /\
  (exists page,
     resolved_page s props = Py.Ok page /\ Py.dict_get "page" pe = Some page) /\
  Py.dict_get "query" pe = None.

(** ** Schemas and records used as examples *)

(** The schema of the [__main__] block of [parsers/mixpanel.py]. *)
Definition mixpanel_main_schema : Schema.t :=
  Schema.Build (Some "reproductive") (Some "dimension") (Some "scrollTop")
    (Some "mousePosition") (Some "time") (Some "location") None.

(** The schema of [example.py] and of the [__main__] block of
    [parsers/events.py]. *)
Definition example_schema : Schema.t :=
  Schema.Build (Some "reproductive") (Some "dimension") (Some "scrollTop")
    (Some "mousePosition") (Some "time") (Some "location") (Some "searchArgs").

Definition record (properties : Py.dict) : Py.value :=
  Py.Dict [("event", Py.Str "Page viewed"); ("properties", Py.Dict properties)].

(** A page view with no nested container and no query string. *)
Definition plain_page_view : Py.value :=
  record [("time", Py.Int 100); ("location", Py.Str "https://x/a")].

(** The same page view with a nested container. *)
Definition nested_page_view : Py.value :=
  record [("time", Py.Int 100); ("location", Py.Str "https://x/a");
          ("reproductive", Py.Dict [("dimension", Py.List_ [Py.Int 320; Py.Int 480])])].

(** A page view with a query string. *)
Definition query_page_view : Py.value :=
  record [("time", Py.Int 100); ("location", Py.Str "https://x/a");
          ("searchArgs", Py.Str "?ref=1")].

(** Both containers hold a value for every mapped field, and the values
    differ. *)
Definition conflicting_properties : Py.dict :=
  [("time", Py.Int 100); ("location", Py.Str "https://x/top");
   ("searchArgs", Py.Str "?top=1");
   ("dimension", Py.List_ [Py.Int 1; Py.Int 2]);
   ("reproductive",
     Py.Dict [("time", Py.Int 7); ("location", Py.Str "https://x/nested");
              ("searchArgs", Py.Str "?nested=1");
              ("dimension", Py.List_ [Py.Int 3; Py.Int 4])])].

Definition conflicting_nested : Py.dict :=
  [("time", Py.Int 7); ("location", Py.Str "https://x/nested");
   ("searchArgs", Py.Str "?nested=1");
   ("dimension", Py.List_ [Py.Int 3; Py.Int 4])].

(** The record above without its nested container. *)
Definition conflicting_top_only : Py.dict :=
  [("time", Py.Int 100); ("location", Py.Str "https://x/top");
   ("searchArgs", Py.Str "?top=1");
   ("dimension", Py.List_ [Py.Int 1; Py.Int 2])].

(** A record whose value under the nested-container key is a string. *)
Definition string_nested_record : Py.value :=
  record [("time", Py.Int 100); ("reproductive", Py.Str "320x480")].

(** ** Query parameters *)

Section DataParamsVocabulary.
Import Py MixpanelParser.

(** One turn of the outer loop of [DataParams.__init__]. *)
Definition check_param (item : string * value) (kwargs : dict) : result dict :=
  let (key, value) := item in
  if negb (existsb (String.eqb key) DataParams.SUPPORTED_PARAMS)
  then Raise (NotImplementedError
         (String Text.dquote key ++ String Text.dquote
            " is not supported param. Supported params are "
          ++ DataParams.SUPPORTED_PARAMS_repr))
  else
    functions <-
      match dict_get key DataParams.PARAMS_CHECKS with
      | Some functions => Ok functions
      | None => Raise (KeyError key)
      end ;;
    DataParams.run_checks key value functions kwargs.

Definition supported (key : string) : bool :=
  existsb (String.eqb key) DataParams.SUPPORTED_PARAMS.

Definition unsupported_message (key : string) : string :=
  String Text.dquote key ++ String Text.dquote
    " is not supported param. Supported params are ('from_date', 'to_date', 'limit', 'event', 'where')".

Definition from_date_message (date : string) : string :=
  if Text.DATE_REGEX_search date
  then "from_date param have to be with to_date param"
  else "from_date param should be in the following pattern: YYYY-MM-DD | You provided " ++ date.

(** The two messages of a date, the first with the offending value. *)
Definition pattern_message (key : string) (value : value) : string :=
  key ++ " param should be in the following pattern: YYYY-MM-DD | You provided "
  ++ Text.str value.

Definition pairing_message (key other : string) : string :=
  key ++ " param have to be with " ++ other ++ " param".

Definition date_error (key other : string) (kwargs : dict) (value : value)
  : option exn :=
  match value with
  | Str date =>
      if negb (Text.DATE_REGEX_search date)
      then Some (ValueError (pattern_message key value))
      else if negb (truthy (get_or_none other kwargs))
      then Some (ValueError (pairing_message key other))
      else None
  | _ => Some TypeError
  end.

(** The exception that one keyword argument raises, if any, the other
    date being looked up in [kwargs]. *)
Definition param_error (kwargs : dict) (item : string * value) : option exn :=
  let (key, value) := item in
  if String.eqb key "from_date" then date_error "from_date" "to_date" kwargs value
  else if String.eqb key "to_date" then date_error "to_date" "from_date" kwargs value
  else if String.eqb key "limit"
  then if isinstance_int value then None
       else Some (ValueError "limit param should be integer")
  else if String.eqb key "event"
  then if isinstance_list value then None
       else Some (ValueError "event param should be list")
  else if String.eqb key "where" then None
  else Some (NotImplementedError (unsupported_message key)).

(** [sub in s], for two strings. *)
Fixpoint occurs (sub s : string) : bool :=
  String.prefix sub s
  || match s with
     | EmptyString => false
     | String _ s' => occurs sub s'
     end.

(** The text [["A", "B"]], with its four quotation marks. *)
Definition json_A_B : string :=
  "[" ++ String Text.dquote ("A" ++ String Text.dquote
  (", " ++ String Text.dquote ("B" ++ String Text.dquote "]"))).

End DataParamsVocabulary.

(** ** Replay *)

Section ReplayVocabulary.
Import Py.
Local Open Scope list_scope.

Definition prefix {X} (l1 l2 : list X) : Prop := exists rest, l2 = l1 ++ rest.

(** [c] only adds to the trace; what [f] reads in the added part is a
    prefix of [E], and all of [E] when [c] returns. *)
Definition observes {X A} (f : Browser.action -> list X)
  (c : M Browser.world A) (E : list X) : Prop :=
  forall w, exists new,
    fst (c w) = w ++ new
    /\ prefix (flat_map f new) E
    /\ (is_ok (snd (c w)) = true -> flat_map f new = E).

(** Every value [c] returns satisfies [P]. *)
Definition returns {S A} (c : M S A) (P : A -> Prop) : Prop :=
  forall w a, snd (c w) = Ok a -> P a.

(** [c] never raises. *)
Definition succeeds {S A} (c : M S A) : Prop :=
  forall w, is_ok (snd (c w)) = true.

(** [event.get('time')] and [event.get('page')] *)
Definition event_time (event : dict) : value := get_or_none "time" event.
Definition event_page (event : dict) : value := get_or_none "page" event.

Definition pages (events : Events.stream) : list value :=
  map (fun item => event_page (snd item)) events.

(** The times of the events, when each is an integer. *)
Fixpoint times_of (events : Events.stream) : option (list Z) :=
  match events with
  | [] => Some []
  | (_, event) :: rest =>
      match as_int (event_time event), times_of rest with
      | Some time, Some times => Some (time :: times)
      | _, _ => None
      end
  end.

(** What is expected of a whole loop, given what is expected of one turn
    [body_E event last_timestamp last_location]. *)
Fixpoint loop_E {X} (body_E : dict -> value -> value -> list X)
  (items : Events.stream) (lt ll : value) : list X :=
  match items with
  | [] => []
  | (_, event) :: rest =>
      body_E event lt ll
      ++ loop_E body_E rest (event_time event) (event_page event)
  end.

(** *** Navigation *)

(** The pages the trace asks the driver to load. *)
Definition navigation (a : Browser.action) : list value :=
  match a with
  | Browser.Call (Browser.get url) _ => [url]
  | _ => []
  end.

Definition navigations (w : Browser.world) : list value := flat_map navigation w.

(** Following the spec: an event is navigated to exactly when its page
    differs from the previous one. *)
Fixpoint navigations_from (previous : value) (pages : list value) : list value :=
  match pages with
  | [] => []
  | page :: rest =>
      (if ne previous page then [page] else []) ++ navigations_from page rest
  end.

(** *** Delays *)

(** The durations the trace sleeps for. *)
Definition sleeping (a : Browser.action) : list Z :=
  match a with
  | Browser.Sleep seconds => [seconds]
  | _ => []
  end.

Definition sleeps (w : Browser.world) : list Z := flat_map sleeping w.

(** Following the spec: a negative difference is replaced by 3. *)
Definition clamp (delta : Z) : Z := if delta <? 0 then 3 else delta.

(** Following the spec: before each event, the clamped difference to the
    previous time. *)
Fixpoint delays_from (previous : Z) (times : list Z) : list Z :=
  match times with
  | [] => []
  | time :: rest => clamp (time - previous) :: delays_from time rest
  end.

(** The previous time of the first event is its own time. *)
Definition recorded_delays (times : list Z) : list Z :=
  delays_from (hd 0 times) times.

(** The sleep of one turn of the loop, on values. *)
Definition body_delay (static : option Z) (event : dict) (lt ll : value) : list Z :=
  match static with
  | Some seconds => if seconds <? 0 then [] else [seconds]
  | None =>
      match as_int (event_time event), as_int lt with
      | Some time, Some previous => [clamp (time - previous)]
      | _, _ => []
      end
  end.

(** *** Failures of the driver *)

Definition scroll_failure_message : string := "Simulating scroll failed".

(** The one failure the code catches: [JavascriptException] from the
    scroll script. *)
Definition swallowed (c : Browser.command) (e : exn) : bool :=
  match c, e with
  | Browser.execute_script_scrollTo _, JavascriptException => true
  | _, _ => false
  end.

Definition raised_of {A} (r : result A) : option exn :=
  match r with Ok _ => None | Raise e => Some e end.

(** The exception an action of the trace ended with: a driver call or a
    custom handler that raised. *)
Definition failure (a : Browser.action) : option exn :=
  match a with
  | Browser.Call _ (Some e) => Some e
  | Browser.Custom _ _ (Some e) => Some e
  | _ => None
  end.

Definition is_swallowed (a : Browser.action) : bool :=
  match a with
  | Browser.Call c (Some e) => swallowed c e
  | _ => false
  end.

(** Every failed action of the trace is either swallowed and followed by
    the log line, or the last action, and then its exception is the one
    that leaves. *)
Fixpoint handled (new : list Browser.action) (raised : option exn) : Prop :=
  match new with
  | [] => True
  | a :: rest =>
      match failure a with
      | Some e =>
          if is_swallowed a
          then (exists rest', rest = Browser.Print scroll_failure_message :: rest')
               /\ handled rest raised
          else rest = [] /\ raised = Some e
      | None => handled rest raised
      end
  end.

Definition emits_handled {A} (c : M Browser.world A) : Prop :=
  forall w, exists new,
    fst (c w) = w ++ new /\ handled new (raised_of (snd (c w))).

(** A driver whose only failures are the swallowed ones. *)
Definition gentle (d : Browser.driver) : Prop :=
  forall w c e, d w c = Some e -> swallowed c e = true.

(** A custom handler that never raises. *)
Definition quiet (exec : UserSimulation.execute_function_arg) : Prop :=
  match exec with
  | UserSimulation.Callable g =>
      forall n event events d ll lt w, snd (g n event events d ll lt w) = Ok tt
  | _ => True
  end.

(** An event the loop can process: an integer time, a page entry, and a
    mouse position that is falsy or has two coordinates. *)
Definition replayable (event : dict) : bool :=
  isinstance_int (event_time event)
  && dict_mem "page" event
  && match dict_get "mouse_position" event with
     | Some position =>
         negb (truthy position)
         || (is_ok (getitem_int position 0) && is_ok (getitem_int position 1))
     | None => true
     end.

(** *** Streams and drivers used as examples *)

Definition replay_event (time : Z) (page scroll_top mouse_position : value) : dict :=
  [("name", Str "Page viewed"); ("dimension", List_ [Int 320; Int 480]);
   ("scroll_top", scroll_top); ("mouse_position", mouse_position);
   ("time", Int time); ("page", page)].

(** Times 100, 103, 99; pages p1, p1, p2. *)
Definition recorded_events : Events.stream :=
  [(1, replay_event 100 (Str "https://x/p1") (Int 50) None_);
   (2, replay_event 103 (Str "https://x/p1") None_ (List_ [Int 10; Int 20]));
   (3, replay_event 99 (Str "https://x/p2") (Int 70) None_)].

(** One event whose page is absent. *)
Definition pageless_events : Events.stream :=
  [(1, replay_event 100 None_ (Int 50) None_)].

Definition working_driver : Browser.driver := fun _ _ => None.

Definition scroll_failing_driver : Browser.driver :=
  fun _ c =>
    match c with
    | Browser.execute_script_scrollTo _ => Some JavascriptException
    | _ => None
    end.

(** A driver whose window is gone when the scroll script is sent: the
    exception is of another class than [JavascriptException]. *)
Definition scroll_crashing_driver : Browser.driver :=
  fun _ c =>
    match c with
    | Browser.execute_script_scrollTo _ => Some (DriverException "NoSuchWindowException")
    | _ => None
    end.

End ReplayVocabulary.

(** ** Parsed events and the store of an instance *)

Section ParsedVocabulary.
Import Py.
Local Open Scope list_scope.

Definition event_fields : list string :=
  ["name"; "dimension"; "scroll_top"; "mouse_position"; "time"; "page"].

Definition configured (slot : option string) : bool :=
  match slot with Some _ => true | None => false end.

Definition keys (d : dict) : list string := map fst d.

(** The keys of a parsed event: no key twice, none outside the six event
    fields; the name, the time and the page always, each of the three
    others exactly when the schema configures it. *)
Definition expected_keys (s : Schema.t) (pe : dict) : Prop :=
  NoDup (keys pe)
  /\ incl (keys pe) event_fields
  /\ dict_mem "name" pe = true
  /\ dict_mem "time" pe = true
  /\ dict_mem "page" pe = true
  /\ dict_mem "dimension" pe = configured (Schema.dimension_key s)
  /\ dict_mem "scroll_top" pe = configured (Schema.scroll_top_key s)
  /\ dict_mem "mouse_position" pe = configured (Schema.mouse_position_key s).

(** The schema of [example.py] without [dimension_key]. *)
Definition no_dimension_schema : Schema.t :=
  Schema.Build (Some "reproductive") None (Some "scrollTop")
    (Some "mousePosition") (Some "time") (Some "location") (Some "searchArgs").

(** What [nested_page_view] and [query_page_view] are normalised to with
    [example_schema]. *)
Definition parsed_pair : Events.stream :=
  [(1, [("name", Str "Page viewed"); ("dimension", List_ [Int 320; Int 480]);
        ("scroll_top", None_); ("mouse_position", None_);
        ("time", Int 100); ("page", Str "https://x/a")]);
   (2, [("name", Str "Page viewed"); ("dimension", None_);
        ("scroll_top", None_); ("mouse_position", None_);
        ("time", Int 100); ("page", Str "https://x/a?ref=1")])].

(** [l] with [new] written over it from position [i] on. *)
Definition overwrite {X} (i : nat) (new l : list X) : list X :=
  firstn i l ++ new ++ skipn (i + length new) l.

Definition numbered (l : list dict) : Events.stream :=
  combine (indices 0 (length l)) l.

(** The store of the instance holds entries numbered from 1, no more than
    there are records. *)
Definition consistent (self : Events.t) : Prop :=
  Events.inital_parser self = "mixpanel"%string
  /\ exists l,
       Events.parsed_events self = numbered l
       /\ (length l <= length (Events.events self))%nat.

Definition with_store (self : Events.t) (l : list dict) : Events.t :=
  Events.Build (Events.events self) (Events.inital_parser self)
    (Events.schema self) (numbered l).

(** The instance after [parse] was called with each of [schemas] in turn,
    whether the calls returned or raised. *)
Definition parse_all (schemas : list Schema.t) (self : Events.t) : Events.t :=
  fold_left (fun self s => fst (Events.parse s self)) schemas self.

End ParsedVocabulary.

(** ** Accepted query parameters *)

Section AcceptanceVocabulary.
Import Py.

Definition is_date (v : value) : bool :=
  match v with Str s => Text.DATE_REGEX_search s | _ => false end.

(** What the checks of [PARAMS_CHECKS] accept for one keyword argument, the
    other date being looked up in [kwargs]. *)
Definition valid_param (kwargs : dict) (item : string * value) : bool :=
  let (key, value) := item in
  if String.eqb key "from_date"
  then is_date value && truthy (get_or_none "to_date" kwargs)
  else if String.eqb key "to_date"
  then is_date value && truthy (get_or_none "from_date" kwargs)
  else if String.eqb key "limit" then isinstance_int value
  else if String.eqb key "event" then isinstance_list value
  else String.eqb key "where".

(** What [self.params] holds for a keyword argument. *)
Definition stored (item : string * value) : string * value :=
  let (key, value) := item in
  if String.eqb key "event" then (key, Str (Text.json_dumps value)) else item.

(** Keyword arguments like those of [example.py]. *)
Definition example_params : dict :=
  [("from_date", Str "2023-09-23"); ("to_date", Str "2023-09-23");
   ("where", Str "properties.plan == 1");
   ("event", List_ [Str "Page viewed"; Str "Button clicked"])].

End AcceptanceVocabulary.

(** ** Dates *)

Section DateVocabulary.
Local Open Scope nat_scope.

Definition digit_char (k : nat) : ascii := ascii_of_nat (48 + k).

(** [YYYY-MM-DD], every number zero-padded. *)
Definition iso_chars (y m d : nat) : list ascii :=
  [digit_char (y / 1000); digit_char (y / 100 mod 10); digit_char (y / 10 mod 10);
   digit_char (y mod 10); "-"%char;
   digit_char (m / 10); digit_char (m mod 10); "-"%char;
   digit_char (d / 10); digit_char (d mod 10)].

Definition iso_date (y m d : nat) : string := string_of_list_ascii (iso_chars y m d).

(** The dates the pattern is written for; the day is not checked against
    the month. *)
Definition date_in_range (y m d : nat) : Prop :=
  1900 <= y <= 2099 /\ 1 <= m <= 12 /\ 1 <= d <= 31.

End DateVocabulary.

(** ** The schedule of a replay *)

Section ScheduleVocabulary.
Import Py.
Local Open Scope list_scope.

(** What a run does, outcomes apart: it waits, and it asks the driver. *)
Inductive step : Type :=
| Wait (seconds : Z)
| Ask (c : Browser.command).

Definition step_of (a : Browser.action) : list step :=
  match a with
  | Browser.Sleep seconds => [Wait seconds]
  | Browser.Call c _ => [Ask c]
  | _ => []
  end.

(** The same, with what a custom handler performed. *)
Definition step_within (a : Browser.action) : list step :=
  match a with
  | Browser.Custom _ performed _ => flat_map step_of performed
  | _ => step_of a
  end.

Definition navigation_of (event : dict) (last_location : value)
  : list Browser.command :=
  if ne last_location (event_page event) then [Browser.get (event_page event)] else [].

Definition scroll_of (event : dict) : list Browser.command :=
  let pixels := get_or_none "scroll_top" event in
  if truthy pixels then [Browser.execute_script_scrollTo pixels] else [].

Definition click_of (event : dict) : list Browser.command :=
  let position := get_or_none "mouse_position" event in
  if truthy position
  then match getitem_int position 0, getitem_int position 1 with
       | Ok x, Ok y => [Browser.perform_click x y]
       | _, _ => []
       end
  else [].

(** The driver calls of one turn of the loop that are the loop's own: the
    navigation of the default handler, the scroll, the click. *)
Definition body_commands (exec : UserSimulation.execute_function_arg)
  (event : dict) (last_location : value) : list Browser.command :=
  (match exec with
   | UserSimulation.Callable _ => []
   | _ => navigation_of event last_location
   end) ++ scroll_of event ++ click_of event.

(** One turn of the loop: the sleep, then the driver calls. *)
Definition body_steps (static : option Z)
  (exec : UserSimulation.execute_function_arg)
  (event : dict) (last_timestamp last_location : value) : list step :=
  map Wait (body_delay static event last_timestamp last_location)
  ++ map Ask (body_commands exec event last_location).

(** The whole run: the turns of the events in order, the previous time of
    the first being its own time and its previous page [None]. *)
Definition schedule (static : option Z)
  (exec : UserSimulation.execute_function_arg) (self : UserSimulation.t)
  : list step :=
  loop_E (body_steps static exec) (UserSimulation.events self)
    (event_time (UserSimulation.first_event self)) None_.

(** A duration that [time.sleep] accepts. *)
Definition sleep_fits (seconds : Z) : bool :=
  (0 <=? seconds) && (seconds <=? Browser.max_sleep).

(** Following the spec: the suspend before every event, the fixed value
    under the fixed policy, the clamped difference of the recorded times
    otherwise. *)
Definition delays_of (static : option Z) (events : Events.stream) : list Z :=
  match static with
  | Some seconds => repeat seconds (length events)
  | None =>
      match times_of events with
      | Some times => recorded_delays times
      | None => []
      end
  end.

(** Following the spec: one turn per event, the suspend first, then the
    driver calls of that event; the previous page of a turn is the page of
    the event before. *)
Fixpoint turns (exec : UserSimulation.execute_function_arg)
  (previous_page : value) (delays : list Z) (events : Events.stream)
  : list (list step) :=
  match delays, events with
  | delay :: delays', (_, event) :: rest =>
      (Wait delay :: map Ask (body_commands exec event previous_page))
      :: turns exec (event_page event) delays' rest
  | _, _ => []
  end.

End ScheduleVocabulary.

(** ** The authorization header *)

Section CodecVocabulary.
Import Bytes.
Local Open Scope nat_scope.
Local Open Scope list_scope.

(** The position of a character in the alphabet. *)
Fixpoint index_from (i : nat) (b : Byte.byte) (s : string) : nat :=
  match s with
  | EmptyString => i
  | String c rest =>
      if Ascii.eqb c (ascii_of_byte b) then i else index_from (S i) b rest
  end.

Definition sextet_index (b : Byte.byte) : nat := index_from 0 b alphabet.

Definition is_pad (b : Byte.byte) : bool := Ascii.eqb (ascii_of_byte b) "=".

(** Reading base64 back, as the receiver of the header does: every group of
    four characters gives three bytes, a padded group one or two. *)
Fixpoint b64decode (s : list Byte.byte) : list Byte.byte :=
  match s with
  | c1 :: c2 :: c3 :: c4 :: rest =>
      let s1 := sextet_index c1 in
      let s2 := sextet_index c2 in
      let s3 := sextet_index c3 in
      let s4 := sextet_index c4 in
      if is_pad c3 then [byte_of_nat (s1 * 4 + s2 / 16)]
      else if is_pad c4
      then [byte_of_nat (s1 * 4 + s2 / 16); byte_of_nat (s2 mod 16 * 16 + s3 / 4)]
      else [byte_of_nat (s1 * 4 + s2 / 16); byte_of_nat (s2 mod 16 * 16 + s3 / 4);
            byte_of_nat (s3 mod 4 * 64 + s4)]
           ++ b64decode rest
  | _ => []
  end.

(** The text whose code points are the bytes. *)
Definition text_of (bs : list Byte.byte) : string :=
  string_of_list_ascii (map ascii_of_byte bs).

(** What the header stands for: the user name, a colon, the secret. *)
Definition credentials (self : MixpanelParser.t) : string :=
  (Text.str (MixpanelParser.service_account_username self) ++ ":"
   ++ Text.str (MixpanelParser.service_account_secret self))%string.

End CodecVocabulary.

(** ** The lines of a response *)

(** No line boundary of [str.splitlines] occurs in [s]. *)
Fixpoint one_line (s : string) : bool :=
  match s with
  | EmptyString => true
  | String c rest => negb (Text.linebreak c) && one_line rest
  end.

(** The lines, each ended by LF. *)
Definition jsonl (lines : list string) : string :=
  String.concat EmptyString (map (fun line => line ++ Text.chr "010") lines).

(* ===================================================================== *)
(** * Properties of [Schema]                                              *)
(* ===================================================================== *)

Section SchemaFacts.

Import Py.

(** Construction looks at truth values, not at [None]: it succeeds exactly
    when some attribute is a non-empty string, and then returns the record
    of its arguments. *)
Lemma Schema_init_spec (r d s m t p q : option string) :
  Schema.__init__ r d s m t p q =
  if existsb truthy_opt [r; d; s; m; t; p; q]
  then Ok (Schema.Build r d s m t p q)
  else Raise (ValueError "All arguments cannot be None").
Proof.
  unfold Schema.__init__, Schema.__dict__; cbn -[truthy_opt].
  destruct (truthy_opt r), (truthy_opt d), (truthy_opt s), (truthy_opt m),
    (truthy_opt t), (truthy_opt p), (truthy_opt q); reflexivity.
Qed.

(** C7 (failing input).  [Schema(dimension_key='')] has a slot that is set,
    and construction raises the [ValueError] all the same: the test is
    [not value], which the empty string satisfies, where the docstring
    promises the error only when all arguments are [None].  In general
    construction succeeds exactly when some slot is a non-empty string. *)
Theorem Schema_init_rejects_empty_string_slot :
  Schema.dimension_key
    (Schema.Build None (Some EmptyString) None None None None None) <> None /\
  Schema.__init__ None (Some EmptyString) None None None None None
    = Raise (ValueError "All arguments cannot be None") /\
  forall r d s m t p q,
    Schema.__init__ r d s m t p q =
    if existsb truthy_opt [r; d; s; m; t; p; q]
    then Ok (Schema.Build r d s m t p q)
    else Raise (ValueError "All arguments cannot be None").
Proof.
  split; [discriminate |]. split; [reflexivity |]. apply Schema_init_spec.
Qed.

(** With every slot [None] construction raises, as the docstring says. *)
Lemma Schema_init_all_none :
  Schema.__init__ None None None None None None None
  = Raise (ValueError "All arguments cannot be None").
Proof. reflexivity. Qed.

(** A slot holding a non-empty key is enough for construction to succeed. *)
Lemma Schema_init_ok (r d s m t p q : option string) :
  existsb truthy_opt [r; d; s; m; t; p; q] = true ->
  Schema.__init__ r d s m t p q = Ok (Schema.Build r d s m t p q).
Proof. intros H. rewrite Schema_init_spec, H. reflexivity. Qed.

Lemma return_schema_eq (self : Schema.t) :
  Schema.return_schema self =
  match Schema.reproductive_data_key self with
  | Some _ => Ok (active_fields self)
  | None => Raise (KeyError "reproductive_data_key")
  end.
Proof.
  destruct self as [r d s m t p q].
  unfold Schema.return_schema, active_fields, Schema.__dict__; cbn.
  destruct r; [reflexivity |].
  destruct d, s, m, t, p, q; reflexivity.
Qed.

(** The active fields never hold the key [reproductive_data_key]. *)
Lemma active_fields_no_reproductive (self : Schema.t) :
  dict_get "reproductive_data_key" (active_fields self) = None.
Proof.
  destruct self as [r d s m t p q]. unfold active_fields; cbn.
  destruct d, s, m, t, p, q; reflexivity.
Qed.

(** C4 (what the code does).  [return_schema] returns the active fields,
    without [reproductive_data_key], when that key is configured, and
    raises [KeyError] when it is not: the [pop] has no default and the
    comprehension has already left the key out.  So it raises on the valid
    schema that sets [dimension_key] only. *)
Theorem return_schema_spec (self : Schema.t) :
  Schema.return_schema self =
  match Schema.reproductive_data_key self with
  | Some _ => Ok (active_fields self)
  | None => Raise (KeyError "reproductive_data_key")
  end /\
  dict_get "reproductive_data_key" (active_fields self) = None /\
  Schema.__init__ None (Some "dimension") None None None None None
    = Ok (Schema.Build None (Some "dimension") None None None None None) /\
  Schema.return_schema
    (Schema.Build None (Some "dimension") None None None None None)
    = Raise (KeyError "reproductive_data_key").
Proof.
  split; [apply return_schema_eq |].
  split; [apply active_fields_no_reproductive |].
  split; reflexivity.
Qed.

End SchemaFacts.

(* ===================================================================== *)
(** * Properties of [Events]: one record, then the whole list             *)
(* ===================================================================== *)

Section AssocFacts.

Import Py.

Context {V : Type}.
Implicit Types (d : list (string * V)) (k q : string) (v : V).

Lemma dict_get_set_same k v d :
  dict_get k (dict_set k v d) = Some v.
Proof.
  unfold dict_get, dict_set.
  induction d as [| [k' v'] d IH]; cbn.
  - rewrite String.eqb_refl. reflexivity.
  - destruct (String.eqb k k') eqn:E; cbn; rewrite ?String.eqb_refl, ?E; auto.
Qed.

Lemma dict_get_set_other q k v d :
  q <> k -> dict_get q (dict_set k v d) = dict_get q d.
Proof.
  intros Hne. unfold dict_get, dict_set.
  assert (Hqk : String.eqb q k = false) by (apply String.eqb_neq; exact Hne).
  induction d as [| [k' v'] d IH]; cbn.
  - rewrite Hqk. reflexivity.
  - destruct (String.eqb k k') eqn:E; cbn.
    + apply String.eqb_eq in E; subst k'. rewrite Hqk. reflexivity.
    + rewrite IH. reflexivity.
Qed.

Lemma dict_mem_set q k v d :
  dict_mem q (dict_set k v d) = String.eqb q k || dict_mem q d.
Proof.
  unfold dict_mem, assoc_mem. fold (dict_get q (dict_set k v d)) (dict_get q d).
  destruct (String.eqb q k) eqn:E.
  - apply String.eqb_eq in E; subst q. rewrite dict_get_set_same. reflexivity.
  - apply String.eqb_neq in E. rewrite dict_get_set_other by exact E. reflexivity.
Qed.

End AssocFacts.

Section StreamFacts.

Import Py.

Context {V : Type}.
Implicit Types (st : list (Z * V)) (v : V).

Lemma assoc_set_set n v v' st :
  assoc_set Z.eqb n v' (assoc_set Z.eqb n v st) = assoc_set Z.eqb n v' st.
Proof.
  induction st as [| [k w] st IH]; cbn.
  - rewrite Z.eqb_refl. reflexivity.
  - destruct (Z.eqb n k) eqn:E; cbn; rewrite ?Z.eqb_refl, ?E, ?IH; auto.
Qed.

(** A key larger than every key present goes to the end. *)
Lemma assoc_set_fresh n v st :
  Forall (fun kv => fst kv < n) st ->
  assoc_set Z.eqb n v st = (st ++ [(n, v)])%list.
Proof.
  induction 1 as [| [k w] st Hk _ IH]; cbn; [reflexivity |].
  cbn in Hk. destruct (Z.eqb_spec n k); [lia |]. rewrite IH. reflexivity.
Qed.

End StreamFacts.

Section EventsFacts.

Import Py.

Lemma store_store n a b self :
  Events.store n b (Events.store n a self) = Events.store n b self.
Proof.
  unfold Events.store; cbn. rewrite assoc_set_set. reflexivity.
Qed.

Lemma loop_body_canonical (event : value) (n : Z) (self : Events.t) (s : Schema.t) :
  Events.schema self = Some s ->
  match canonical_event s event with
  | Ok parsed_event =>
      Events.loop_body event n self
      = (Events.store (n + 1) parsed_event self, Ok (n + 1))
  | Raise e =>
      exists self',
        Events.loop_body event n self = (self', Raise e)
        /\ Events.schema self' = Some s
  end.
Proof.
  intros Hs.
  unfold canonical_event, Events.loop_body, mbind, lift, read, modify, ret, Events.self_schema.
  rewrite Hs. cbn [bind].
  destruct (getitem event "properties") as [properties | e]; cbn [bind]; [| eauto].
  destruct (getitem event "event") as [name | e]; cbn [bind]; [| eauto].
  destruct (Schema.return_schema s) as [schema | e]; cbn [bind]; [| eauto].
  destruct (method_get properties (Schema.reproductive_data_key s))
    as [reproductive | e] eqn:Hr; cbn [bind]; [| eauto].
  assert (Hp : exists props, properties = Dict props).
  { destruct properties; try discriminate Hr. eauto. }
  destruct Hp as [props ->].
  cbn [method_get bind].
  set (query := match dict_get "query_key" schema with
                | Some k => get_or_none k props | None => None_ end).
  set (page := match dict_get "page_key" schema with
               | Some k => get_or_none k props | None => None_ end).
  set (time := match dict_get "time_key" schema with
               | Some k => get_or_none k props | None => None_ end).
  destruct (truthy reproductive) eqn:Ht; cbn [bind negb orb andb].
  - destruct (Events.fill reproductive schema [("name", name)])
      as [pe | e]; cbn [bind]; [| eauto].
    unfold dict_item. rewrite !dict_get_set_same.
    destruct (truthy_opt (dict_get "query_key" schema)); cbn [andb bind].
    + destruct (truthy query); cbn [bind].
      * destruct (add page query) as [page' | e]; cbn [bind]; [| eauto].
        destruct (dict_pop "query" (dict_set "page" page' _)) as [pe' | e]; [| eauto].
        rewrite store_store. reflexivity.
      * destruct (dict_pop "query" (dict_set "page" page _)) as [pe' | e]; [| eauto].
        rewrite store_store. reflexivity.
    + destruct (dict_pop "query" (dict_set "page" page _)) as [pe' | e]; [| eauto].
      rewrite store_store. reflexivity.
  - destruct (Events.fill (Dict props) schema [("name", name)])
      as [pe | e]; cbn [bind]; [| eauto].
    unfold dict_item. rewrite !dict_get_set_same.
    destruct (truthy_opt (dict_get "query_key" schema)); cbn [andb bind].
    + destruct (add page query) as [page' | e]; cbn [bind]; [| eauto].
      destruct (dict_pop "query" (dict_set "page" page' _)) as [pe' | e]; [| eauto].
      reflexivity.
    + destruct (dict_pop "query" (dict_set "page" page _)) as [pe' | e]; [| eauto].
      reflexivity.
Qed.

Lemma traverse_length {A B} (f : A -> result B) l bs :
  traverse f l = Ok bs -> length bs = length l.
Proof.
  revert bs; induction l as [| a l IH]; cbn; intros bs H.
  - injection H as <-. reflexivity.
  - destruct (f a); cbn in H; [| discriminate].
    destruct (traverse f l); cbn in H; [| discriminate].
    injection H as <-. cbn. f_equal. apply IH. reflexivity.
Qed.

Lemma loop_traverse (events : list value) (s : Schema.t) :
  forall (n : Z) (self : Events.t),
  Events.schema self = Some s ->
  match traverse (canonical_event s) events with
  | Ok pes =>
      Events.loop events n self
      = (store_all (combine (indices n (length events)) pes) self, Ok tt)
  | Raise e => exists self', Events.loop events n self = (self', Raise e)
  end.
Proof.
  induction events as [| event rest IH]; intros n self Hs; cbn.
  - reflexivity.
  - unfold mbind.
    pose proof (loop_body_canonical event n self s Hs) as Hb.
    destruct (canonical_event s event) as [pe | e]; cbn [bind].
    + rewrite Hb.
      specialize (IH (n + 1) (Events.store (n + 1) pe self) Hs).
      destruct (traverse (canonical_event s) rest) as [pes | e]; cbn [bind].
      * rewrite IH. reflexivity.
      * exact IH.
    + destruct Hb as (self' & -> & _). eauto.
Qed.

Lemma store_all_fresh (pes : list dict) :
  forall (n : Z) (self : Events.t),
  Forall (fun kv => fst kv <= n) (Events.parsed_events self) ->
  Events.parsed_events (store_all (combine (indices n (length pes)) pes) self)
  = (Events.parsed_events self ++ combine (indices n (length pes)) pes)%list.
Proof.
  induction pes as [| pe pes IH]; intros n self Hle; cbn.
  - rewrite app_nil_r. reflexivity.
  - unfold store_all in *. rewrite IH.
    + cbn. rewrite assoc_set_fresh.
      * rewrite <- app_assoc. reflexivity.
      * eapply Forall_impl; [| exact Hle]. cbn; intros; lia.
    + cbn. rewrite assoc_set_fresh.
      * apply Forall_app; split.
        -- eapply Forall_impl; [| exact Hle]. cbn; intros; lia.
        -- constructor; [cbn; lia | constructor].
      * eapply Forall_impl; [| exact Hle]. cbn; intros; lia.
Qed.

(** [Events(events).parse(schema)] raises what the first failing record
    raises, and otherwise returns the canonical events numbered from 1. *)
Theorem run_parse_spec (events : list value) (s : Schema.t) :
  Events.run_parse events s =
  match traverse (canonical_event s) events with
  | Ok pes => Ok (combine (indices 0 (length events)) pes)
  | Raise e => Raise e
  end.
Proof.
  unfold Events.run_parse; cbn.
  unfold Events.parse, Events.__perfom_parsing, mbind, modify, read; cbn.
  unfold Events.__mixpanel_inital_parser, mbind, read, ret; cbn.
  unfold Events.set_schema; cbn.
  pose proof (loop_traverse events s 0
                (Events.Build events "mixpanel" (Some s) []) eq_refl) as H.
  destruct (traverse (canonical_event s) events) as [pes | e] eqn:Ht.
  - rewrite H. cbn.
    rewrite <- (traverse_length _ _ _ Ht).
    rewrite store_all_fresh by constructor. reflexivity.
  - destruct H as [self' ->]. reflexivity.
Qed.

(** ** The active fields of a schema *)

Lemma active_get_time_key s : dict_get "time_key" (active_fields s) = Schema.time_key s.
Proof. destruct s as [r d sc m t p q]; unfold active_fields; cbn. destruct d, sc, m, t, p, q; reflexivity. Qed.
Lemma active_get_page_key s : dict_get "page_key" (active_fields s) = Schema.page_key s.
Proof. destruct s as [r d sc m t p q]; unfold active_fields; cbn. destruct d, sc, m, t, p, q; reflexivity. Qed.
Lemma active_get_query_key s : dict_get "query_key" (active_fields s) = Schema.query_key s.
Proof. destruct s as [r d sc m t p q]; unfold active_fields; cbn. destruct d, sc, m, t, p, q; reflexivity. Qed.

Lemma fill_on_dict c schema : forall pe,
  Events.fill (Dict c) schema pe = Ok (fill_dict c schema pe).
Proof.
  induction schema as [| [k v] schema IH]; intros pe; cbn; [reflexivity |].
  rewrite IH. reflexivity.
Qed.

Lemma fill_mem q container schema : forall pe pe',
  Events.fill container schema pe = Ok pe' ->
  dict_mem q pe' = existsb (fun kv => String.eqb q (Events.replace_key (fst kv))) schema || dict_mem q pe.
Proof.
  induction schema as [| [k v] schema IH]; intros pe pe' H; cbn in *.
  - injection H as <-. reflexivity.
  - destruct (method_get container (Some v)) as [x | e]; cbn in H; [| discriminate].
    rewrite (IH _ _ H), dict_mem_set.
    destruct (String.eqb q (Events.replace_key k)), (existsb _ schema); reflexivity.
Qed.

Lemma active_fields_query s :
  existsb (fun kv => String.eqb "query" (Events.replace_key (fst kv))) (active_fields s)
  = match Schema.query_key s with Some _ => true | None => false end.
Proof. destruct s as [r d sc m t p q]; unfold active_fields; cbn. destruct d, sc, m, t, p, q; reflexivity. Qed.

Lemma method_get_raises obj k e : method_get obj k = Raise e -> e = AttributeError /\ is_mapping obj = false.
Proof. destruct obj; cbn; try discriminate; intros [= <-]; auto. Qed.

Lemma fill_raises container schema : forall pe e,
  Events.fill container schema pe = Raise e -> e = AttributeError /\ is_mapping container = false.
Proof.
  induction schema as [| [k v] schema IH]; intros pe e H; cbn in *; [discriminate |].
  destruct (method_get container (Some v)) as [x | e'] eqn:E; cbn in H.
  - eauto.
  - injection H as <-. eapply method_get_raises; eauto.
Qed.

Lemma canonical_event_without_query_key s event :
  Schema.query_key s = None ->
  exists e, canonical_event s event = Raise e
    /\ raises_one_of e
    /\ (well_shaped s event = true -> e = KeyError (missing_key s)).
Proof.
  intros Hq. unfold canonical_event, raises_one_of, missing_key.
  destruct event as [| | | | | d];
    try (exists TypeError; split; [reflexivity | split; [auto | discriminate]]).
  cbn [getitem well_shaped]. unfold dict_item.
  destruct (dict_get "properties" d) as [properties |]; cbn [bind].
  2: { eexists; split; [reflexivity | split; [eauto | discriminate]]. }
  destruct (dict_get "event" d) as [name |]; cbn [bind].
  2: { eexists; split; [reflexivity | split; [eauto |]].
       destruct properties; discriminate. }
  rewrite return_schema_eq. unfold nested_value.
  destruct (Schema.reproductive_data_key s) as [r |] eqn:Hr; cbn [bind]; [| eauto 8].
  destruct properties as [| | | | | props]; cbn [method_get bind];
    try (exists AttributeError; split; [reflexivity | split; [auto | discriminate]]).
  set (nested := get_or_none r props).
  rewrite active_get_time_key, active_get_page_key, active_get_query_key, Hq.
  cbn [truthy_opt andb bind].
  destruct (Events.fill (if truthy nested then nested else Dict props)
              (active_fields s) [("name", name)])
    as [pe | e] eqn:Hf; cbn [bind].
  - exists (KeyError "query"). split; [| eauto 6].
    unfold dict_pop.
    rewrite !dict_mem_set, (fill_mem _ _ _ _ _ Hf), active_fields_query, Hq.
    reflexivity.
  - exists e. split; [reflexivity |].
    destruct (fill_raises _ _ _ _ Hf) as [-> Hm]. split; [auto |].
    destruct (truthy nested); cbn; [| discriminate Hm]. rewrite Hm. discriminate.
Qed.

Lemma fill_not_mapping container schema pe :
  is_mapping container = false ->
  Events.fill container schema pe
  = match schema with [] => Ok pe | _ => Raise AttributeError end.
Proof.
  intros H. destruct schema as [| [k v] schema]; [reflexivity |].
  cbn [Events.fill]. destruct container; try discriminate H; reflexivity.
Qed.

Lemma canonical_event_failure s event :
  Schema.query_key s = None ->
  canonical_event s event = Raise (failure_without_query_key s event).
Proof.
  intros Hq. unfold canonical_event, failure_without_query_key.
  destruct event as [| | | | | d]; try reflexivity.
  cbn [getitem]. unfold dict_item.
  destruct (dict_get "properties" d) as [properties |]; cbn [bind]; [| reflexivity].
  destruct (dict_get "event" d) as [name |]; cbn [bind]; [| reflexivity].
  rewrite return_schema_eq. unfold nested_value, no_field.
  destruct (Schema.reproductive_data_key s) as [r |] eqn:Hr; cbn [bind]; [| reflexivity].
  destruct properties as [| | | | | props]; cbn [method_get bind]; try reflexivity.
  set (nested := get_or_none r props).
  rewrite active_get_time_key, active_get_page_key, active_get_query_key, Hq.
  cbn [truthy_opt andb bind].
  assert (Hpop : forall container pe time page,
    Events.fill container (active_fields s) [("name", name)] = Ok pe ->
    dict_pop "query" (dict_set "page" page (dict_set "time" time pe))
    = Raise (KeyError "query")).
  { intros container pe time page Hf. unfold dict_pop.
    rewrite !dict_mem_set, (fill_mem _ _ _ _ _ Hf), active_fields_query, Hq.
    reflexivity. }
  destruct (truthy nested) eqn:Htr; cbn [andb].
  - destruct (is_mapping nested) eqn:Hm; cbn [negb andb].
    + destruct nested as [| | | | | c]; try discriminate Hm.
      rewrite fill_on_dict. cbn [bind]. eapply Hpop. apply fill_on_dict.
    + pose proof (fill_not_mapping nested (active_fields s) [("name", name)] Hm) as Hf.
      rewrite Hf.
      destruct (active_fields s) as [| kv fields]; cbn [bind negb].
      * eapply Hpop. exact Hf.
      * reflexivity.
  - rewrite fill_on_dict. cbn [bind]. eapply Hpop. apply fill_on_dict.
Qed.

Lemma canonical_event_fields s event pe :
  canonical_event s event = Ok pe ->
  exists props name,
    getitem event "properties" = Ok (Dict props) /\
    getitem event "event" = Ok name /\
    dict_get "name" pe = Some name /\
    fields_read s props pe.
Proof.
  unfold canonical_event. intros H.
  destruct event as [| | | | | d]; try discriminate H.
  cbn [getitem] in *. unfold dict_item in *.
  destruct (dict_get "properties" d) as [properties |]; cbn [bind] in H; [| discriminate].
  destruct (dict_get "event" d) as [name |]; cbn [bind] in H; [| discriminate].
  rewrite return_schema_eq in H.
  destruct (Schema.reproductive_data_key s) as [r |] eqn:Hr; cbn [bind] in H; [| discriminate].
  destruct properties as [| | | | | props]; try discriminate H.
  exists props, name. split; [reflexivity |]. split; [reflexivity |].
  cbn [method_get bind] in H.
  rewrite active_get_time_key, active_get_page_key, active_get_query_key in H.
  unfold fields_read, resolved_page, source_container, nested_value. rewrite Hr.
  set (nested := get_or_none r props) in *.
  assert (Hc : exists c, (if truthy nested then nested else Dict props) = Dict c).
  { destruct (truthy nested); [| eauto]. destruct nested; eauto.
    all: exfalso; destruct s as [r0 d0 sc m t p q]; unfold active_fields in H; cbn in H;
      destruct d0, sc, m, t, p, q; cbn in H; discriminate H. }
  destruct Hc as [c Hc]. rewrite Hc in *. rewrite fill_on_dict in H. cbn [bind] in H.
  cbn [read_from].
  destruct s as [r0 d0 sc m t p q]; unfold active_fields in H; cbn in Hr; cbn [Schema.dimension_key Schema.scroll_top_key Schema.mouse_position_key Schema.time_key Schema.page_key Schema.query_key] in *.
  destruct q as [q |].
  2: { exfalso. destruct d0, sc, m, t, p; cbn in H; discriminate H. }
  set (pagev := match p with Some k => get_or_none k props | None => None_ end) in *.
  set (timev := match t with Some k => get_or_none k props | None => None_ end) in *.
  set (queryv := get_or_none q props) in *.
  destruct (truthy_opt (Some q) && (negb (truthy nested) || truthy queryv)).
  - destruct (add pagev queryv) as [page' |]; cbn [bind] in H; [| discriminate].
    clearbody pagev timev queryv nested.
    destruct d0, sc, m, t, p; cbn in H; injection H as <-;
      cbn; (repeat split); try (intros k [= ->]; reflexivity); try discriminate;
      eexists; split; reflexivity.
  - cbn [bind] in H.
    clearbody pagev timev queryv nested.
    destruct d0, sc, m, t, p; cbn in H; injection H as <-;
      cbn; (repeat split); try (intros k [= ->]; reflexivity); try discriminate;
      eexists; split; reflexivity.
Qed.

Lemma traverse_nth {A B} (f : A -> result B) l : forall bs i a,
  traverse f l = Ok bs -> nth_error l i = Some a ->
  exists b, f a = Ok b /\ nth_error bs i = Some b.
Proof.
  induction l as [| x l IH]; intros bs i a H Hn.
  - destruct i; discriminate Hn.
  - cbn in H. destruct (f x) as [b |] eqn:Hx; cbn in H; [| discriminate].
    destruct (traverse f l) as [bs' |]; cbn in H; [| discriminate].
    injection H as <-. destruct i as [| i]; cbn in *.
    + injection Hn as <-. eauto.
    + eapply IH; eauto.
Qed.

Lemma length_indices len : forall start, length (indices start len) = len.
Proof. induction len as [| len IH]; intros start; cbn; [| rewrite IH]; reflexivity. Qed.

Lemma map_fst_combine_indices {B} (bs : list B) : forall start,
  map fst (combine (indices start (length bs)) bs) = indices start (length bs).
Proof.
  induction bs as [| b bs IH]; intros start; cbn; [reflexivity |].
  rewrite IH. reflexivity.
Qed.

Lemma nth_combine_indices {B} (bs : list B) : forall start i b,
  nth_error bs i = Some b ->
  nth_error (combine (indices start (length bs)) bs) i
  = Some (start + Z.of_nat i + 1, b).
Proof.
  induction bs as [| x bs IH]; intros start i b Hn.
  - destruct i; discriminate Hn.
  - destruct i as [| i]; cbn [length indices combine nth_error] in *.
    + injection Hn as <-. do 2 f_equal. lia.
    + rewrite (IH (start + 1) i b Hn). do 2 f_equal. lia.
Qed.

Lemma get_combine_indices {B} (bs : list B) : forall start i b,
  nth_error bs i = Some b ->
  assoc_get Z.eqb (start + Z.of_nat i + 1) (combine (indices start (length bs)) bs)
  = Some b.
Proof.
  induction bs as [| x bs IH]; intros start i b Hn.
  - destruct i; discriminate Hn.
  - destruct i as [| i]; cbn [length indices combine assoc_get nth_error] in *.
    + injection Hn as <-.
      replace (start + Z.of_nat 0 + 1) with (start + 1) by lia.
      rewrite Z.eqb_refl. reflexivity.
    + destruct (Z.eqb_spec (start + Z.of_nat (S i) + 1) (start + 1)); [lia |].
      replace (start + Z.of_nat (S i) + 1) with (start + 1 + Z.of_nat i + 1) by lia.
      apply IH. exact Hn.
Qed.

(** Whenever normalisation completes, the stream has one entry per record,
    its keys are [1 .. N] in order, and entry [i + 1] is the canonical event
    of record [i]. *)
Theorem parse_ok_stream (events : list value) (s : Schema.t) (st : Events.stream) :
  Events.run_parse events s = Ok st ->
  length st = length events /\
  map fst st = indices 0 (length events) /\
  forall i event,
    nth_error events i = Some event ->
    exists pe,
      canonical_event s event = Ok pe
      /\ nth_error st i = Some (Z.of_nat i + 1, pe)
      /\ assoc_get Z.eqb (Z.of_nat i + 1) st = Some pe.
Proof.
  rewrite run_parse_spec.
  destruct (traverse (canonical_event s) events) as [pes |] eqn:Ht; [| discriminate].
  intros [= <-]. pose proof (traverse_length _ _ _ Ht) as Hlen.
  rewrite <- Hlen. split; [| split].
  - rewrite length_combine, length_indices. apply Nat.min_id.
  - apply map_fst_combine_indices.
  - intros i event Hn.
    destruct (traverse_nth _ _ _ _ _ Ht Hn) as (pe & Hpe & Hi).
    exists pe. split; [exact Hpe |]. split.
    + apply (nth_combine_indices pes 0 i pe Hi).
    + apply (get_combine_indices pes 0 i pe Hi).
Qed.

(** C2 (amended).  In a stream that normalisation returns, the entry of
    every record reads [dimension], [scroll_top] and [mouse_position] from
    the nested container when the value under [reproductive_data_key] is
    truthy, and from the top-level properties otherwise; [time] and [page]
    (with the query value appended) are read from the top-level properties
    in both branches. *)
Theorem parse_field_sources (events : list value) (s : Schema.t) (st : Events.stream) :
  Events.run_parse events s = Ok st ->
  forall i event,
    nth_error events i = Some event ->
    exists props pe,
      getitem event "properties" = Ok (Dict props)
      /\ nth_error st i = Some (Z.of_nat i + 1, pe)
      /\ fields_read s props pe.
Proof.
  intros H i event Hn.
  destruct (parse_ok_stream events s st H) as (_ & _ & Hall).
  destruct (Hall i event Hn) as (pe & Hpe & Hi & _).
  destruct (canonical_event_fields s event pe Hpe) as (props & name & Hp & _ & _ & Hf).
  eauto.
Qed.

(** ** The claims on concrete schemas and records *)

(** C1 (failing input).  With the schema of the [__main__] block of
    [parsers/mixpanel.py], which sets no [query_key], a single page view is
    not normalised into a stream of one entry: the unconditional
    [parsed_event.pop('query')] raises [KeyError], in both branches. *)
Theorem parse_mixpanel_main_schema_raises :
  Schema.__init__ (Some "reproductive") (Some "dimension") (Some "scrollTop")
    (Some "mousePosition") (Some "time") (Some "location") None
    = Ok mixpanel_main_schema /\
  Events.run_parse [nested_page_view] mixpanel_main_schema
    = Raise (KeyError "query") /\
  Events.run_parse [plain_page_view] mixpanel_main_schema
    = Raise (KeyError "query").
Proof. repeat split. Qed.

(** C10 (amended).  When [query_key] is not configured, normalising a
    non-empty list of records never completes: the first record raises
    exactly [failure_without_query_key].  That is the [KeyError] of the
    failing [pop] of ['query'] unless the record fails earlier: with
    [TypeError] when it is not a mapping, with the [KeyError] of
    ['properties'] or ['event'] when it lacks that key, with the [KeyError]
    of ['reproductive_data_key'] in [return_schema] when that key is not
    configured, with [AttributeError] when [properties] is not a mapping
    or when the nested value is truthy, not a mapping, and some field is
    read from it.  So the exception is a [TypeError], an [AttributeError]
    or a [KeyError], and on a well-shaped first record the [KeyError] of
    the failing [pop].  The empty list is normalised to the empty
    stream. *)
Theorem parse_without_query_key (s : Schema.t) :
  Schema.query_key s = None ->
  Events.run_parse [] s = Ok [] /\
  forall event rest,
    Events.run_parse (event :: rest) s
    = Raise (failure_without_query_key s event)
    /\ raises_one_of (failure_without_query_key s event)
    /\ (well_shaped s event = true ->
        failure_without_query_key s event = KeyError (missing_key s)).
Proof.
  intros Hq. split; [reflexivity |].
  intros event rest. rewrite run_parse_spec. cbn [traverse].
  destruct (canonical_event_without_query_key s event Hq) as (e & He & Hone & Hwell).
  rewrite (canonical_event_failure s event Hq) in He |- *.
  injection He as <-. split; [reflexivity |]. split; assumption.
Qed.

Lemma parse_without_query_key_witness :
  Events.run_parse [] mixpanel_main_schema = Ok [] /\
  forall event rest,
    Events.run_parse (event :: rest) mixpanel_main_schema
    = Raise (failure_without_query_key mixpanel_main_schema event)
    /\ raises_one_of (failure_without_query_key mixpanel_main_schema event)
    /\ (well_shaped mixpanel_main_schema event = true ->
        failure_without_query_key mixpanel_main_schema event
        = KeyError (missing_key mixpanel_main_schema)).
Proof. exact (parse_without_query_key mixpanel_main_schema eq_refl). Defined.

(** The exception of a first record, case by case, with the schema of the
    [__main__] block of [parsers/mixpanel.py], with a schema that
    configures [reproductive_data_key] only, and with one that does not
    configure it. *)
Example failures_without_query_key :
  Events.run_parse [Str "record"] mixpanel_main_schema = Raise TypeError /\
  Events.run_parse [Dict [("event", Str "Page viewed")]] mixpanel_main_schema
    = Raise (KeyError "properties") /\
  Events.run_parse [Dict [("properties", Dict [])]] mixpanel_main_schema
    = Raise (KeyError "event") /\
  Events.run_parse [Dict [("event", Str "Page viewed"); ("properties", Str "p")]]
    mixpanel_main_schema = Raise AttributeError /\
  Events.run_parse [string_nested_record] mixpanel_main_schema
    = Raise AttributeError /\
  Events.run_parse [string_nested_record]
    (Schema.Build (Some "reproductive") None None None None None None)
    = Raise (KeyError "query") /\
  Events.run_parse [Dict [("event", Str "Page viewed"); ("properties", Str "p")]]
    (Schema.Build None (Some "dimension") None None None None None)
    = Raise (KeyError "reproductive_data_key") /\
  Events.run_parse [plain_page_view] mixpanel_main_schema
    = Raise (KeyError "query").
Proof. repeat split. Qed.

(** C10 (counterexample).  The nested value is a non-empty string: the
    branch of the nested container calls [.get] on it and the exception is
    [AttributeError], not [KeyError]. *)
Lemma parse_without_query_key_AttributeError :
  Schema.query_key mixpanel_main_schema = None /\
  [string_nested_record] <> [] /\
  Events.run_parse [string_nested_record] mixpanel_main_schema
    = Raise AttributeError /\
  forall k,
    Events.run_parse [string_nested_record] mixpanel_main_schema
    <> Raise (KeyError k).
Proof. repeat split; discriminate. Qed.

(** C2 (counterexample).  The nested container is present and not empty and
    holds a time and a page, yet the parsed event has the top-level time
    and the top-level page. *)
Lemma nested_container_not_read_for_time_and_page :
  exists pe,
    Events.run_parse [record conflicting_properties] example_schema
      = Ok [(1, pe)]
    /\ nested_value example_schema conflicting_properties
       = Dict conflicting_nested
    /\ truthy (Dict conflicting_nested) = true
    /\ read_from (Dict conflicting_nested) (Some "time") = Int 7
    /\ dict_get "time" pe = Some (Int 100)
    /\ read_from (Dict conflicting_nested) (Some "location")
       = Str "https://x/nested"
    /\ dict_get "page" pe = Some (Str "https://x/top?top=1").
Proof. eexists. repeat split. Qed.

Lemma parse_field_sources_witness :
  exists props pe,
    getitem (record conflicting_properties) "properties" = Ok (Dict props)
    /\ nth_error
         [(1, [("name", Str "Page viewed");
               ("dimension", List_ [Int 3; Int 4]);
               ("scroll_top", None_); ("mouse_position", None_);
               ("time", Int 100); ("page", Str "https://x/top?top=1")])]
         0
       = Some (Z.of_nat 0 + 1, pe)
    /\ fields_read example_schema props pe.
Proof.
  exact (parse_field_sources [record conflicting_properties] example_schema _
           eq_refl 0%nat (record conflicting_properties) eq_refl).
Defined.

(** On the crafted record the two branches give different results: with
    the nested container the dimension is the nested one, without it the
    top-level one. *)
Lemma nested_and_top_level_differ :
  exists pe1 pe2,
    Events.run_parse [record conflicting_properties] example_schema
      = Ok [(1, pe1)]
    /\ Events.run_parse [record conflicting_top_only] example_schema
       = Ok [(1, pe2)]
    /\ dict_get "dimension" pe1 = Some (List_ [Int 3; Int 4])
    /\ dict_get "dimension" pe2 = Some (List_ [Int 1; Int 2]).
Proof. do 2 eexists. repeat split. Qed.

(** C3 (failing input).  With the schema of [example.py], a page view with
    no nested container and no query value is not normalised: the branch
    of the top-level properties appends the query value without testing
    it, and [str + None] raises [TypeError].  The sibling branch tests the
    value and leaves the page unchanged; a query string that is there is
    appended with no separator; the [query] field is in neither result. *)
Theorem parse_unguarded_query_concat_raises :
  Events.run_parse [plain_page_view] example_schema = Raise TypeError /\
  (exists pe,
     Events.run_parse [nested_page_view] example_schema = Ok [(1, pe)]
     /\ dict_get "page" pe = Some (Str "https://x/a")
     /\ dict_get "query" pe = None) /\
  (exists pe,
     Events.run_parse [query_page_view] example_schema = Ok [(1, pe)]
     /\ dict_get "page" pe = Some (Str "https://x/a?ref=1")
     /\ dict_get "query" pe = None).
Proof. split; [reflexivity |]. split; eexists; repeat split. Qed.

End EventsFacts.

(* ===================================================================== *)
(** * Properties of [MixpanelParser.DataParams]                           *)
(* ===================================================================== *)

Section DataParamsFacts.

Import Py MixpanelParser.

Lemma loop_cons item rest kwargs :
  DataParams.loop (item :: rest) kwargs
  = (kwargs' <- check_param item kwargs ;; DataParams.loop rest kwargs').
Proof.
  destruct item as [key value]. cbn [DataParams.loop check_param].
  destruct (negb _); [reflexivity |].
  destruct (dict_get key DataParams.PARAMS_CHECKS); reflexivity.
Qed.

Lemma loop_app pre post : forall kwargs,
  DataParams.loop (pre ++ post) kwargs
  = (kwargs' <- DataParams.loop pre kwargs ;; DataParams.loop post kwargs').
Proof.
  induction pre as [| item pre IH]; intros kwargs.
  - reflexivity.
  - rewrite <- app_comm_cons, !loop_cons.
    destruct (check_param item kwargs) as [kw |]; cbn [bind]; [apply IH | reflexivity].
Qed.

Lemma check_param_unsupported key value kwargs :
  supported key = false ->
  check_param (key, value) kwargs = Raise (NotImplementedError (unsupported_message key)).
Proof. unfold supported, check_param. intros ->. reflexivity. Qed.

Lemma supported_cases key :
  supported key = true ->
  key = "from_date" \/ key = "to_date" \/ key = "limit" \/ key = "event" \/ key = "where".
Proof.
  unfold supported, DataParams.SUPPORTED_PARAMS; cbn [existsb].
  repeat match goal with
         | |- context [String.eqb key ?k] => destruct (String.eqb_spec key k); [auto 6 |]
         end.
  discriminate.
Qed.

Lemma check_param_limit value kwargs :
  check_param ("limit", value) kwargs
  = if isinstance_int value then Ok kwargs
    else Raise (ValueError "limit param should be integer").
Proof. cbn. destruct (isinstance_int value); reflexivity. Qed.

Lemma check_param_event value kwargs :
  check_param ("event", value) kwargs
  = if isinstance_list value
    then Ok (dict_set "event" (Str (Text.json_dumps value)) kwargs)
    else Raise (ValueError "event param should be list").
Proof. cbn. destruct (isinstance_list value); reflexivity. Qed.

Lemma check_param_where value kwargs :
  check_param ("where", value) kwargs = Ok kwargs.
Proof. reflexivity. Qed.

Lemma check_param_from_date value kwargs :
  check_param ("from_date", value) kwargs
  = match value with
    | Str date =>
        if Text.DATE_REGEX_search date && truthy (get_or_none "to_date" kwargs)
        then Ok kwargs
        else Raise (ValueError (from_date_message date))
    | _ => Raise TypeError
    end.
Proof.
  destruct value; try reflexivity. cbn. unfold from_date_message.
  destruct (Text.DATE_REGEX_search s); cbn; [| reflexivity].
  destruct (truthy (get_or_none "to_date" kwargs)); reflexivity.
Qed.

Lemma check_param_to_date value kwargs kwargs' :
  check_param ("to_date", value) kwargs = Ok kwargs' -> kwargs' = kwargs.
Proof.
  destruct value; try discriminate. cbn.
  destruct (Text.DATE_REGEX_search s); cbn; [| discriminate].
  destruct (truthy (get_or_none "from_date" kwargs)); cbn; [| discriminate].
  intros [= <-]. reflexivity.
Qed.

(** A turn of the loop changes no other key than its own. *)
Lemma check_param_other key value kwargs kwargs' q :
  check_param (key, value) kwargs = Ok kwargs' ->
  q <> key ->
  dict_get q kwargs' = dict_get q kwargs.
Proof.
  intros H Hq.
  destruct (supported key) eqn:Hs.
  - destruct (supported_cases key Hs) as [-> | [-> | [-> | [-> | ->]]]].
    + rewrite check_param_from_date in H. destruct value; try discriminate.
      destruct (_ && _); [injection H as <-; reflexivity | discriminate].
    + apply check_param_to_date in H. subst. reflexivity.
    + rewrite check_param_limit in H.
      destruct (isinstance_int value); [injection H as <-; reflexivity | discriminate].
    + rewrite check_param_event in H.
      destruct (isinstance_list value); [| discriminate].
      injection H as <-. apply dict_get_set_other. exact Hq.
    + rewrite check_param_where in H. injection H as <-. reflexivity.
  - rewrite check_param_unsupported in H by exact Hs. discriminate.
Qed.

(** A keyword argument that fails whatever the others are makes the
    construction fail. *)
Lemma loop_raises_at items : forall kwargs item,
  In item items ->
  (forall kwargs', is_ok (check_param item kwargs') = false) ->
  is_ok (DataParams.loop items kwargs) = false.
Proof.
  induction items as [| x items IH]; intros kwargs item Hin Hbad; [destruct Hin |].
  rewrite loop_cons.
  destruct (check_param x kwargs) as [kw |] eqn:Hx; cbn [bind]; [| reflexivity].
  destruct Hin as [-> | Hin].
  - specialize (Hbad kwargs). rewrite Hx in Hbad. discriminate.
  - eapply IH; eauto.
Qed.

Lemma dict_get_none_keys {V} key (d : list (string * V)) :
  dict_get key d = None -> forall k v, In (k, v) d -> k <> key.
Proof.
  unfold dict_get. induction d as [| [k' v'] d IH]; cbn; intros H k v Hin; [destruct Hin |].
  destruct (String.eqb_spec key k'); [discriminate |].
  destruct Hin as [[= <- <-] | Hin]; [congruence | eauto].
Qed.

Lemma loop_from_date_without_to_date items : forall kwargs value,
  In ("from_date", value) items ->
  (forall k v, In (k, v) items -> k <> "to_date") ->
  dict_get "to_date" kwargs = None ->
  is_ok (DataParams.loop items kwargs) = false.
Proof.
  induction items as [| [k v] items IH]; intros kwargs value Hin Hkeys Hto; [destruct Hin |].
  rewrite loop_cons.
  destruct (check_param (k, v) kwargs) as [kw |] eqn:Hx; cbn [bind]; [| reflexivity].
  destruct Hin as [[= -> ->] | Hin].
  - rewrite check_param_from_date in Hx. unfold get_or_none in Hx. rewrite Hto in Hx.
    destruct value; try discriminate. rewrite andb_false_r in Hx. discriminate.
  - eapply IH; eauto.
    + intros k' v' H'. eapply Hkeys. right. exact H'.
    + rewrite (check_param_other _ _ _ _ "to_date" Hx); [exact Hto |].
      intros <-. eapply Hkeys; [left; reflexivity | reflexivity].
Qed.

Lemma loop_preserves_other q items : forall kwargs kwargs',
  DataParams.loop items kwargs = Ok kwargs' ->
  (forall k v, In (k, v) items -> k <> q) ->
  dict_get q kwargs' = dict_get q kwargs.
Proof.
  induction items as [| [k v] items IH]; intros kwargs kwargs' H Hkeys.
  - injection H as <-. reflexivity.
  - rewrite loop_cons in H.
    destruct (check_param (k, v) kwargs) as [kw |] eqn:Hx; cbn [bind] in H; [| discriminate].
    rewrite (IH _ _ H).
    + eapply check_param_other; [exact Hx |].
      intros ->. eapply Hkeys; [left; reflexivity | reflexivity].
    + intros k' v' H'. eapply Hkeys. right. exact H'.
Qed.

(** A turn of the loop changes the value of [event] only. *)
Lemma check_param_not_event key value kwargs kwargs' q :
  check_param (key, value) kwargs = Ok kwargs' ->
  q <> "event" ->
  dict_get q kwargs' = dict_get q kwargs.
Proof.
  intros H Hq.
  destruct (String.eqb_spec key "event") as [-> | Hk].
  - rewrite check_param_event in H.
    destruct (isinstance_list value); [| discriminate].
    injection H as <-. apply dict_get_set_other. exact Hq.
  - destruct (String.eqb_spec q key) as [-> | Hqk].
    + destruct (supported key) eqn:Hs.
      * destruct (supported_cases key Hs) as [-> | [-> | [-> | [-> | ->]]]].
        -- rewrite check_param_from_date in H. destruct value; try discriminate.
           destruct (_ && _); [injection H as <-; reflexivity | discriminate].
        -- apply check_param_to_date in H. subst. reflexivity.
        -- rewrite check_param_limit in H.
           destruct (isinstance_int value); [injection H as <-; reflexivity | discriminate].
        -- contradiction.
        -- rewrite check_param_where in H. injection H as <-. reflexivity.
      * rewrite check_param_unsupported in H by exact Hs. discriminate.
    + apply (check_param_other _ _ _ _ _ H Hqk).
Qed.

Lemma loop_not_event q items : forall kwargs kwargs',
  DataParams.loop items kwargs = Ok kwargs' ->
  q <> "event" ->
  dict_get q kwargs' = dict_get q kwargs.
Proof.
  induction items as [| [k v] items IH]; intros kwargs kwargs' H Hq.
  - injection H as <-. reflexivity.
  - rewrite loop_cons in H.
    destruct (check_param (k, v) kwargs) as [kw |] eqn:Hx; cbn [bind] in H; [| discriminate].
    rewrite (IH _ _ H Hq). apply (check_param_not_event _ _ _ _ _ Hx Hq).
Qed.

Lemma param_error_dates kwargs kwargs' item :
  dict_get "from_date" kwargs' = dict_get "from_date" kwargs ->
  dict_get "to_date" kwargs' = dict_get "to_date" kwargs ->
  param_error kwargs' item = param_error kwargs item.
Proof.
  intros Hf Ht. destruct item as [key value].
  unfold param_error, date_error, get_or_none. rewrite Hf, Ht. reflexivity.
Qed.

(** What one turn of the loop does, by the error of its argument. *)
Lemma check_param_error key value kwargs :
  match param_error kwargs (key, value) with
  | Some e => check_param (key, value) kwargs = Raise e
  | None => is_ok (check_param (key, value) kwargs) = true
  end.
Proof.
  unfold param_error.
  destruct (String.eqb_spec key "from_date") as [-> | H1].
  { unfold date_error, pattern_message, pairing_message.
    destruct value; try reflexivity. cbn.
    destruct (Text.DATE_REGEX_search s); cbn; [| reflexivity].
    destruct (truthy (get_or_none "to_date" kwargs)); reflexivity. }
  destruct (String.eqb_spec key "to_date") as [-> | H2].
  { unfold date_error, pattern_message, pairing_message.
    destruct value; try reflexivity. cbn.
    destruct (Text.DATE_REGEX_search s); cbn; [| reflexivity].
    destruct (truthy (get_or_none "from_date" kwargs)); reflexivity. }
  destruct (String.eqb_spec key "limit") as [-> | H3].
  { rewrite check_param_limit. destruct (isinstance_int value); reflexivity. }
  destruct (String.eqb_spec key "event") as [-> | H4].
  { rewrite check_param_event. destruct (isinstance_list value); reflexivity. }
  destruct (String.eqb_spec key "where") as [-> | H5]; [reflexivity |].
  apply check_param_unsupported. unfold supported, DataParams.SUPPORTED_PARAMS.
  cbn [existsb].
  repeat match goal with
         | |- context [String.eqb key ?k] =>
             destruct (String.eqb_spec key k); [contradiction |]
         end.
  reflexivity.
Qed.

Lemma loop_first_error pre key value post kwargs' e :
  DataParams.loop pre (pre ++ (key, value) :: post)%list = Ok kwargs' ->
  param_error (pre ++ (key, value) :: post)%list (key, value) = Some e ->
  DataParams.__init__ (pre ++ (key, value) :: post)%list = Raise e.
Proof.
  intros Hpre He. unfold DataParams.__init__.
  rewrite loop_app at 1. rewrite Hpre. cbn [bind]. rewrite loop_cons.
  pose proof (check_param_error key value kwargs') as H.
  rewrite (param_error_dates (pre ++ (key, value) :: post)%list kwargs'), He in H.
  - rewrite H. reflexivity.
  - apply (loop_not_event _ _ _ _ Hpre). discriminate.
  - apply (loop_not_event _ _ _ _ Hpre). discriminate.
Qed.

Lemma loop_error_anywhere items : forall kwargs0 kwargs item e,
  In item items ->
  param_error kwargs0 item = Some e ->
  dict_get "from_date" kwargs = dict_get "from_date" kwargs0 ->
  dict_get "to_date" kwargs = dict_get "to_date" kwargs0 ->
  is_ok (DataParams.loop items kwargs) = false.
Proof.
  induction items as [| [k v] items IH]; intros kwargs0 kwargs item e Hin He Hf Ht;
    [destruct Hin |].
  rewrite loop_cons.
  destruct (check_param (k, v) kwargs) as [kw |] eqn:Hx; cbn [bind]; [| reflexivity].
  destruct Hin as [<- | Hin].
  - pose proof (check_param_error k v kwargs) as H.
    rewrite (param_error_dates kwargs0 kwargs _ Hf Ht), He, Hx in H. discriminate.
  - apply (IH kwargs0 kw item e Hin He).
    + rewrite <- Hf. apply (check_param_not_event _ _ _ _ _ Hx). discriminate.
    + rewrite <- Ht. apply (check_param_not_event _ _ _ _ _ Hx). discriminate.
Qed.

(** C8 (amended).  Keyword arguments are checked in call order and the
    first failure is the one raised, with exactly the exception of
    [param_error].  When the arguments before it pass: a [from_date]
    string without [to_date] raises [ValueError]; a [limit] that is not an
    [int] raises [ValueError]; a name outside the supported set raises
    [NotImplementedError].  In any position an argument with an error
    keeps the construction from succeeding.  [event=["A", "B"]] is stored
    as the JSON text of the list.  Only the two messages for a date that
    does not match the pattern end with the offending value; the two
    pairing messages, the limit message and the event message are fixed
    texts. *)
Theorem DataParams_init_spec :
  (forall pre date post kwargs',
     dict_get "to_date" (pre ++ ("from_date", Str date) :: post)%list = None ->
     DataParams.loop pre (pre ++ ("from_date", Str date) :: post)%list = Ok kwargs' ->
     DataParams.__init__ (pre ++ ("from_date", Str date) :: post)%list
     = Raise (ValueError (from_date_message date))) /\
  (forall kwargs value,
     In ("from_date", value) kwargs ->
     dict_get "to_date" kwargs = None ->
     is_ok (DataParams.__init__ kwargs) = false) /\
  (forall pre value post kwargs',
     isinstance_int value = false ->
     DataParams.loop pre (pre ++ ("limit", value) :: post)%list = Ok kwargs' ->
     DataParams.__init__ (pre ++ ("limit", value) :: post)%list
     = Raise (ValueError "limit param should be integer")) /\
  (forall kwargs value,
     In ("limit", value) kwargs ->
     isinstance_int value = false ->
     is_ok (DataParams.__init__ kwargs) = false) /\
  DataParams.__init__ [("event", List_ [Str "A"; Str "B"])]
  = Ok [("event", Str json_A_B)] /\
  (forall pre key value post kwargs',
     supported key = false ->
     DataParams.loop pre (pre ++ (key, value) :: post)%list = Ok kwargs' ->
     DataParams.__init__ (pre ++ (key, value) :: post)%list
     = Raise (NotImplementedError (unsupported_message key))) /\
  (forall kwargs key value,
     In (key, value) kwargs ->
     supported key = false ->
     is_ok (DataParams.__init__ kwargs) = false) /\
  (forall pre key value post kwargs' e,
     DataParams.loop pre (pre ++ (key, value) :: post)%list = Ok kwargs' ->
     param_error (pre ++ (key, value) :: post)%list (key, value) = Some e ->
     DataParams.__init__ (pre ++ (key, value) :: post)%list = Raise e) /\
  (forall kwargs item e,
     In item kwargs ->
     param_error kwargs item = Some e ->
     is_ok (DataParams.__init__ kwargs) = false) /\
  (forall kwargs value,
     param_error kwargs ("limit", value)
     = (if isinstance_int value then None
        else Some (ValueError "limit param should be integer")) /\
     param_error kwargs ("event", value)
     = (if isinstance_list value then None
        else Some (ValueError "event param should be list"))) /\
  (forall kwargs date,
     param_error kwargs ("from_date", Str date)
     = (if Text.DATE_REGEX_search date
        then if truthy (get_or_none "to_date" kwargs) then None
             else Some (ValueError "from_date param have to be with to_date param")
        else Some (ValueError
                     ("from_date param should be in the following pattern: YYYY-MM-DD | You provided "
                      ++ date))) /\
     param_error kwargs ("to_date", Str date)
     = (if Text.DATE_REGEX_search date
        then if truthy (get_or_none "from_date" kwargs) then None
             else Some (ValueError "to_date param have to be with from_date param")
        else Some (ValueError
                     ("to_date param should be in the following pattern: YYYY-MM-DD | You provided "
                      ++ date)))).
Proof.
  split; [| split; [| split; [| split; [| split; [| split; [| split;
    [| split; [| split; [| split]]]]]]]]].
  - unfold DataParams.__init__. intros pre date post kwargs' Hto Hpre.
    rewrite loop_app at 1. rewrite Hpre. cbn [bind].
    rewrite loop_cons, check_param_from_date.
    unfold get_or_none.
    rewrite (loop_preserves_other "to_date" _ _ _ Hpre), Hto.
    + rewrite andb_false_r. reflexivity.
    + intros k v Hin. eapply dict_get_none_keys; [exact Hto |].
      apply in_or_app. left. exact Hin.
  - unfold DataParams.__init__. intros kwargs value Hin Hto.
    eapply loop_from_date_without_to_date; eauto.
    apply dict_get_none_keys. exact Hto.
  - unfold DataParams.__init__. intros pre value post kwargs' Hint Hpre.
    rewrite loop_app at 1. rewrite Hpre. cbn [bind].
    rewrite loop_cons, check_param_limit, Hint. reflexivity.
  - unfold DataParams.__init__. intros kwargs value Hin Hint.
    eapply loop_raises_at; [exact Hin |].
    intros kw. rewrite check_param_limit, Hint. reflexivity.
  - reflexivity.
  - unfold DataParams.__init__. intros pre key value post kwargs' Hs Hpre.
    rewrite loop_app at 1. rewrite Hpre. cbn [bind].
    rewrite loop_cons, check_param_unsupported by exact Hs. reflexivity.
  - unfold DataParams.__init__. intros kwargs key value Hin Hs.
    eapply loop_raises_at; [exact Hin |].
    intros kw. rewrite check_param_unsupported by exact Hs. reflexivity.
  - intros pre key value post kwargs' e. apply loop_first_error.
  - intros kwargs item e Hin He. unfold DataParams.__init__.
    apply (loop_error_anywhere kwargs kwargs kwargs item e Hin He); reflexivity.
  - intros kwargs value. split; reflexivity.
  - intros kwargs date. unfold param_error, date_error. cbn [String.eqb Ascii.eqb Bool.eqb].
    split; (destruct (Text.DATE_REGEX_search date); cbn [negb];
            [destruct (truthy _); reflexivity | reflexivity]).
Qed.

(** C8 (counterexample).  The message for [limit="5"] does not contain the
    value; an unsupported name after it is not reported; a [from_date] that
    is not a string raises [TypeError]. *)
Lemma DataParams_messages_and_order :
  DataParams.__init__ [("limit", Str "5")]
    = Raise (ValueError "limit param should be integer") /\
  occurs "5" "limit param should be integer" = false /\
  supported "colour" = false /\
  DataParams.__init__ [("limit", Str "5"); ("colour", Int 1)]
    = Raise (ValueError "limit param should be integer") /\
  DataParams.__init__ [("from_date", Int 20230921)] = Raise TypeError.
Proof. repeat split. Qed.

End DataParamsFacts.

(* ===================================================================== *)
(** * Properties of [UserSimulation.perform_simulation]                   *)
(* ===================================================================== *)

Section ReplayFacts.

Import Py.
Local Open Scope list_scope.

Section Observing.
Context {X : Type} (f : Browser.action -> list X).

Lemma prefix_refl (l : list X) : prefix l l.
Proof. exists []. rewrite app_nil_r. reflexivity. Qed.

Lemma prefix_nil (l : list X) : prefix [] l.
Proof. exists l. reflexivity. Qed.

Lemma prefix_app_r (l1 l2 l3 : list X) : prefix l1 l2 -> prefix l1 (l2 ++ l3).
Proof. intros [r ->]. exists (r ++ l3). rewrite app_assoc. reflexivity. Qed.

Lemma prefix_app_l (l l1 l2 : list X) : prefix l1 l2 -> prefix (l ++ l1) (l ++ l2).
Proof. intros [r ->]. exists r. rewrite app_assoc. reflexivity. Qed.

Lemma observes_ret {A} (a : A) : observes f (ret a) [].
Proof.
  intros w. exists []. cbn. rewrite app_nil_r.
  split; [reflexivity | split; [apply prefix_nil | reflexivity]].
Qed.

Lemma observes_lift_bind {A B} (r : result A) (k : A -> M Browser.world B) E :
  (forall a, r = Ok a -> observes f (k a) E) ->
  observes f (mbind (lift r) k) E.
Proof.
  intros H w. unfold mbind, lift. destruct r as [a | e].
  - apply (H a eq_refl).
  - exists []. cbn. rewrite app_nil_r.
    split; [reflexivity | split; [apply prefix_nil | discriminate]].
Qed.

Lemma observes_bind {A B} (c : M Browser.world A) (k : A -> M Browser.world B)
  (P : A -> Prop) E1 E2 :
  observes f c E1 ->
  returns c P ->
  (forall a, P a -> observes f (k a) E2) ->
  observes f (mbind c k) (E1 ++ E2).
Proof.
  intros Hc Hr Hk w. unfold mbind.
  destruct (Hc w) as (n1 & Hw & Hp & Heq).
  destruct (c w) as [w1 [a | e]] eqn:Hcw; cbn in *.
  - subst w1. specialize (Heq eq_refl).
    assert (Pa : P a) by (apply (Hr w); rewrite Hcw; reflexivity).
    destruct (Hk a Pa (w ++ n1)) as (n2 & Hw2 & Hp2 & Heq2).
    exists (n1 ++ n2). rewrite Hw2, app_assoc, flat_map_app, Heq.
    split; [reflexivity |]. split.
    + apply prefix_app_l. exact Hp2.
    + intros Hok. rewrite (Heq2 Hok). reflexivity.
  - exists n1. split; [exact Hw |]. split; [| discriminate].
    apply prefix_app_r. exact Hp.
Qed.

Lemma observes_seq {A B} (c : M Browser.world A) (k : M Browser.world B) E1 E2 :
  observes f c E1 ->
  observes f k E2 ->
  observes f (mbind c (fun _ => k)) (E1 ++ E2).
Proof.
  intros Hc Hk. apply (observes_bind c _ (fun _ => True)); auto.
  intros w a _. exact I.
Qed.

Lemma observes_emit {A} (c : M Browser.world A) (act : Browser.world -> Browser.action) E :
  (forall w, fst (c w) = w ++ [act w]) ->
  (forall w, f (act w) = E) ->
  observes f c E.
Proof.
  intros Hc Hf w. exists [act w]. cbn. rewrite app_nil_r, Hf.
  split; [apply Hc | split; [apply prefix_refl | reflexivity]].
Qed.

Lemma observes_call (d : Browser.driver) (c : Browser.command) E :
  (forall o, f (Browser.Call c o) = E) ->
  observes f (Browser.call d c) E.
Proof.
  intros Hf. apply (observes_emit _ (fun w => Browser.Call c (d w c))); [| intros; apply Hf].
  intros w. unfold Browser.call. destruct (d w c); reflexivity.
Qed.

Lemma observes_sleep (seconds : Z) :
  observes f (Browser.sleep seconds)
    (if seconds <? 0 then [] else f (Browser.Sleep seconds)).
Proof.
  intros w. unfold Browser.sleep.
  destruct ((seconds <? - Browser.max_sleep) || (Browser.max_sleep <? seconds)).
  { exists []. rewrite app_nil_r.
    split; [reflexivity | split; [apply prefix_nil | discriminate]]. }
  destruct (seconds <? 0); cbn [fst snd].
  - exists []. rewrite app_nil_r.
    split; [reflexivity | split; [apply prefix_nil | discriminate]].
  - exists [Browser.Sleep seconds]. cbn [flat_map]. rewrite app_nil_r.
    split; [reflexivity | split; [apply prefix_refl | reflexivity]].
Qed.

Lemma observes_simulate_scroll (d : Browser.driver) (pixels : value) :
  (forall o, f (Browser.Call (Browser.execute_script_scrollTo pixels) o) = []) ->
  f (Browser.Print "Simulating scroll failed") = [] ->
  observes f (Controls.simulate_scroll d pixels) [].
Proof.
  intros Hc Hp w.
  unfold Controls.simulate_scroll, Browser.try_except_JavascriptException,
    Browser.call, Browser.print.
  destruct (d w (Browser.execute_script_scrollTo pixels)) as [e |] eqn:Hd.
  - destruct e; cbn;
      try (eexists [_]; cbn; rewrite Hc;
           split; [reflexivity | split; [apply prefix_refl | discriminate]]).
    eexists [_; _]. rewrite <- app_assoc. cbn. rewrite Hc, Hp.
    split; [reflexivity | split; [apply prefix_refl | reflexivity]].
  - eexists [_]. cbn. rewrite Hc.
    split; [reflexivity | split; [apply prefix_refl | reflexivity]].
Qed.

Lemma observes_call_custom g n event self ll lt :
  (forall acts o, f (Browser.Custom n acts o) = []) ->
  observes f (UserSimulation.call_custom g n event self ll lt) [].
Proof.
  intros Hf w. unfold UserSimulation.call_custom.
  destruct (g n event _ _ ll lt w) as [acts [u | e]]; eexists [_]; cbn;
    rewrite Hf; (split; [reflexivity | split; [apply prefix_refl | reflexivity]]).
Qed.

End Observing.

Section Returning.
Context {S : Type}.

Lemma returns_ret {A} (a : A) (P : A -> Prop) : P a -> returns (@ret S A a) P.
Proof. intros H w a' [= <-]. exact H. Qed.

Lemma returns_bind {A B} (c : M S A) (k : A -> M S B) (P : B -> Prop) :
  (forall a, returns (k a) P) -> returns (mbind c k) P.
Proof.
  intros H w b. unfold mbind. destruct (c w) as [w' [a | e]]; cbn.
  - apply H.
  - discriminate.
Qed.

Lemma returns_lift_bind {A B} (r : result A) (k : A -> M S B) (P : B -> Prop) :
  (forall a, r = Ok a -> returns (k a) P) -> returns (mbind (lift r) k) P.
Proof.
  intros H w b. unfold mbind, lift. destruct r as [a | e]; cbn.
  - apply (H a eq_refl).
  - discriminate.
Qed.
End Returning.

Lemma dict_item_get k (d : dict) v : dict_item k d = Ok v -> get_or_none k d = v.
Proof.
  unfold dict_item, get_or_none. destruct (dict_get k d); intros [= <-]. reflexivity.
Qed.

Lemma loop_body_returns self static exec n event lt ll :
  returns (UserSimulation.loop_body self static exec n event lt ll)
    (fun st => st = (event_time event, event_page event)).
Proof.
  unfold UserSimulation.loop_body.
  do 4 (apply returns_bind; intros _).
  apply returns_lift_bind; intros t Ht.
  apply returns_lift_bind; intros p Hp.
  apply returns_ret. unfold event_time, event_page.
  rewrite (dict_item_get _ _ _ Ht), (dict_item_get _ _ _ Hp). reflexivity.
Qed.

Section BodyObservation.
Context {X : Type} (f : Browser.action -> list X).
Hypothesis f_scroll : forall px o, f (Browser.Call (Browser.execute_script_scrollTo px) o) = [].
Hypothesis f_click : forall x y o, f (Browser.Call (Browser.perform_click x y) o) = [].
Hypothesis f_print : forall line, f (Browser.Print line) = [].

Lemma observes_scroll_step (self : UserSimulation.t) (event : dict) :
  observes f
    (if truthy (get_or_none "scroll_top" event)
     then
       pixels <~ lift (dict_item "scroll_top" event) ;;
       Controls.simulate_scroll (UserSimulation.driver self) pixels
     else ret tt) [].
Proof.
  destruct (truthy _).
  - apply observes_lift_bind; intros px _.
    apply observes_simulate_scroll; auto.
  - apply observes_ret.
Qed.

Lemma observes_click_step (self : UserSimulation.t) (event : dict) :
  observes f
    (if truthy (get_or_none "mouse_position" event)
     then
       mouse_position <~ lift (dict_item "mouse_position" event) ;;
       x <~ lift (getitem_int mouse_position 0) ;;
       mouse_position <~ lift (dict_item "mouse_position" event) ;;
       y <~ lift (getitem_int mouse_position 1) ;;
       Controls.simulate_click (UserSimulation.driver self) x y
     else ret tt) [].
Proof.
  destruct (truthy _).
  - do 4 (apply observes_lift_bind; intros ? _).
    apply observes_call. intros; apply f_click.
  - apply observes_ret.
Qed.

Lemma observes_loop_body self static exec n event lt ll E1 E2 :
  observes f
    (match static with
     | None =>
         next_event_in <~ lift
           (time <- dict_item "time" event ;; sub time lt) ;;
         negative <~ lift (lt_zero next_event_in) ;;
         let next_event_in := if negative : bool then Int 3 else next_event_in in
         Browser.sleep_value next_event_in
     | Some seconds => Browser.sleep seconds
     end) E1 ->
  observes f
    (match exec with
     | UserSimulation.Callable g => UserSimulation.call_custom g n event self ll lt
     | _ =>
         page <~ lift (dict_item "page" event) ;;
         if ne ll page
         then
           page <~ lift (dict_item "page" event) ;;
           Browser.call (UserSimulation.driver self) (Browser.get page)
         else ret tt
     end) E2 ->
  observes f (UserSimulation.loop_body self static exec n event lt ll) (E1 ++ E2).
Proof.
  intros H1 H2. unfold UserSimulation.loop_body.
  apply observes_seq; [exact H1 |].
  rewrite <- (app_nil_r E2). apply observes_seq; [exact H2 |].
  change (@nil X) with (@nil X ++ []). apply observes_seq; [apply observes_scroll_step |].
  change (@nil X) with (@nil X ++ []). apply observes_seq; [apply observes_click_step |].
  do 2 (apply observes_lift_bind; intros ? _).
  apply observes_ret.
Qed.

End BodyObservation.

Section LoopObservation.
Context {X : Type} (f : Browser.action -> list X).
Context (self : UserSimulation.t) (static : option Z)
        (exec : UserSimulation.execute_function_arg).
Context (body_E : dict -> value -> value -> list X).
Hypothesis body_observes : forall n event lt ll,
  observes f (UserSimulation.loop_body self static exec n event lt ll)
    (body_E event lt ll).

Lemma observes_loop (items : Events.stream) : forall lt ll,
  observes f (UserSimulation.loop self static exec items lt ll) (loop_E body_E items lt ll).
Proof.
  induction items as [| [n event] rest IH]; intros lt ll; cbn [UserSimulation.loop loop_E].
  - apply observes_ret.
  - eapply observes_bind.
    + apply body_observes.
    + apply loop_body_returns.
    + intros st ->. apply IH.
Qed.

Lemma observes_perform_simulation :
  observes f (UserSimulation.perform_simulation self static exec)
    (loop_E body_E (UserSimulation.events self)
       (event_time (UserSimulation.first_event self)) None_).
Proof.
  unfold UserSimulation.perform_simulation.
  apply observes_lift_bind. intros t Ht.
  unfold event_time. rewrite (dict_item_get _ _ _ Ht). apply observes_loop.
Qed.

End LoopObservation.

(** ** Navigation *)

Lemma observes_navigation_body self static n event lt ll :
  observes navigation
    (UserSimulation.loop_body self static UserSimulation.NoFunction n event lt ll)
    (if ne ll (event_page event) then [event_page event] else []).
Proof.
  change (if ne ll (event_page event) then [event_page event] else [])
    with ([] ++ (if ne ll (event_page event) then [event_page event] else [])).
  apply observes_loop_body; try reflexivity.
  - destruct static as [s |].
    + pose proof (observes_sleep navigation s) as H. destruct (s <? 0); exact H.
    + do 2 (apply observes_lift_bind; intros ? _).
      unfold Browser.sleep_value. destruct (as_int _) as [z |].
      * pose proof (observes_sleep navigation z) as H. destruct (z <? 0); exact H.
      * intros w. exists []. cbn. rewrite app_nil_r.
        split; [reflexivity | split; [apply prefix_nil | discriminate]].
  - apply observes_lift_bind. intros page Hp.
    unfold event_page. rewrite (dict_item_get _ _ _ Hp).
    destruct (ne ll page).
    + apply observes_lift_bind. intros page' Hp'.
      rewrite Hp in Hp'. injection Hp' as <-.
      apply observes_call. reflexivity.
    + apply observes_ret.
Qed.

Lemma loop_E_navigations items : forall lt ll,
  loop_E (fun event _ ll => if ne ll (event_page event) then [event_page event] else [])
    items lt ll
  = navigations_from ll (pages items).
Proof.
  induction items as [| [n event] rest IH]; intros lt ll; cbn; [reflexivity |].
  rewrite IH. reflexivity.
Qed.

(** ** Delays *)

Lemma clamp_nonneg delta : 0 <= clamp delta.
Proof. unfold clamp. destruct (Z.ltb_spec delta 0); lia. Qed.

Lemma observes_sleep_body self static exec n event lt ll :
  observes sleeping (UserSimulation.loop_body self static exec n event lt ll)
    (body_delay static event lt ll).
Proof.
  rewrite <- (app_nil_r (body_delay static event lt ll)).
  apply observes_loop_body; try reflexivity.
  - unfold body_delay. destruct static as [s |].
    + apply observes_sleep.
    + apply observes_lift_bind. intros d Hd.
      destruct (dict_item "time" event) as [time |] eqn:Ht; cbn [bind] in Hd; [| discriminate].
      unfold event_time. rewrite (dict_item_get _ _ _ Ht).
      unfold sub in Hd.
      destruct (as_int time) as [t |]; [| discriminate].
      destruct (as_int lt) as [l |]; [| discriminate].
      injection Hd as <-.
      apply observes_lift_bind. intros neg [= <-].
      replace (Browser.sleep_value (if t - l <? 0 then Int 3 else Int (t - l)))
        with (Browser.sleep (clamp (t - l)))
        by (unfold clamp; destruct (t - l <? 0); reflexivity).
      pose proof (observes_sleep sleeping (clamp (t - l))) as H.
      pose proof (clamp_nonneg (t - l)).
      destruct (Z.ltb_spec (clamp (t - l)) 0); [lia | exact H].
  - destruct exec as [| g |].
    + apply observes_lift_bind. intros page _. destruct (ne ll page).
      * apply observes_lift_bind. intros page' _. apply observes_call. reflexivity.
      * apply observes_ret.
    + apply observes_call_custom. reflexivity.
    + apply observes_lift_bind. intros page _. destruct (ne ll page).
      * apply observes_lift_bind. intros page' _. apply observes_call. reflexivity.
      * apply observes_ret.
Qed.

Lemma loop_E_recorded items : forall lt ll previous times,
  times_of items = Some times ->
  as_int lt = Some previous ->
  loop_E (body_delay None) items lt ll = delays_from previous times.
Proof.
  induction items as [| [n event] rest IH]; intros lt ll previous times Ht Hl;
    cbn [times_of loop_E] in *.
  - injection Ht as <-. reflexivity.
  - destruct (as_int (event_time event)) as [t |] eqn:Het; [| discriminate].
    destruct (times_of rest) as [ts |] eqn:Hts; [| discriminate].
    injection Ht as <-. cbn [delays_from].
    rewrite (IH (event_time event) (event_page event) t ts eq_refl Het).
    unfold body_delay. rewrite Het, Hl. reflexivity.
Qed.

Lemma loop_E_fixed seconds items : forall lt ll,
  0 <= seconds ->
  loop_E (body_delay (Some seconds)) items lt ll = repeat seconds (length items).
Proof.
  induction items as [| [n event] rest IH]; intros lt ll Hs;
    cbn [loop_E length repeat]; [reflexivity |].
  rewrite IH by exact Hs. unfold body_delay.
  destruct (Z.ltb_spec seconds 0); [lia | reflexivity].
Qed.

Lemma init_ok events chrome self :
  UserSimulation.__init__ events chrome = Ok self ->
  exists n event rest,
    events = (n, event) :: rest
    /\ self = UserSimulation.Build events event chrome.
Proof.
  unfold UserSimulation.__init__.
  destruct events as [| [n event] rest]; cbn [bind]; [discriminate |].
  destruct (dict_item "dimension" event); cbn [bind]; [| discriminate].
  destruct (getitem_int a 0); cbn [bind]; [| discriminate].
  destruct (getitem_int a 1); cbn [bind]; [| discriminate].
  intros [= <-]. eauto.
Qed.

Lemma delays_from_nth times : forall previous i time time',
  nth_error times i = Some time ->
  nth_error times (S i) = Some time' ->
  nth_error (delays_from previous times) (S i) = Some (clamp (time' - time)).
Proof.
  induction times as [| t ts IH]; intros previous i time time' H H'.
  - destruct i; discriminate.
  - destruct i as [| i]; cbn in H, H' |- *.
    + injection H as <-. destruct ts as [| t' ts]; [discriminate |].
      injection H' as <-. reflexivity.
    + apply (IH t i time time' H H').
Qed.

(** ** Failures of the driver *)

Lemma handled_app n1 : forall n2 raised,
  handled n1 None -> handled n2 raised -> handled (n1 ++ n2) raised.
Proof.
  induction n1 as [| a n1 IH]; intros n2 raised H1 H2; [exact H2 |].
  cbn [app handled] in *.
  destruct (failure a) as [e |]; [| apply IH; assumption].
  destruct (is_swallowed a).
  - destruct H1 as [[rest' ->] H1]. split; [cbn; eauto |].
    apply IH; assumption.
  - destruct H1 as [_ [=]].
Qed.

Lemma handled_split new raised :
  handled new raised ->
  forall pre a e post,
    new = pre ++ a :: post ->
    failure a = Some e ->
    if is_swallowed a
    then exists post', post = Browser.Print scroll_failure_message :: post'
    else post = [] /\ raised = Some e.
Proof.
  intros H pre. revert new H.
  induction pre as [| b pre IH]; intros new H a e post -> Ha; cbn [app handled] in H.
  - rewrite Ha in H. destruct (is_swallowed a); [apply H | exact H].
  - apply (IH (pre ++ a :: post)); [| reflexivity | exact Ha].
    destruct (failure b) as [e' |]; [| exact H].
    destruct (is_swallowed b); [apply H |].
    destruct H as [Hnil _]. destruct pre; discriminate Hnil.
Qed.

Lemma handled_nil_emits {A} (c : M Browser.world A) :
  (forall w, fst (c w) = w) -> emits_handled c.
Proof.
  intros H w. exists []. rewrite app_nil_r. split; [apply H | exact I].
Qed.

Lemma emits_handled_ret {A} (a : A) : emits_handled (ret a).
Proof. apply handled_nil_emits. reflexivity. Qed.

Lemma emits_handled_bind {A B} (c : M Browser.world A) (k : A -> M Browser.world B) :
  emits_handled c -> (forall a, emits_handled (k a)) -> emits_handled (mbind c k).
Proof.
  intros Hc Hk w. unfold mbind.
  destruct (Hc w) as (n1 & Hw & H1).
  destruct (c w) as [w1 [a | e]]; cbn in *.
  - subst w1. destruct (Hk a (w ++ n1)) as (n2 & Hw2 & H2).
    exists (n1 ++ n2). rewrite Hw2, app_assoc. split; [reflexivity |].
    apply handled_app; assumption.
  - exists n1. split; assumption.
Qed.

Lemma emits_handled_lift_bind {A B} (r : result A) (k : A -> M Browser.world B) :
  (forall a, emits_handled (k a)) -> emits_handled (mbind (lift r) k).
Proof.
  intros Hk. apply emits_handled_bind; [| exact Hk].
  apply handled_nil_emits. reflexivity.
Qed.

Lemma emits_handled_sleep seconds : emits_handled (Browser.sleep seconds).
Proof.
  intros w. unfold Browser.sleep.
  destruct ((seconds <? - Browser.max_sleep) || (Browser.max_sleep <? seconds)).
  { exists []. rewrite app_nil_r. split; [reflexivity | exact I]. }
  destruct (seconds <? 0).
  - exists []. rewrite app_nil_r. split; [reflexivity | exact I].
  - exists [Browser.Sleep seconds]. split; [reflexivity | exact I].
Qed.

Lemma emits_handled_sleep_value seconds : emits_handled (Browser.sleep_value seconds).
Proof.
  unfold Browser.sleep_value. destruct (as_int seconds).
  - apply emits_handled_sleep.
  - apply handled_nil_emits. reflexivity.
Qed.

Lemma emits_handled_call d c :
  (forall e, swallowed c e = false) -> emits_handled (Browser.call d c).
Proof.
  intros Hc w. unfold Browser.call.
  destruct (d w c) as [e |]; eexists [_];
    (split; [reflexivity |]); cbn [fst snd raised_of handled failure is_swallowed].
  - rewrite Hc. auto.
  - exact I.
Qed.

Lemma emits_handled_simulate_scroll d pixels :
  emits_handled (Controls.simulate_scroll d pixels).
Proof.
  intros w.
  unfold Controls.simulate_scroll, Browser.try_except_JavascriptException,
    Browser.call, Browser.print.
  destruct (d w (Browser.execute_script_scrollTo pixels)) as [e |].
  - destruct e; cbn [fst snd];
      try (eexists [_]; split; [reflexivity | cbn; auto]).
    eexists [_; _]. rewrite <- app_assoc. split; [reflexivity |]. cbn. eauto.
  - eexists [_]. split; [reflexivity | exact I].
Qed.

Lemma emits_handled_call_custom g n event self ll lt :
  emits_handled (UserSimulation.call_custom g n event self ll lt).
Proof.
  intros w. unfold UserSimulation.call_custom.
  destruct (g n event _ _ ll lt w) as [acts [u | e]]; eexists [_];
    (split; [reflexivity | cbn; auto]).
Qed.

Lemma emits_handled_loop_body self static exec n event lt ll :
  emits_handled (UserSimulation.loop_body self static exec n event lt ll).
Proof.
  unfold UserSimulation.loop_body.
  apply emits_handled_bind; [| intros _; apply emits_handled_bind; [| intros _;
    apply emits_handled_bind; [| intros _; apply emits_handled_bind; [| intros _]]]].
  - destruct static.
    + apply emits_handled_sleep.
    + do 2 (apply emits_handled_lift_bind; intros ?).
      apply emits_handled_sleep_value.
  - destruct exec; try apply emits_handled_call_custom;
      (apply emits_handled_lift_bind; intros page; destruct (ne ll page);
       [apply emits_handled_lift_bind; intros ?; apply emits_handled_call; reflexivity
       | apply emits_handled_ret]).
  - destruct (truthy _); [| apply emits_handled_ret].
    apply emits_handled_lift_bind; intros ?. apply emits_handled_simulate_scroll.
  - destruct (truthy _); [| apply emits_handled_ret].
    do 4 (apply emits_handled_lift_bind; intros ?).
    apply emits_handled_call. reflexivity.
  - do 2 (apply emits_handled_lift_bind; intros ?). apply emits_handled_ret.
Qed.

Lemma emits_handled_loop self static exec items : forall lt ll,
  emits_handled (UserSimulation.loop self static exec items lt ll).
Proof.
  induction items as [| [n event] rest IH]; intros lt ll; cbn [UserSimulation.loop].
  - apply emits_handled_ret.
  - apply emits_handled_bind; [apply emits_handled_loop_body |].
    intros st. apply IH.
Qed.

Lemma emits_handled_perform_simulation self static exec :
  emits_handled (UserSimulation.perform_simulation self static exec).
Proof.
  unfold UserSimulation.perform_simulation.
  apply emits_handled_lift_bind. intros t. apply emits_handled_loop.
Qed.

(** ** Runs that complete *)

Section Succeeding.
Context {S : Type}.

Lemma succeeds_ret {A} (a : A) : succeeds (@ret S A a).
Proof. intros w. reflexivity. Qed.

Lemma succeeds_bind {A B} (c : M S A) (k : A -> M S B) (P : A -> Prop) :
  succeeds c -> returns c P -> (forall a, P a -> succeeds (k a)) ->
  succeeds (mbind c k).
Proof.
  intros Hc Hr Hk w. unfold mbind.
  specialize (Hc w). specialize (Hr w).
  destruct (c w) as [w' [a | e]]; cbn in *; [| discriminate].
  apply Hk. apply Hr. reflexivity.
Qed.

Lemma succeeds_seq {A B} (c : M S A) (k : M S B) :
  succeeds c -> succeeds k -> succeeds (mbind c (fun _ => k)).
Proof.
  intros Hc Hk. apply (succeeds_bind c _ (fun _ => True)); auto.
  intros w a _. exact I.
Qed.

Lemma succeeds_lift_bind {A B} (r : result A) (k : A -> M S B) a :
  r = Ok a -> succeeds (k a) -> succeeds (mbind (lift r) k).
Proof. intros -> Hk w. apply Hk. Qed.
End Succeeding.

Lemma truthy_get_item k (d : dict) :
  truthy (get_or_none k d) = true -> dict_item k d = Ok (get_or_none k d).
Proof.
  unfold get_or_none, dict_item. destruct (dict_get k d); [reflexivity | discriminate].
Qed.

Lemma int_get_item k (d : dict) :
  isinstance_int (get_or_none k d) = true -> dict_item k d = Ok (get_or_none k d).
Proof.
  unfold get_or_none, dict_item. destruct (dict_get k d); [reflexivity | discriminate].
Qed.

Lemma mem_get_item k (d : dict) :
  dict_mem k d = true -> dict_item k d = Ok (get_or_none k d).
Proof.
  unfold dict_mem, assoc_mem, get_or_none, dict_item, dict_get.
  destruct (assoc_get String.eqb k d); [reflexivity | discriminate].
Qed.

Lemma succeeds_sleep seconds :
  sleep_fits seconds = true -> succeeds (Browser.sleep seconds).
Proof.
  unfold sleep_fits. intros H w. unfold Browser.sleep.
  apply andb_prop in H as [H0 H1]. apply Z.leb_le in H0, H1.
  replace ((seconds <? - Browser.max_sleep) || (Browser.max_sleep <? seconds)) with false.
  - destruct (Z.ltb_spec seconds 0); [lia | reflexivity].
  - symmetry. apply orb_false_iff. unfold Browser.max_sleep in *.
    split; apply Z.ltb_ge; lia.
Qed.

Lemma succeeds_call d c :
  gentle d -> (forall e, swallowed c e = false) -> succeeds (Browser.call d c).
Proof.
  intros Hd Hc w. unfold Browser.call. destruct (d w c) as [e |] eqn:E; [| reflexivity].
  apply Hd in E. rewrite Hc in E. discriminate.
Qed.

Lemma succeeds_simulate_scroll d pixels :
  gentle d -> succeeds (Controls.simulate_scroll d pixels).
Proof.
  intros Hd w.
  unfold Controls.simulate_scroll, Browser.try_except_JavascriptException,
    Browser.call, Browser.print.
  destruct (d w (Browser.execute_script_scrollTo pixels)) as [e |] eqn:E; [| reflexivity].
  apply Hd in E. destruct e; try discriminate E. reflexivity.
Qed.

Lemma succeeds_loop_body self static exec n event lt ll :
  gentle (UserSimulation.driver self) ->
  quiet exec ->
  replayable event = true ->
  match static with
  | Some seconds => sleep_fits seconds = true
  | None =>
      exists t l,
        as_int (event_time event) = Some t /\ as_int lt = Some l
        /\ sleep_fits (clamp (t - l)) = true
  end ->
  succeeds (UserSimulation.loop_body self static exec n event lt ll).
Proof.
  intros Hd Hq Hr Hs.
  unfold replayable in Hr.
  apply andb_prop in Hr as [Hr Hm]. apply andb_prop in Hr as [Ht Hp].
  unfold UserSimulation.loop_body.
  apply succeeds_seq; [| apply succeeds_seq; [| apply succeeds_seq; [| apply succeeds_seq]]].
  - destruct static as [s |]; [apply succeeds_sleep; exact Hs |].
    destruct Hs as (t & l & Het & Hl & Hfit).
    unfold event_time in *.
    rewrite (int_get_item _ _ Ht). cbn [bind]. unfold sub. rewrite Het, Hl.
    eapply succeeds_lift_bind; [reflexivity |].
    eapply succeeds_lift_bind; [reflexivity |].
    replace (Browser.sleep_value (if t - l <? 0 then Int 3 else Int (t - l)))
      with (Browser.sleep (clamp (t - l)))
      by (unfold clamp; destruct (t - l <? 0); reflexivity).
    apply succeeds_sleep, Hfit.
  - assert (Hdefault :
      succeeds (page <~ lift (dict_item "page" event) ;;
                if ne ll page
                then page <~ lift (dict_item "page" event) ;;
                     Browser.call (UserSimulation.driver self) (Browser.get page)
                else ret tt)).
    { rewrite (mem_get_item _ _ Hp).
      eapply succeeds_lift_bind; [reflexivity |].
      destruct (ne ll _); [| apply succeeds_ret].
      eapply succeeds_lift_bind; [reflexivity |].
      apply succeeds_call; auto. }
    destruct exec as [| g |]; try exact Hdefault.
    intros w. unfold UserSimulation.call_custom.
    specialize (Hq n event (UserSimulation.events self) (UserSimulation.driver self) ll lt w).
    destruct (g n event _ _ ll lt w) as [acts r]. cbn in Hq. subst r. reflexivity.
  - destruct (truthy (get_or_none "scroll_top" event)) eqn:E; [| apply succeeds_ret].
    rewrite (truthy_get_item _ _ E).
    eapply succeeds_lift_bind; [reflexivity |].
    apply succeeds_simulate_scroll; auto.
  - destruct (truthy (get_or_none "mouse_position" event)) eqn:E; [| apply succeeds_ret].
    rewrite (truthy_get_item _ _ E).
    unfold get_or_none in *.
    destruct (dict_get "mouse_position" event) as [position |]; [| discriminate].
    rewrite E in Hm. cbn in Hm. apply andb_prop in Hm as [H0 H1].
    eapply succeeds_lift_bind; [reflexivity |].
    destruct (getitem_int position 0) as [x |]; [| discriminate].
    eapply succeeds_lift_bind; [reflexivity |].
    eapply succeeds_lift_bind; [reflexivity |].
    destruct (getitem_int position 1) as [y |]; [| discriminate].
    eapply succeeds_lift_bind; [reflexivity |].
    apply succeeds_call; auto.
  - unfold event_time in Ht. rewrite (int_get_item _ _ Ht), (mem_get_item _ _ Hp).
    eapply succeeds_lift_bind; [reflexivity |].
    eapply succeeds_lift_bind; [reflexivity |].
    apply succeeds_ret.
Qed.

Lemma succeeds_loop self static exec items : forall lt ll,
  gentle (UserSimulation.driver self) ->
  quiet exec ->
  forallb (fun item => replayable (snd item)) items = true ->
  match static with
  | Some seconds => sleep_fits seconds = true
  | None =>
      exists l times,
        as_int lt = Some l /\ times_of items = Some times
        /\ forallb sleep_fits (delays_from l times) = true
  end ->
  succeeds (UserSimulation.loop self static exec items lt ll).
Proof.
  induction items as [| [n event] rest IH]; intros lt ll Hd Hq Hr Hs;
    cbn [UserSimulation.loop].
  - apply succeeds_ret.
  - cbn [forallb snd] in Hr. apply andb_prop in Hr as [Hr Hrest].
    eapply succeeds_bind.
    + apply succeeds_loop_body; auto.
      destruct static as [s |]; [exact Hs |].
      destruct Hs as (l & times & Hl & Ht & Hfit). cbn [times_of] in Ht.
      destruct (as_int (event_time event)) as [t |]; [| discriminate].
      destruct (times_of rest) as [ts |]; [| discriminate].
      injection Ht as <-. cbn [delays_from forallb] in Hfit.
      apply andb_prop in Hfit as [Hfit _]. eauto.
    + apply loop_body_returns.
    + intros st ->. cbn [fst snd]. apply IH; auto.
      destruct static as [s |]; [exact Hs |].
      destruct Hs as (l & times & Hl & Ht & Hfit). cbn [times_of] in Ht.
      destruct (as_int (event_time event)) as [t |] eqn:Het; [| discriminate].
      destruct (times_of rest) as [ts |]; [| discriminate].
      injection Ht as <-. cbn [delays_from forallb] in Hfit.
      apply andb_prop in Hfit as [_ Hfit]. exists t, ts. auto.
Qed.

(** ** The steps of a run *)

Section StepObservation.
Context (f : Browser.action -> list step).
Hypothesis f_sleep : forall seconds, f (Browser.Sleep seconds) = [Wait seconds].
Hypothesis f_call : forall c o, f (Browser.Call c o) = [Ask c].
Hypothesis f_print : forall line, f (Browser.Print line) = [].

Lemma observes_delay_steps static event lt ll :
  observes f
    (match static with
     | None =>
         next_event_in <~ lift
           (time <- dict_item "time" event ;; sub time lt) ;;
         negative <~ lift (lt_zero next_event_in) ;;
         let next_event_in := if negative : bool then Int 3 else next_event_in in
         Browser.sleep_value next_event_in
     | Some seconds => Browser.sleep seconds
     end)
    (map Wait (body_delay static event lt ll)).
Proof.
  assert (Hsleep : forall z,
    observes f (Browser.sleep z) (map Wait (if z <? 0 then [] else [z]))).
  { intros z. pose proof (observes_sleep f z) as H. rewrite f_sleep in H.
    destruct (z <? 0); exact H. }
  unfold body_delay. destruct static as [s |]; [apply Hsleep |].
  apply observes_lift_bind. intros d Hd.
  destruct (dict_item "time" event) as [time |] eqn:Ht; cbn [bind] in Hd; [| discriminate].
  unfold event_time. rewrite (dict_item_get _ _ _ Ht).
  unfold sub in Hd.
  destruct (as_int time) as [t |]; [| discriminate].
  destruct (as_int lt) as [l |]; [| discriminate].
  injection Hd as <-.
  apply observes_lift_bind. intros neg [= <-].
  replace (Browser.sleep_value (if t - l <? 0 then Int 3 else Int (t - l)))
    with (Browser.sleep (clamp (t - l)))
    by (unfold clamp; destruct (t - l <? 0); reflexivity).
  pose proof (Hsleep (clamp (t - l))) as H.
  pose proof (clamp_nonneg (t - l)).
  destruct (Z.ltb_spec (clamp (t - l)) 0); [lia | exact H].
Qed.

Lemma observes_navigation_steps self event ll :
  observes f
    (page <~ lift (dict_item "page" event) ;;
     if ne ll page
     then
       page <~ lift (dict_item "page" event) ;;
       Browser.call (UserSimulation.driver self) (Browser.get page)
     else ret tt)
    (map Ask (navigation_of event ll)).
Proof.
  unfold navigation_of.
  apply observes_lift_bind. intros page Hp.
  unfold event_page. rewrite (dict_item_get _ _ _ Hp).
  destruct (ne ll page).
  - apply observes_lift_bind. intros page' Hp'.
    rewrite Hp in Hp'. injection Hp' as <-.
    apply observes_call. intros o. apply f_call.
  - apply observes_ret.
Qed.

Lemma observes_scroll_steps self event :
  observes f
    (if truthy (get_or_none "scroll_top" event)
     then
       pixels <~ lift (dict_item "scroll_top" event) ;;
       Controls.simulate_scroll (UserSimulation.driver self) pixels
     else ret tt)
    (map Ask (scroll_of event)).
Proof.
  unfold scroll_of. cbv zeta. destruct (truthy _); [| apply observes_ret].
  apply observes_lift_bind. intros px Hpx.
  rewrite (dict_item_get _ _ _ Hpx).
  intros w.
  unfold Controls.simulate_scroll, Browser.try_except_JavascriptException,
    Browser.call, Browser.print.
  destruct (UserSimulation.driver self w (Browser.execute_script_scrollTo px)) as [e |].
  - destruct e; cbn;
      try (eexists [_]; cbn; rewrite f_call;
           split; [reflexivity | split; [apply prefix_refl | discriminate]]).
    eexists [_; _]. rewrite <- app_assoc. cbn. rewrite f_call, f_print.
    split; [reflexivity | split; [apply prefix_refl | reflexivity]].
  - eexists [_]. cbn. rewrite f_call.
    split; [reflexivity | split; [apply prefix_refl | reflexivity]].
Qed.

Lemma observes_click_steps self event :
  observes f
    (if truthy (get_or_none "mouse_position" event)
     then
       mouse_position <~ lift (dict_item "mouse_position" event) ;;
       x <~ lift (getitem_int mouse_position 0) ;;
       mouse_position <~ lift (dict_item "mouse_position" event) ;;
       y <~ lift (getitem_int mouse_position 1) ;;
       Controls.simulate_click (UserSimulation.driver self) x y
     else ret tt)
    (map Ask (click_of event)).
Proof.
  unfold click_of. cbv zeta. destruct (truthy _); [| apply observes_ret].
  apply observes_lift_bind. intros mp Hmp.
  rewrite (dict_item_get _ _ _ Hmp).
  apply observes_lift_bind. intros x Hx. rewrite Hx.
  apply observes_lift_bind. intros mp' Hmp'.
  rewrite Hmp in Hmp'. injection Hmp' as <-.
  apply observes_lift_bind. intros y Hy. rewrite Hy.
  apply observes_call. intros o. apply f_call.
Qed.

(** One turn of the loop, given what the handler adds. *)
Lemma observes_body_steps self static exec n event lt ll E :
  observes f
    (match exec with
     | UserSimulation.Callable g => UserSimulation.call_custom g n event self ll lt
     | _ =>
         page <~ lift (dict_item "page" event) ;;
         if ne ll page
         then
           page <~ lift (dict_item "page" event) ;;
           Browser.call (UserSimulation.driver self) (Browser.get page)
         else ret tt
     end) (map Ask E) ->
  observes f (UserSimulation.loop_body self static exec n event lt ll)
    (map Wait (body_delay static event lt ll)
     ++ map Ask (E ++ scroll_of event ++ click_of event)).
Proof.
  intros Hexec. rewrite !map_app. unfold UserSimulation.loop_body.
  apply observes_seq; [apply observes_delay_steps |].
  apply observes_seq; [exact Hexec |].
  apply observes_seq; [apply observes_scroll_steps |].
  rewrite <- (app_nil_r (map Ask (click_of event))).
  apply observes_seq; [apply observes_click_steps |].
  do 2 (apply observes_lift_bind; intros ? _).
  apply observes_ret.
Qed.

End StepObservation.

Lemma observes_schedule self static exec :
  observes step_of (UserSimulation.perform_simulation self static exec)
    (schedule static exec self).
Proof.
  apply (observes_perform_simulation step_of self static exec).
  intros n event lt ll. unfold body_steps, body_commands.
  apply observes_body_steps; try reflexivity.
  destruct exec as [| g |].
  - apply observes_navigation_steps. reflexivity.
  - apply observes_call_custom. reflexivity.
  - apply observes_navigation_steps. reflexivity.
Qed.

Lemma sleeps_of_steps (new : Browser.world) :
  sleeps new
  = flat_map (fun s => match s with Wait seconds => [seconds] | Ask _ => [] end)
      (flat_map step_of new).
Proof.
  unfold sleeps. induction new as [| a new IH]; [reflexivity |].
  cbn [flat_map]. rewrite flat_map_app, <- IH. destruct a; reflexivity.
Qed.

Lemma waits_of_turns exec items : forall ll delays,
  length delays = length items ->
  flat_map (fun s => match s with Wait seconds => [seconds] | Ask _ => [] end)
    (concat (turns exec ll delays items))
  = delays.
Proof.
  induction items as [| [n event] rest IH]; intros ll [| d delays] Hl;
    try discriminate Hl; [reflexivity |].
  cbn [turns concat]. rewrite flat_map_app. cbn [flat_map app].
  rewrite IH by (cbn in Hl; lia). f_equal.
  induction (body_commands exec event ll) as [| c cs IHc]; [reflexivity | exact IHc].
Qed.

Lemma loop_E_turns_fixed exec seconds items : forall lt ll,
  sleep_fits seconds = true ->
  loop_E (body_steps (Some seconds) exec) items lt ll
  = concat (turns exec ll (repeat seconds (length items)) items).
Proof.
  induction items as [| [n event] rest IH]; intros lt ll Hs; [reflexivity |].
  cbn [loop_E length repeat turns concat]. rewrite IH by exact Hs.
  unfold body_steps, body_delay, sleep_fits in *.
  apply andb_prop in Hs as [Hs _]. apply Z.leb_le in Hs.
  destruct (Z.ltb_spec seconds 0); [lia | reflexivity].
Qed.

Lemma loop_E_turns_recorded exec items : forall lt ll l times,
  times_of items = Some times ->
  as_int lt = Some l ->
  loop_E (body_steps None exec) items lt ll
  = concat (turns exec ll (delays_from l times) items).
Proof.
  induction items as [| [n event] rest IH]; intros lt ll l times Ht Hl;
    cbn [times_of] in Ht.
  - injection Ht as <-. reflexivity.
  - destruct (as_int (event_time event)) as [t |] eqn:Het; [| discriminate].
    destruct (times_of rest) as [ts |] eqn:Hts; [| discriminate].
    injection Ht as <-.
    cbn [loop_E delays_from turns concat].
    rewrite (IH (event_time event) (event_page event) t ts eq_refl Het).
    unfold body_steps, body_delay. rewrite Het, Hl. reflexivity.
Qed.

Lemma times_of_replayable items :
  forallb (fun item => replayable (snd item)) items = true ->
  exists times, times_of items = Some times /\ length times = length items.
Proof.
  induction items as [| [n event] rest IH]; intros H; [exists []; auto |].
  cbn [forallb snd] in H. apply andb_prop in H as [Hr H].
  destruct (IH H) as (ts & Hts & Hl).
  unfold replayable in Hr. apply andb_prop in Hr as [Hr _].
  apply andb_prop in Hr as [Hr _]. unfold isinstance_int in Hr.
  cbn [times_of]. rewrite Hts.
  destruct (as_int (event_time event)) as [t |]; [| discriminate].
  exists (t :: ts). cbn. auto.
Qed.

Lemma delays_from_length times : forall previous,
  length (delays_from previous times) = length times.
Proof.
  induction times as [| t ts IH]; intros previous; [reflexivity |].
  cbn. rewrite IH. reflexivity.
Qed.

Lemma delays_of_length static items :
  forallb (fun item => replayable (snd item)) items = true ->
  length (delays_of static items) = length items.
Proof.
  intros H. unfold delays_of. destruct static as [s |]; [apply repeat_length |].
  destruct (times_of_replayable _ H) as (times & -> & Hl).
  unfold recorded_delays. rewrite delays_from_length. exact Hl.
Qed.

(** A run on events the loop can process, with a driver whose only
    failures are the swallowed ones, a handler that does not raise and
    durations that [time.sleep] accepts, returns, and its steps are the
    turns of the events. *)
Lemma run_completes events chrome self static exec w :
  UserSimulation.__init__ events chrome = Ok self ->
  gentle chrome ->
  quiet exec ->
  forallb (fun item => replayable (snd item)) events = true ->
  forallb sleep_fits (delays_of static events) = true ->
  exists new,
    UserSimulation.perform_simulation self static exec w = (w ++ new, Ok tt)
    /\ flat_map step_of new
       = concat (turns exec None_ (delays_of static events) events).
Proof.
  intros Hinit Hd Hq Hr Hfit.
  destruct (init_ok _ _ _ Hinit) as (n & event & rest & -> & ->).
  set (events := (n, event) :: rest) in *.
  set (self := UserSimulation.Build events event chrome).
  destruct (times_of_replayable _ Hr) as (times & Ht & _).
  assert (Het : exists t ts, as_int (event_time event) = Some t /\ times = t :: ts).
  { subst events. cbn [times_of] in Ht.
    destruct (as_int (event_time event)) as [t |]; [| discriminate].
    destruct (times_of rest) as [ts |]; [| discriminate].
    injection Ht as <-. eauto. }
  destruct Het as (t & ts & Het & ->).
  assert (Hitem : dict_item "time" event = Ok (event_time event)).
  { apply int_get_item. unfold isinstance_int, event_time in *. rewrite Het. reflexivity. }
  assert (Hok : succeeds (UserSimulation.perform_simulation self static exec)).
  { unfold UserSimulation.perform_simulation. cbn [UserSimulation.first_event self].
    rewrite Hitem. eapply succeeds_lift_bind; [reflexivity |].
    apply succeeds_loop; auto.
    unfold delays_of in Hfit. destruct static as [s |].
    - subst events. cbn [length repeat forallb] in Hfit.
      apply andb_prop in Hfit as [Hfit _]. exact Hfit.
    - rewrite Ht in Hfit. exists t, (t :: ts). auto. }
  assert (Hsched : schedule static exec self
                   = concat (turns exec None_ (delays_of static events) events)).
  { unfold schedule, delays_of. cbn [UserSimulation.events UserSimulation.first_event self].
    destruct static as [s |].
    - apply loop_E_turns_fixed. subst events. cbn [length repeat forallb] in Hfit.
      apply andb_prop in Hfit as [Hfit _]. exact Hfit.
    - rewrite Ht. apply (loop_E_turns_recorded exec events _ None_ t (t :: ts) Ht Het). }
  destruct (observes_schedule self static exec w) as (new & Hw & _ & Heq).
  specialize (Hok w). exists new.
  destruct (UserSimulation.perform_simulation self static exec w) as [w' [[] | e]];
    cbn [fst snd is_ok] in *; [| discriminate].
  subst w'. split; [reflexivity |]. rewrite <- Hsched. apply Heq. reflexivity.
Qed.

(** ** The claims on the replay *)

(** C5 (amended).  With the default handler and whatever the driver does,
    the pages the run asks the driver to load are, in order, the pages of
    the events whose page differs ([!=]) from the previous one, the
    previous page of the first event being [None]: all of them when the
    run returns, a prefix when an exception ends it.  So the first event
    is navigated to exactly when its page is not [None], in particular
    whenever it is a string, and between strings [!=] is exact inequality.
    When the run can complete (events the loop can process, durations
    that [time.sleep] accepts, a driver whose only failures are the
    swallowed ones) it returns and its steps are one turn per event: the
    suspend, then the navigation to the page of that event exactly when it
    differs from the page of the event before, then the scroll and the
    click of that event. *)
Theorem default_handler_navigations (self : UserSimulation.t) (static : option Z)
  (w : Browser.world) :
  (exists new,
     fst (UserSimulation.perform_simulation self static UserSimulation.NoFunction w)
     = w ++ new
     /\ prefix (navigations new)
          (navigations_from None_ (pages (UserSimulation.events self)))
     /\ (is_ok (snd (UserSimulation.perform_simulation self static
                       UserSimulation.NoFunction w)) = true ->
         navigations new
         = navigations_from None_ (pages (UserSimulation.events self)))) /\
  (forall page rest,
     navigations_from None_ (page :: rest)
     = (match page with None_ => [] | _ => [page] end) ++ navigations_from page rest) /\
  (forall a b, ne (Str a) (Str b) = true <-> a <> b) /\
  (forall events chrome,
     UserSimulation.__init__ events chrome = Ok self ->
     gentle chrome ->
     forallb (fun item => replayable (snd item)) events = true ->
     forallb sleep_fits (delays_of static events) = true ->
     exists new,
       UserSimulation.perform_simulation self static UserSimulation.NoFunction w
       = (w ++ new, Ok tt)
       /\ length (delays_of static events) = length events
       /\ flat_map step_of new
          = concat (turns UserSimulation.NoFunction None_
                      (delays_of static events) events)) /\
  (forall previous_page delay delays n event rest,
     turns UserSimulation.NoFunction previous_page (delay :: delays)
       ((n, event) :: rest)
     = (Wait delay
        :: (if ne previous_page (event_page event)
            then [Ask (Browser.get (event_page event))]
            else [])
        ++ map Ask (scroll_of event) ++ map Ask (click_of event))
       :: turns UserSimulation.NoFunction (event_page event) delays rest).
Proof.
  split; [| split; [| split; [| split]]].
  - pose proof (observes_perform_simulation navigation self static
                  UserSimulation.NoFunction _
                  (fun n event lt ll => observes_navigation_body self static n event lt ll) w)
      as H.
    rewrite loop_E_navigations in H. exact H.
  - intros page rest. cbn [navigations_from]. destruct page; reflexivity.
  - intros a b. unfold ne. cbn. destruct (String.eqb_spec a b); cbn; split; congruence.
  - intros events chrome Hinit Hd Hr Hfit.
    destruct (run_completes events chrome self static UserSimulation.NoFunction w
                Hinit Hd I Hr Hfit) as (new & Hrun & Hsteps).
    exists new. split; [exact Hrun |]. split; [| exact Hsteps].
    apply delays_of_length, Hr.
  - intros previous_page delay delays n event rest.
    cbn [turns]. unfold body_commands, navigation_of.
    rewrite !map_app. destruct (ne previous_page (event_page event)); reflexivity.
Qed.

Lemma default_handler_navigations_witness :
  exists new,
    UserSimulation.perform_simulation
      (UserSimulation.Build recorded_events
         (replay_event 100 (Str "https://x/p1") (Int 50) None_) working_driver)
      None UserSimulation.NoFunction []
    = ([] ++ new, Ok tt)
    /\ length (delays_of None recorded_events) = length recorded_events
    /\ flat_map step_of new
       = concat (turns UserSimulation.NoFunction None_
                   (delays_of None recorded_events) recorded_events).
Proof.
  apply (proj1 (proj2 (proj2 (proj2
           (default_handler_navigations
              (UserSimulation.Build recorded_events
                 (replay_event 100 (Str "https://x/p1") (Int 50) None_)
                 working_driver)
              None [])))) recorded_events working_driver).
  - reflexivity.
  - intros w c e. discriminate.
  - reflexivity.
  - reflexivity.
Defined.

(** C6.  Whatever the driver and the handler do, the durations the run
    sleeps for are, in order, the expected delays: all of them when the
    run returns, a prefix when an exception ends it.  With a fixed delay
    the expected delay before every event is that value, whatever the
    recorded times; with recorded timing and integer times the delay
    before event [i + 1] is the time of that event minus the time of
    event [i], replaced by 3 when negative.  When the run can complete
    (events the loop can process, a handler that does not raise, a driver
    whose only failures are the swallowed ones, durations that
    [time.sleep] accepts) it returns, a negative difference included, and
    its steps are one turn per event in which the suspend comes first,
    before the driver calls of that event. *)
Theorem replay_delays (events : Events.stream) (chrome : Browser.driver)
  (self : UserSimulation.t) (exec : UserSimulation.execute_function_arg)
  (w : Browser.world) :
  UserSimulation.__init__ events chrome = Ok self ->
  (forall seconds,
     0 <= seconds ->
     exists new,
       fst (UserSimulation.perform_simulation self (Some seconds) exec w) = w ++ new
       /\ prefix (sleeps new) (repeat seconds (length events))
       /\ (is_ok (snd (UserSimulation.perform_simulation self (Some seconds) exec w))
           = true ->
           sleeps new = repeat seconds (length events))) /\
  (forall times,
     times_of events = Some times ->
     (exists new,
        fst (UserSimulation.perform_simulation self None exec w) = w ++ new
        /\ prefix (sleeps new) (recorded_delays times)
        /\ (is_ok (snd (UserSimulation.perform_simulation self None exec w)) = true ->
            sleeps new = recorded_delays times)) /\
     (forall i time time',
        nth_error times i = Some time ->
        nth_error times (S i) = Some time' ->
        nth_error (recorded_delays times) (S i)
        = Some (if time' - time <? 0 then 3 else time' - time))) /\
  (gentle chrome ->
   quiet exec ->
   forallb (fun item => replayable (snd item)) events = true ->
   (forall seconds,
      sleep_fits seconds = true ->
      exists new,
        UserSimulation.perform_simulation self (Some seconds) exec w
        = (w ++ new, Ok tt)
        /\ sleeps new = repeat seconds (length events)
        /\ flat_map step_of new
           = concat (turns exec None_ (repeat seconds (length events)) events)) /\
   (forall times,
      times_of events = Some times ->
      forallb sleep_fits (recorded_delays times) = true ->
      exists new,
        UserSimulation.perform_simulation self None exec w = (w ++ new, Ok tt)
        /\ sleeps new = recorded_delays times
        /\ flat_map step_of new
           = concat (turns exec None_ (recorded_delays times) events))) /\
  (forall previous_page delay delays n event rest,
     turns exec previous_page (delay :: delays) ((n, event) :: rest)
     = (Wait delay :: map Ask (body_commands exec event previous_page))
       :: turns exec (event_page event) delays rest).
Proof.
  intros Hinit.
  pose proof Hinit as Hinit'.
  destruct (init_ok _ _ _ Hinit) as (n & event & rest & -> & ->).
  split; [| split; [| split]].
  - intros seconds Hs.
    pose proof (observes_perform_simulation sleeping
                  (UserSimulation.Build ((n, event) :: rest) event chrome)
                  (Some seconds) exec _ (observes_sleep_body _ (Some seconds) exec) w)
      as H.
    cbn [UserSimulation.events UserSimulation.first_event] in H.
    rewrite loop_E_fixed in H by exact Hs. exact H.
  - intros times Ht. split.
    + pose proof (observes_perform_simulation sleeping
                    (UserSimulation.Build ((n, event) :: rest) event chrome)
                    None exec _ (observes_sleep_body _ None exec) w) as H.
      cbn [UserSimulation.events UserSimulation.first_event] in H.
      pose proof Ht as Ht'. cbn [times_of] in Ht'.
      destruct (as_int (event_time event)) as [t |] eqn:Het; [| discriminate].
      destruct (times_of rest) as [ts |] eqn:Hts; [| discriminate].
      injection Ht' as <-.
      rewrite (loop_E_recorded ((n, event) :: rest) _ None_ t (t :: ts) Ht Het) in H.
      exact H.
    + intros i time time' H H'. apply (delays_from_nth _ _ _ _ _ H H').
  - intros Hd Hq Hr. split.
    + intros seconds Hs.
      destruct (run_completes _ chrome _ (Some seconds) exec w Hinit' Hd Hq Hr)
        as (new & Hrun & Hsteps).
      { cbn [delays_of]. apply forallb_forall. intros d Hin.
        apply repeat_spec in Hin. subst d. exact Hs. }
      cbn [delays_of] in Hsteps.
      exists new. split; [exact Hrun |]. split; [| exact Hsteps].
      rewrite sleeps_of_steps, Hsteps. apply waits_of_turns, repeat_length.
    + intros times Ht Hfit.
      destruct (run_completes _ chrome _ None exec w Hinit' Hd Hq Hr)
        as (new & Hrun & Hsteps).
      { unfold delays_of. rewrite Ht. exact Hfit. }
      unfold delays_of in Hsteps. rewrite Ht in Hsteps.
      exists new. split; [exact Hrun |]. split; [| exact Hsteps].
      rewrite sleeps_of_steps, Hsteps. apply waits_of_turns.
      unfold recorded_delays. rewrite delays_from_length.
      destruct (times_of_replayable _ Hr) as (times' & Ht' & Hl).
      rewrite Ht in Ht'. injection Ht' as <-. exact Hl.
  - reflexivity.
Qed.

Lemma replay_delays_witness :
  exists new,
    UserSimulation.perform_simulation
      (UserSimulation.Build recorded_events
         (replay_event 100 (Str "https://x/p1") (Int 50) None_) working_driver)
      None UserSimulation.NoFunction []
    = ([] ++ new, Ok tt)
    /\ sleeps new = recorded_delays [100; 103; 99]
    /\ flat_map step_of new
       = concat (turns UserSimulation.NoFunction None_
                   (recorded_delays [100; 103; 99]) recorded_events).
Proof.
  destruct (replay_delays recorded_events working_driver
              (UserSimulation.Build recorded_events
                 (replay_event 100 (Str "https://x/p1") (Int 50) None_)
                 working_driver)
              UserSimulation.NoFunction [] eq_refl) as (_ & _ & H & _).
  destruct H as [_ H].
  - intros w c e. discriminate.
  - exact I.
  - reflexivity.
  - apply (H [100; 103; 99]); reflexivity.
Defined.

(** C9 (amended).  [simulate_scroll] catches [JavascriptException], prints
    the log line and returns; an exception of any other class leaves it.
    In every replay, a driver call or custom handler that raised is either
    such a caught scroll failure, followed in the trace by the log line,
    or the last action of the run, whose exception is the one
    [perform_simulation] raises.  With a driver whose only failures are
    caught scroll failures, a handler that does not raise, events the loop
    can process and durations that [time.sleep] accepts, the run returns
    and performs every turn of every event: after a caught scroll failure
    it goes on with the click of that event and with the events that
    follow. *)
Theorem scroll_failures_are_swallowed :
  (forall d pixels w,
     Controls.simulate_scroll d pixels w
     = match d w (Browser.execute_script_scrollTo pixels) with
       | None =>
           (w ++ [Browser.Call (Browser.execute_script_scrollTo pixels) None], Ok tt)
       | Some JavascriptException =>
           (w ++ [Browser.Call (Browser.execute_script_scrollTo pixels)
                    (Some JavascriptException);
                  Browser.Print scroll_failure_message], Ok tt)
       | Some e =>
           (w ++ [Browser.Call (Browser.execute_script_scrollTo pixels) (Some e)],
            Raise e)
       end) /\
  (forall self static exec w,
     exists new,
       fst (UserSimulation.perform_simulation self static exec w) = w ++ new
       /\ forall pre a e post,
            new = pre ++ a :: post ->
            failure a = Some e ->
            if is_swallowed a
            then exists post', post = Browser.Print scroll_failure_message :: post'
            else post = []
                 /\ snd (UserSimulation.perform_simulation self static exec w)
                    = Raise e) /\
  (forall events chrome self static exec w,
     UserSimulation.__init__ events chrome = Ok self ->
     gentle chrome ->
     quiet exec ->
     forallb (fun item => replayable (snd item)) events = true ->
     forallb sleep_fits (delays_of static events) = true ->
     exists new,
       UserSimulation.perform_simulation self static exec w = (w ++ new, Ok tt)
       /\ flat_map step_of new
          = concat (turns exec None_ (delays_of static events) events)) /\
  (forall exec previous_page delay delays n event rest,
     turns exec previous_page (delay :: delays) ((n, event) :: rest)
     = (Wait delay
        :: map Ask (match exec with
                    | UserSimulation.Callable _ => []
                    | _ => navigation_of event previous_page
                    end)
        ++ map Ask (scroll_of event) ++ map Ask (click_of event))
       :: turns exec (event_page event) delays rest).
Proof.
  split; [| split; [| split]].
  - intros d pixels w.
    unfold Controls.simulate_scroll, Browser.try_except_JavascriptException,
      Browser.call, Browser.print.
    destruct (d w (Browser.execute_script_scrollTo pixels)) as [e |]; [| reflexivity].
    destruct e; try reflexivity. rewrite <- app_assoc. reflexivity.
  - intros self static exec w.
    destruct (emits_handled_perform_simulation self static exec w) as (new & Hw & H).
    exists new. split; [exact Hw |].
    intros pre a e post Hnew Ha.
    pose proof (handled_split _ _ H pre a e post Hnew Ha) as Hs.
    destruct (is_swallowed a); [exact Hs |].
    destruct Hs as [-> Hr]. split; [reflexivity |].
    destruct (snd (UserSimulation.perform_simulation self static exec w));
      cbn in Hr; congruence.
  - intros events chrome self static exec w. apply run_completes.
  - intros exec previous_page delay delays n event rest.
    cbn [turns]. unfold body_commands. rewrite !map_app. reflexivity.
Qed.

Lemma scroll_failing_driver_gentle : gentle scroll_failing_driver.
Proof.
  intros w c e. unfold scroll_failing_driver.
  destruct c; intros [= <-]. reflexivity.
Qed.

Lemma scroll_failures_are_swallowed_witness :
  exists new,
    UserSimulation.perform_simulation
      (UserSimulation.Build recorded_events
         (replay_event 100 (Str "https://x/p1") (Int 50) None_)
         scroll_failing_driver)
      None UserSimulation.NoFunction []
    = ([] ++ new, Ok tt)
    /\ flat_map step_of new
       = concat (turns UserSimulation.NoFunction None_
                   (delays_of None recorded_events) recorded_events).
Proof.
  apply (proj1 (proj2 (proj2 scroll_failures_are_swallowed)) recorded_events
           scroll_failing_driver).
  - reflexivity.
  - exact scroll_failing_driver_gentle.
  - exact I.
  - reflexivity.
  - reflexivity.
Defined.

(** The run on times 100, 103, 99 and pages p1, p1, p2: delays 0, 3, 3;
    one navigation to p1 at the first event and one to p2 at the third. *)
Example recorded_run :
  UserSimulation.perform_simulation
    (UserSimulation.Build recorded_events
       (replay_event 100 (Str "https://x/p1") (Int 50) None_) working_driver)
    None UserSimulation.NoFunction []
  = ([Browser.Sleep 0;
      Browser.Call (Browser.get (Str "https://x/p1")) None;
      Browser.Call (Browser.execute_script_scrollTo (Int 50)) None;
      Browser.Sleep 3;
      Browser.Call (Browser.perform_click (Int 10) (Int 20)) None;
      Browser.Sleep 3;
      Browser.Call (Browser.get (Str "https://x/p2")) None;
      Browser.Call (Browser.execute_script_scrollTo (Int 70)) None],
     Ok tt)
  /\ turns UserSimulation.NoFunction None_ (delays_of None recorded_events)
       recorded_events
     = [[Wait 0; Ask (Browser.get (Str "https://x/p1"));
         Ask (Browser.execute_script_scrollTo (Int 50))];
        [Wait 3; Ask (Browser.perform_click (Int 10) (Int 20))];
        [Wait 3; Ask (Browser.get (Str "https://x/p2"));
         Ask (Browser.execute_script_scrollTo (Int 70))]].
Proof. split; reflexivity. Qed.

(** A fixed delay of 2 seconds on the same stream. *)
Example fixed_delay_run :
  sleeps (fst (UserSimulation.perform_simulation
                 (UserSimulation.Build recorded_events
                    (replay_event 100 (Str "https://x/p1") (Int 50) None_)
                    working_driver)
                 (Some 2) UserSimulation.NoFunction []))
  = [2; 2; 2]
  /\ times_of recorded_events = Some [100; 103; 99]
  /\ recorded_delays [100; 103; 99] = [0; 3; 3].
Proof. repeat split. Qed.

(** The same stream with a driver whose scroll script fails with
    [JavascriptException]: each failure is logged, and the click and the
    following events are replayed. *)
Example scroll_failing_run :
  UserSimulation.perform_simulation
    (UserSimulation.Build recorded_events
       (replay_event 100 (Str "https://x/p1") (Int 50) None_) scroll_failing_driver)
    None UserSimulation.NoFunction []
  = ([Browser.Sleep 0;
      Browser.Call (Browser.get (Str "https://x/p1")) None;
      Browser.Call (Browser.execute_script_scrollTo (Int 50)) (Some JavascriptException);
      Browser.Print scroll_failure_message;
      Browser.Sleep 3;
      Browser.Call (Browser.perform_click (Int 10) (Int 20)) None;
      Browser.Sleep 3;
      Browser.Call (Browser.get (Str "https://x/p2")) None;
      Browser.Call (Browser.execute_script_scrollTo (Int 70)) (Some JavascriptException);
      Browser.Print scroll_failure_message],
     Ok tt).
Proof. reflexivity. Qed.

(** A delay that does not fit the clock: [time.sleep] raises
    [OverflowError] and nothing is replayed. *)
Example overlong_delay_run :
  UserSimulation.perform_simulation
    (UserSimulation.Build recorded_events
       (replay_event 100 (Str "https://x/p1") (Int 50) None_) working_driver)
    (Some (Browser.max_sleep + 1)) UserSimulation.NoFunction []
  = ([], Raise (OverflowError "timestamp too large to convert to C _PyTime_t")).
Proof. reflexivity. Qed.

(** C5 (counterexample).  The page of the first event is absent: the run
    returns and never asks the driver to load a page. *)
Lemma first_event_without_page_does_not_navigate :
  UserSimulation.__init__ pageless_events working_driver
    = Ok (UserSimulation.Build pageless_events
            (replay_event 100 None_ (Int 50) None_) working_driver)
  /\ UserSimulation.perform_simulation
       (UserSimulation.Build pageless_events
          (replay_event 100 None_ (Int 50) None_) working_driver)
       None UserSimulation.NoFunction []
     = ([Browser.Sleep 0;
         Browser.Call (Browser.execute_script_scrollTo (Int 50)) None],
        Ok tt)
  /\ navigations
       [Browser.Sleep 0;
        Browser.Call (Browser.execute_script_scrollTo (Int 50)) None]
     = [].
Proof. repeat split. Qed.

(** C9 (counterexample).  The scroll script fails at the browser with an
    exception of another class than [JavascriptException]: nothing is
    logged, the exception leaves [perform_simulation] and the events that
    follow are not replayed. *)
Lemma scroll_failure_of_another_class_aborts :
  scroll_crashing_driver
    [Browser.Sleep 0; Browser.Call (Browser.get (Str "https://x/p1")) None]
    (Browser.execute_script_scrollTo (Int 50))
  = Some (DriverException "NoSuchWindowException")
  /\ UserSimulation.perform_simulation
       (UserSimulation.Build recorded_events
          (replay_event 100 (Str "https://x/p1") (Int 50) None_)
          scroll_crashing_driver)
       None UserSimulation.NoFunction []
     = ([Browser.Sleep 0;
         Browser.Call (Browser.get (Str "https://x/p1")) None;
         Browser.Call (Browser.execute_script_scrollTo (Int 50))
           (Some (DriverException "NoSuchWindowException"))],
        Raise (DriverException "NoSuchWindowException"))
  /\ length recorded_events = 3%nat.
Proof. repeat split. Qed.

End ReplayFacts.

(* ===================================================================== *)
(** * More on [Events.parse]: the stream, its keys, parsing again         *)
(* ===================================================================== *)

Section ParseFacts.
Import Py.

Lemma run_parse_single s event :
  Events.run_parse [event] s =
  match canonical_event s event with
  | Ok pe => Ok [(1, pe)]
  | Raise e => Raise e
  end.
Proof.
  rewrite run_parse_spec. cbn [traverse].
  destruct (canonical_event s event); reflexivity.
Qed.

Lemma traverse_app {A B} (f : A -> result B) pre post :
  traverse f (pre ++ post)%list =
  (bs <- traverse f pre ;; cs <- traverse f post ;; Ok (bs ++ cs)%list).
Proof.
  induction pre as [| a pre IH]; cbn.
  - destruct (traverse f post); reflexivity.
  - destruct (f a); cbn; [| reflexivity]. rewrite IH.
    destruct (traverse f pre); cbn; [| reflexivity].
    destruct (traverse f post); reflexivity.
Qed.

(** X1.  When normalisation returns, the stream has one entry per record,
    its keys are 1, 2, ... in the order of the records, and entry [i + 1]
    is what normalising record [i] alone gives: no record influences the
    entry of another. *)
Theorem parse_returns_indexed_stream (events : list value) (s : Schema.t)
  (st : Events.stream) :
  Events.run_parse events s = Ok st ->
  length st = length events /\
  map fst st = indices 0 (length events) /\
  forall i event,
    nth_error events i = Some event ->
    exists pe,
      Events.run_parse [event] s = Ok [(1, pe)]
      /\ nth_error st i = Some (Z.of_nat i + 1, pe)
      /\ assoc_get Z.eqb (Z.of_nat i + 1) st = Some pe.
Proof.
  intros H. destruct (parse_ok_stream events s st H) as (Hl & Hk & Hall).
  split; [exact Hl |]. split; [exact Hk |].
  intros i event Hn. destruct (Hall i event Hn) as (pe & Hpe & Hi & Hg).
  exists pe. rewrite run_parse_single, Hpe. auto.
Qed.

Lemma parse_returns_indexed_stream_witness :
  length parsed_pair = length [nested_page_view; query_page_view] /\
  map fst parsed_pair = indices 0 (length [nested_page_view; query_page_view]) /\
  forall i event,
    nth_error [nested_page_view; query_page_view] i = Some event ->
    exists pe,
      Events.run_parse [event] example_schema = Ok [(1, pe)]
      /\ nth_error parsed_pair i = Some (Z.of_nat i + 1, pe)
      /\ assoc_get Z.eqb (Z.of_nat i + 1) parsed_pair = Some pe.
Proof.
  exact (parse_returns_indexed_stream [nested_page_view; query_page_view]
           example_schema parsed_pair eq_refl).
Defined.

(** X2.  Normalisation stops at the first record it cannot process: when
    the records before [bad] are normalised without error and [bad] alone
    raises [e], the whole list raises [e], whatever follows [bad]. *)
Theorem parse_raises_first_failure (s : Schema.t) (pre post : list value)
  (bad : value) (st : Events.stream) (e : exn) :
  Events.run_parse pre s = Ok st ->
  Events.run_parse [bad] s = Raise e ->
  Events.run_parse (pre ++ bad :: post)%list s = Raise e.
Proof.
  rewrite !run_parse_spec, traverse_app. cbn [traverse].
  destruct (traverse (canonical_event s) pre); [| discriminate]. intros _.
  cbn [bind]. destruct (canonical_event s bad); [discriminate |].
  intros [= ->]. reflexivity.
Qed.

Lemma parse_raises_first_failure_witness :
  Events.run_parse ([nested_page_view] ++ plain_page_view :: [query_page_view])%list
    example_schema = Raise TypeError.
Proof.
  exact (parse_raises_first_failure example_schema [nested_page_view]
           [query_page_view] plain_page_view _ TypeError eq_refl eq_refl).
Defined.

Lemma dict_set_set {V} k (v v' : V) d :
  dict_set k v' (dict_set k v d) = dict_set k v' d.
Proof.
  unfold dict_set.
  induction d as [| [k' w] d IH]; cbn.
  - rewrite String.eqb_refl. reflexivity.
  - destruct (String.eqb k k') eqn:E; cbn; rewrite ?String.eqb_refl, ?E, ?IH; auto.
Qed.

(** The parsed event written out. *)
Lemma canonical_event_explicit s event pe :
  canonical_event s event = Ok pe ->
  exists r q c props name time page,
    Schema.reproductive_data_key s = Some r
    /\ Schema.query_key s = Some q
    /\ getitem event "properties" = Ok (Dict props)
    /\ getitem event "event" = Ok name
    /\ source_container s props = Dict c
    /\ pe = assoc_remove String.eqb "query"
              (dict_set "page" page
                 (dict_set "time" time
                    (fill_dict c (active_fields s) [("name", name)]))).
Proof.
  unfold canonical_event. intros H.
  destruct event as [| | | | | d]; try discriminate H.
  cbn [getitem] in *. unfold dict_item in *.
  destruct (dict_get "properties" d) as [properties |]; cbn [bind] in H; [| discriminate].
  destruct (dict_get "event" d) as [name |]; cbn [bind] in H; [| discriminate].
  rewrite return_schema_eq in H.
  destruct (Schema.reproductive_data_key s) as [r |] eqn:Hr; cbn [bind] in H; [| discriminate].
  destruct properties as [| | | | | props]; try discriminate H.
  cbn [method_get bind] in H.
  rewrite active_get_time_key, active_get_page_key, active_get_query_key in H.
  unfold source_container, nested_value. rewrite Hr.
  set (nested := get_or_none r props) in *.
  destruct (Schema.query_key s) as [q |] eqn:Hq.
  2: { exfalso.
       destruct (Events.fill (if truthy nested then nested else Dict props)
                   (active_fields s) [("name", name)]) as [pe0 |] eqn:Hf;
         cbn [bind truthy_opt andb] in H; [| discriminate].
       unfold dict_pop in H.
       rewrite !dict_mem_set, (fill_mem _ _ _ _ _ Hf), active_fields_query, Hq in H.
       discriminate H. }
  assert (Hc : exists c, (if truthy nested then nested else Dict props) = Dict c).
  { destruct (truthy nested); [| eauto]. destruct nested; eauto.
    all: exfalso; destruct s as [r0 d0 sc m t p q0]; cbn in Hq; subst q0;
      unfold active_fields in H; cbn in H;
      destruct d0, sc, m, t, p; cbn in H; discriminate H. }
  destruct Hc as [c Hc]. rewrite Hc in H. rewrite fill_on_dict in H. cbn [bind] in H.
  exists r, q, c, props, name.
  set (pe0 := fill_dict c (active_fields s) [("name", name)]) in *.
  assert (Hm : dict_mem "query" pe0 = true).
  { unfold pe0. pose proof (fill_mem "query" (Dict c) (active_fields s)
                              [("name", name)] _ (fill_on_dict c _ _)) as Hm.
    rewrite Hm, active_fields_query, Hq. reflexivity. }
  destruct (truthy_opt (Some q) && _).
  - destruct (add _ _) as [page' |]; cbn [bind] in H; [| discriminate].
    rewrite dict_set_set in H. unfold dict_pop in H.
    rewrite !dict_mem_set, Hm in H. cbn in H. injection H as <-.
    do 2 eexists. repeat split; try reflexivity; exact Hc.
  - cbn [bind] in H. unfold dict_pop in H.
    rewrite !dict_mem_set, Hm in H. cbn in H. injection H as <-.
    do 2 eexists. repeat split; try reflexivity; exact Hc.
Qed.

Lemma canonical_event_keys s event pe :
  canonical_event s event = Ok pe -> expected_keys s pe.
Proof.
  intros H.
  destruct (canonical_event_explicit s event pe H)
    as (r & q & c & props & name & time & page & Hr & Hq & _ & _ & _ & ->).
  destruct s as [r0 d0 sc m t p q0]. cbn in Hr, Hq. subst r0 q0.
  unfold expected_keys, keys, event_fields, active_fields.
  destruct d0, sc, m, t, p; cbn;
    (split; [repeat constructor; cbn; intuition discriminate |]);
    (split; [intros k Hk; cbn in Hk |- *; intuition auto |]);
    repeat split.
Qed.

Lemma traverse_In {A B} (f : A -> result B) l : forall bs b,
  traverse f l = Ok bs -> In b bs -> exists a, In a l /\ f a = Ok b.
Proof.
  induction l as [| x l IH]; intros bs b H Hin; cbn in H.
  - injection H as <-. destruct Hin.
  - destruct (f x) as [y |] eqn:Hx; cbn in H; [| discriminate].
    destruct (traverse f l) as [bs' |]; cbn in H; [| discriminate].
    injection H as <-. destruct Hin as [<- | Hin].
    + exists x. split; [left; reflexivity | exact Hx].
    + destruct (IH bs' b eq_refl Hin) as (a & Ha & Hfa). exists a. split; [right |]; assumption.
Qed.

Lemma parsed_event_is_canonical events s st n pe :
  Events.run_parse events s = Ok st -> In (n, pe) st ->
  exists event, In event events /\ canonical_event s event = Ok pe.
Proof.
  rewrite run_parse_spec.
  destruct (traverse (canonical_event s) events) as [pes |] eqn:Ht; [| discriminate].
  intros [= <-] Hin. apply in_combine_r in Hin.
  apply (traverse_In _ _ _ _ Ht Hin).
Qed.

(** X4.  Every event of a stream that normalisation returns has exactly
    the expected keys: [name], [time] and [page] always (also when the
    schema has no key for them), each of [dimension], [scroll_top] and
    [mouse_position] exactly when the schema configures it, nothing else
    and nothing twice; in particular never [query]. *)
Theorem parsed_events_have_expected_keys (events : list value) (s : Schema.t)
  (st : Events.stream) (n : Z) (pe : dict) :
  Events.run_parse events s = Ok st ->
  In (n, pe) st ->
  expected_keys s pe.
Proof.
  intros H Hin.
  destruct (parsed_event_is_canonical _ _ _ _ _ H Hin) as (event & _ & Hc).
  apply (canonical_event_keys s event pe Hc).
Qed.

Lemma parsed_events_have_expected_keys_witness :
  expected_keys example_schema
    [("name", Str "Page viewed"); ("dimension", List_ [Int 320; Int 480]);
     ("scroll_top", None_); ("mouse_position", None_);
     ("time", Int 100); ("page", Str "https://x/a")].
Proof.
  apply (parsed_events_have_expected_keys [nested_page_view] example_schema
           _ 1 _ eq_refl).
  left. reflexivity.
Defined.

(** X5.  A stream normalised with a schema that has no [dimension_key]
    cannot be replayed: the constructor of [UserSimulation] raises
    [KeyError] for [dimension] on its first event, and [StopIteration]
    when the stream is empty. *)
Theorem replay_needs_dimension_key (events : list value) (s : Schema.t)
  (st : Events.stream) (chrome : Browser.driver) :
  Events.run_parse events s = Ok st ->
  Schema.dimension_key s = None ->
  UserSimulation.__init__ st chrome
  = Raise (match st with [] => StopIteration | _ => KeyError "dimension" end).
Proof.
  intros H Hd. destruct st as [| [n pe] st]; [reflexivity |].
  assert (Hk : expected_keys s pe).
  { destruct (parsed_event_is_canonical _ _ _ n pe H (or_introl eq_refl))
      as (event & _ & Hc).
    apply (canonical_event_keys s event pe Hc). }
  destruct Hk as (_ & _ & _ & _ & _ & Hdim & _). rewrite Hd in Hdim. cbn in Hdim.
  unfold UserSimulation.__init__, dict_item. cbn [bind].
  unfold dict_mem, assoc_mem in Hdim. unfold dict_get.
  destruct (assoc_get String.eqb "dimension" pe); [discriminate | reflexivity].
Qed.

Lemma replay_needs_dimension_key_witness :
  UserSimulation.__init__
    [(1, [("name", Str "Page viewed"); ("scroll_top", None_);
          ("mouse_position", None_); ("time", Int 100);
          ("page", Str "https://x/a")])]
    working_driver
  = Raise (KeyError "dimension").
Proof.
  exact (replay_needs_dimension_key [nested_page_view] no_dimension_schema _
           working_driver eq_refl eq_refl).
Defined.

End ParseFacts.

Section ParseAgainFacts.
Import Py.
Local Open Scope list_scope.

Lemma assoc_set_numbered (v : dict) (l : list dict) : forall start i,
  (i <= length l)%nat ->
  assoc_set Z.eqb (start + Z.of_nat i + 1) v (combine (indices start (length l)) l)
  = combine (indices start (length (overwrite i [v] l))) (overwrite i [v] l).
Proof.
  unfold overwrite.
  induction l as [| x l IH]; intros start i Hi.
  - destruct i; [| cbn in Hi; lia]. cbn. repeat f_equal. lia.
  - destruct i as [| i].
    + cbn [length indices combine assoc_set firstn skipn app Nat.add].
      replace (start + Z.of_nat 0 + 1) with (start + 1) by lia.
      rewrite Z.eqb_refl. reflexivity.
    + cbn [length indices combine assoc_set firstn app].
      destruct (Z.eqb_spec (start + Z.of_nat (S i) + 1) (start + 1)); [lia |].
      replace (start + Z.of_nat (S i) + 1) with (start + 1 + Z.of_nat i + 1) by lia.
      cbn in Hi. rewrite IH by lia.
      cbn [Nat.add length skipn]. reflexivity.
Qed.

Lemma overwrite_step {X} (i : nat) (v : X) (new l : list X) :
  (i <= length l)%nat ->
  overwrite (S i) new (overwrite i [v] l) = overwrite i (v :: new) l.
Proof.
  intros Hi. unfold overwrite. cbn [length app].
  assert (Hf : length (firstn i l) = i) by (apply firstn_length_le; exact Hi).
  rewrite firstn_app, Hf, firstn_all2 by lia.
  replace (S i - i)%nat with 1%nat by lia. cbn [firstn].
  rewrite skipn_app, Hf.
  rewrite (skipn_all2 (firstn i l)) by lia.
  replace (S i + length new - i)%nat with (S (length new)) by lia.
  cbn [skipn app]. rewrite skipn_skipn.
  replace (length new + (i + 1))%nat with (i + S (length new))%nat by lia.
  rewrite <- app_assoc. reflexivity.
Qed.

Lemma overwrite_length {X} (i : nat) (new l : list X) :
  (i <= length l)%nat ->
  length (overwrite i new l) = Nat.max (length l) (i + length new).
Proof.
  intros Hi. unfold overwrite.
  rewrite !length_app, firstn_length_le, length_skipn by exact Hi. lia.
Qed.

Lemma overwrite_all {X} (new l : list X) :
  (length l <= length new)%nat -> overwrite 0 new l = new.
Proof.
  intros H. unfold overwrite. cbn. rewrite skipn_all2 by exact H. apply app_nil_r.
Qed.

Lemma store_numbered self l i v :
  (i <= length l)%nat ->
  Events.store (Z.of_nat i + 1) v (with_store self l)
  = with_store self (overwrite i [v] l).
Proof.
  intros Hi. unfold Events.store, with_store, numbered. cbn. f_equal.
  apply (assoc_set_numbered v l 0 i Hi).
Qed.

Lemma loop_body_states (event : value) (n : Z) (self : Events.t) (s : Schema.t) :
  Events.schema self = Some s ->
  match canonical_event s event with
  | Ok parsed_event =>
      Events.loop_body event n self
      = (Events.store (n + 1) parsed_event self, Ok (n + 1))
  | Raise e =>
      exists self',
        Events.loop_body event n self = (self', Raise e)
        /\ (self' = self \/ exists x, self' = Events.store (n + 1) x self)
  end.
Proof.
  intros Hs.
  unfold canonical_event, Events.loop_body, mbind, lift, read, modify, ret, Events.self_schema.
  rewrite Hs. cbn [bind].
  destruct (getitem event "properties") as [properties | e]; cbn [bind]; [| eauto].
  destruct (getitem event "event") as [name | e]; cbn [bind]; [| eauto].
  destruct (Schema.return_schema s) as [schema | e]; cbn [bind]; [| eauto].
  destruct (method_get properties (Schema.reproductive_data_key s))
    as [reproductive | e] eqn:Hr; cbn [bind]; [| eauto].
  assert (Hp : exists props, properties = Dict props).
  { destruct properties; try discriminate Hr. eauto. }
  destruct Hp as [props ->].
  cbn [method_get bind].
  set (query := match dict_get "query_key" schema with
                | Some k => get_or_none k props | None => None_ end).
  set (page := match dict_get "page_key" schema with
               | Some k => get_or_none k props | None => None_ end).
  set (time := match dict_get "time_key" schema with
               | Some k => get_or_none k props | None => None_ end).
  destruct (truthy reproductive) eqn:Ht; cbn [bind negb orb andb].
  - destruct (Events.fill reproductive schema [("name", name)])
      as [pe | e]; cbn [bind]; [| eauto].
    unfold dict_item. rewrite !dict_get_set_same.
    destruct (truthy_opt (dict_get "query_key" schema)); cbn [andb bind].
    + destruct (truthy query); cbn [bind].
      * destruct (add page query) as [page' | e]; cbn [bind]; [| eauto].
        destruct (dict_pop "query" (dict_set "page" page' _)) as [pe' | e]; [| eauto 6].
        rewrite store_store. reflexivity.
      * destruct (dict_pop "query" (dict_set "page" page _)) as [pe' | e]; [| eauto 6].
        rewrite store_store. reflexivity.
    + destruct (dict_pop "query" (dict_set "page" page _)) as [pe' | e]; [| eauto 6].
      rewrite store_store. reflexivity.
  - destruct (Events.fill (Dict props) schema [("name", name)])
      as [pe | e]; cbn [bind]; [| eauto].
    unfold dict_item. rewrite !dict_get_set_same.
    destruct (truthy_opt (dict_get "query_key" schema)); cbn [andb bind].
    + destruct (add page query) as [page' | e]; cbn [bind]; [| eauto].
      destruct (dict_pop "query" (dict_set "page" page' _)) as [pe' | e]; [| eauto].
      reflexivity.
    + destruct (dict_pop "query" (dict_set "page" page _)) as [pe' | e]; [| eauto].
      reflexivity.
Qed.

Lemma loop_on_numbered (s : Schema.t) (events : list value) :
  forall (i : nat) (l : list dict) (self : Events.t),
  Events.schema self = Some s ->
  (i <= length l)%nat ->
  match traverse (canonical_event s) events with
  | Ok pes =>
      Events.loop events (Z.of_nat i) (with_store self l)
      = (with_store self (overwrite i pes l), Ok tt)
  | Raise e =>
      exists l',
        Events.loop events (Z.of_nat i) (with_store self l)
        = (with_store self l', Raise e)
        /\ (length l' <= Nat.max (length l) (i + length events))%nat
  end.
Proof.
  induction events as [| event rest IH]; intros i l self Hs Hi; cbn [traverse Events.loop].
  - unfold overwrite. cbn. rewrite Nat.add_0_r, firstn_skipn. reflexivity.
  - unfold mbind.
    pose proof (loop_body_states event (Z.of_nat i) (with_store self l) s Hs) as Hb.
    destruct (canonical_event s event) as [pe | e]; cbn [bind].
    + rewrite Hb, store_numbered by exact Hi.
      assert (Hi' : (S i <= length (overwrite i [pe] l))%nat).
      { rewrite overwrite_length by exact Hi. cbn. lia. }
      specialize (IH (S i) (overwrite i [pe] l) self Hs Hi').
      replace (Z.of_nat i + 1) with (Z.of_nat (S i)) by lia.
      destruct (traverse (canonical_event s) rest) as [pes | e]; cbn [bind].
      * rewrite IH, overwrite_step by exact Hi. reflexivity.
      * destruct IH as (l' & -> & Hl'). exists l'. split; [reflexivity |].
        rewrite overwrite_length in Hl' by exact Hi. cbn in Hl' |- *. lia.
    + destruct Hb as (self' & -> & [-> | [x ->]]).
      * exists l. split; [reflexivity | lia].
      * rewrite store_numbered by exact Hi. eexists. split; [reflexivity |].
        rewrite overwrite_length by exact Hi. cbn. lia.
Qed.

Lemma parse_on_consistent (self : Events.t) (s : Schema.t) :
  consistent self ->
  snd (Events.parse s self) = Events.run_parse (Events.events self) s
  /\ consistent (fst (Events.parse s self))
  /\ Events.events (fst (Events.parse s self)) = Events.events self.
Proof.
  intros (Hp & l & Hl & Hlen).
  destruct self as [events parser schema0 store0]. cbn in Hp, Hl, Hlen. subst parser store0.
  rewrite run_parse_spec.
  unfold Events.parse, Events.__perfom_parsing, mbind, modify, read; cbn.
  unfold Events.__mixpanel_inital_parser, mbind, read, ret; cbn.
  unfold Events.set_schema; cbn.
  pose proof (loop_on_numbered s events 0 l
                (Events.Build events "mixpanel" (Some s) []) eq_refl (Nat.le_0_l _)) as H.
  unfold with_store in H. cbn -[overwrite numbered] in H.
  destruct (traverse (canonical_event s) events) as [pes |] eqn:Ht.
  - rewrite H. cbn -[overwrite numbered].
    pose proof (traverse_length _ _ _ Ht) as Hpl.
    rewrite overwrite_all by lia.
    split; [unfold numbered; rewrite Hpl; reflexivity |].
    split; [| reflexivity].
    split; [reflexivity |]. exists pes. cbn -[numbered].
    split; [reflexivity | lia].
  - destruct H as (l' & -> & Hl'). cbn -[numbered].
    split; [reflexivity |]. split; [| reflexivity].
    split; [reflexivity |]. exists l'. cbn -[numbered]. split; [reflexivity | lia].
Qed.

Lemma fresh_consistent events schema self :
  Events.__init__ events schema "mixpanel" = Ok self -> consistent self.
Proof.
  intros [= <-]. split; [reflexivity |]. exists []. cbn. split; [reflexivity | lia].
Qed.

Lemma parse_all_consistent (schemas : list Schema.t) : forall self,
  consistent self ->
  consistent (parse_all schemas self)
  /\ Events.events (parse_all schemas self) = Events.events self.
Proof.
  induction schemas as [| s schemas IH]; intros self H; [split; [exact H | reflexivity] |].
  destruct (parse_on_consistent self s H) as (_ & Hc & He).
  destruct (IH _ Hc) as [Hc' He'].
  cbn [parse_all fold_left]. fold (parse_all schemas (fst (Events.parse s self))).
  split; [exact Hc' | rewrite He', He; reflexivity].
Qed.

(** X3.  [parse] does not depend on what the instance parsed before: after
    any number of earlier calls of [parse] on the same instance, with any
    schemas and whether they returned or raised, a call returns or raises
    exactly what it does on a fresh instance with the same records.  The
    earlier calls leave the records untouched, and entries that a failed
    call left in the store never show in a returned stream. *)
Theorem parse_is_history_independent (events : list value)
  (schema : option Schema.t) (self : Events.t) (schemas : list Schema.t)
  (s : Schema.t) :
  Events.__init__ events schema "mixpanel" = Ok self ->
  snd (Events.parse s (parse_all schemas self)) = Events.run_parse events s
  /\ Events.events (parse_all schemas self) = events.
Proof.
  intros Hinit.
  destruct (parse_all_consistent schemas self (fresh_consistent _ _ _ Hinit))
    as [Hc He].
  assert (Hev : Events.events self = events) by (injection Hinit as <-; reflexivity).
  destruct (parse_on_consistent _ s Hc) as (Hr & _ & _).
  rewrite Hr, He, Hev. split; reflexivity.
Qed.

Lemma parse_is_history_independent_witness :
  snd (Events.parse example_schema
         (parse_all [mixpanel_main_schema; no_dimension_schema]
            (Events.Build [nested_page_view; query_page_view] "mixpanel" None [])))
  = Events.run_parse [nested_page_view; query_page_view] example_schema
  /\ Events.events
       (parse_all [mixpanel_main_schema; no_dimension_schema]
          (Events.Build [nested_page_view; query_page_view] "mixpanel" None []))
     = [nested_page_view; query_page_view].
Proof.
  exact (parse_is_history_independent [nested_page_view; query_page_view] None _
           [mixpanel_main_schema; no_dimension_schema] example_schema eq_refl).
Defined.

End ParseAgainFacts.

(* ===================================================================== *)
(** * More on [DataParams]: what the constructor accepts                  *)
(* ===================================================================== *)

(** Arithmetic with division and remainder by a constant. *)
Ltac div_lia := zify; Z.div_mod_to_equations; lia.

Section AcceptanceFacts.
Import Py MixpanelParser.
Local Open Scope list_scope.

Lemma check_param_valid kwargs key value :
  check_param (key, value) kwargs
  = (if valid_param kwargs (key, value)
     then Ok (if String.eqb key "event"
              then dict_set key (snd (stored (key, value))) kwargs
              else kwargs)
     else check_param (key, value) kwargs).
Proof.
  destruct (valid_param kwargs (key, value)) eqn:Hv; [| reflexivity].
  unfold valid_param in Hv.
  destruct (String.eqb_spec key "from_date") as [-> | H1].
  { rewrite check_param_from_date. unfold is_date in Hv.
    destruct value; try discriminate Hv. rewrite Hv. reflexivity. }
  destruct (String.eqb_spec key "to_date") as [-> | H2].
  { unfold is_date in Hv. destruct value; try discriminate Hv.
    apply andb_prop in Hv as [Hd Ht]. cbn. rewrite Hd. cbn. rewrite Ht. reflexivity. }
  destruct (String.eqb_spec key "limit") as [-> | H3].
  { rewrite check_param_limit, Hv. reflexivity. }
  destruct (String.eqb_spec key "event") as [-> | H4].
  { rewrite check_param_event, Hv. reflexivity. }
  apply String.eqb_eq in Hv. subst key. reflexivity.
Qed.

Lemma check_param_invalid kwargs key value :
  valid_param kwargs (key, value) = false ->
  is_ok (check_param (key, value) kwargs) = false.
Proof.
  intros Hv. unfold valid_param in Hv.
  destruct (supported key) eqn:Hs.
  - destruct (supported_cases key Hs) as [-> | [-> | [-> | [-> | ->]]]]; cbn in Hv.
    + rewrite check_param_from_date. unfold is_date in Hv.
      destruct value; try reflexivity. rewrite Hv. reflexivity.
    + unfold is_date in Hv. destruct value; try reflexivity. cbn.
      destruct (Text.DATE_REGEX_search s); cbn in *; [| reflexivity].
      rewrite Hv. reflexivity.
    + rewrite check_param_limit, Hv. reflexivity.
    + rewrite check_param_event, Hv. reflexivity.
    + discriminate.
  - rewrite check_param_unsupported by exact Hs. reflexivity.
Qed.

Lemma dict_get_stored q (l : dict) :
  q <> "event"%string -> dict_get q (map stored l) = dict_get q l.
Proof.
  intros Hq. unfold dict_get.
  induction l as [| [k v] l IH]; cbn; [reflexivity |].
  destruct (String.eqb_spec k "event") as [-> | Hk]; cbn.
  - destruct (String.eqb_spec q "event"); [contradiction | exact IH].
  - rewrite IH. reflexivity.
Qed.

Lemma dict_get_app {V} q (l1 l2 : list (string * V)) :
  dict_get q (l1 ++ l2) =
  match dict_get q l1 with Some v => Some v | None => dict_get q l2 end.
Proof.
  unfold dict_get. induction l1 as [| [k v] l1 IH]; cbn; [reflexivity |].
  destruct (String.eqb q k); [reflexivity | exact IH].
Qed.

Lemma valid_param_stored pre items item :
  valid_param (map stored pre ++ items) item = valid_param (pre ++ items) item.
Proof.
  destruct item as [key value]. unfold valid_param, get_or_none.
  rewrite !dict_get_app, !dict_get_stored by discriminate. reflexivity.
Qed.

Lemma dict_set_fresh_app {V} k (v v0 : V) (l1 l2 : list (string * V)) :
  ~ In k (map fst l1) ->
  dict_set k v (l1 ++ (k, v0) :: l2) = l1 ++ (k, v) :: l2.
Proof.
  unfold dict_set. induction l1 as [| [k' w] l1 IH]; cbn; intros Hn.
  - rewrite String.eqb_refl. reflexivity.
  - destruct (String.eqb_spec k k') as [-> | Hk]; [tauto |].
    rewrite IH by tauto. reflexivity.
Qed.

Lemma loop_valid items : forall pre,
  NoDup (map fst (pre ++ items)) ->
  (forallb (valid_param (pre ++ items)) items = true ->
   DataParams.loop items (map stored pre ++ items) = Ok (map stored (pre ++ items)))
  /\ (forallb (valid_param (pre ++ items)) items = false ->
      is_ok (DataParams.loop items (map stored pre ++ items)) = false).
Proof.
  induction items as [| [key value] items IH]; intros pre Hnd.
  - cbn. rewrite !app_nil_r. split; [reflexivity | discriminate].
  - rewrite loop_cons. cbn [forallb].
    assert (Hpre : ~ In key (map fst pre)).
    { rewrite map_app in Hnd. cbn in Hnd. apply NoDup_remove_2 in Hnd.
      intros Hin. apply Hnd. apply in_or_app. left. exact Hin. }
    assert (Hassoc : pre ++ (key, value) :: items = (pre ++ [(key, value)]) ++ items)
      by (rewrite <- app_assoc; reflexivity).
    destruct (valid_param (pre ++ (key, value) :: items) (key, value)) eqn:Hv.
    + rewrite check_param_valid, valid_param_stored, Hv. cbn [bind andb].
      assert (Hstate :
        (if String.eqb key "event"
         then dict_set key (snd (stored (key, value)))
                (map stored pre ++ (key, value) :: items)
         else map stored pre ++ (key, value) :: items)
        = map stored (pre ++ [(key, value)]) ++ items).
      { rewrite map_app, <- app_assoc. cbn [map app].
        destruct (String.eqb_spec key "event") as [-> | Hk].
        - cbn. rewrite dict_set_fresh_app; [reflexivity |].
          rewrite map_map. intros Hin. apply Hpre.
          apply in_map_iff in Hin as ([k v] & Hk & Hin). apply in_map_iff.
          exists (k, v). split; [| exact Hin].
          cbn in Hk |- *. destruct (String.eqb k "event"); exact Hk.
        - cbn. apply String.eqb_neq in Hk. rewrite Hk. reflexivity. }
      rewrite Hstate, Hassoc.
      apply IH. rewrite <- Hassoc. exact Hnd.
    + split; [discriminate |]. intros _.
      pose proof (check_param_invalid (map stored pre ++ (key, value) :: items) key value) as Hi.
      rewrite valid_param_stored in Hi. specialize (Hi Hv).
      destruct (check_param _ _); [discriminate | reflexivity].
Qed.

(** X6.  For keyword arguments (a dictionary, so no key twice) the
    constructor of [DataParams] returns exactly when every argument is
    valid: its name is supported, a date matches the pattern and comes with
    a truthy other date, [limit] is an integer, [event] is a list.  Then
    [self.params] holds the arguments in call order, unchanged but for
    [event], which is replaced by its JSON text.  When some argument is not
    valid the constructor raises. *)
Theorem DataParams_accepts_exactly_valid (kwargs : dict) :
  NoDup (map fst kwargs) ->
  (forallb (valid_param kwargs) kwargs = true ->
   DataParams.__init__ kwargs = Ok (map stored kwargs))
  /\ (forallb (valid_param kwargs) kwargs = false ->
      is_ok (DataParams.__init__ kwargs) = false).
Proof.
  intros Hnd. apply (loop_valid kwargs [] Hnd).
Qed.

Lemma DataParams_accepts_exactly_valid_witness :
  DataParams.__init__ example_params = Ok (map stored example_params).
Proof.
  destruct (DataParams_accepts_exactly_valid example_params) as [H _].
  - repeat constructor; cbn; intuition discriminate.
  - exact (H eq_refl).
Defined.

End AcceptanceFacts.

Section DateFacts.
Local Open Scope nat_scope.
Local Open Scope list_scope.

Lemma code_inj c d : Text.code c = Text.code d -> c = d.
Proof.
  unfold Text.code. intros H.
  rewrite <- (ascii_nat_embedding c), <- (ascii_nat_embedding d), H. reflexivity.
Qed.

Lemma char_is_code c d : Text.char_is c d = true <-> Text.code c = Text.code d.
Proof.
  unfold Text.char_is. split.
  - intros H. apply Ascii.eqb_eq in H. subst. reflexivity.
  - intros H. apply Ascii.eqb_eq, code_inj, H.
Qed.

Lemma between_code lo hi c :
  Text.between lo hi c = true <-> Text.code lo <= Text.code c <= Text.code hi.
Proof.
  unfold Text.between. rewrite andb_true_iff, !Nat.leb_le. reflexivity.
Qed.

Lemma digit_code c : Text.digit c = true <-> 48 <= Text.code c <= 57.
Proof. unfold Text.digit. rewrite between_code. reflexivity. Qed.

Lemma code_digit_char k : k < 10 -> Text.code (digit_char k) = 48 + k.
Proof.
  intros H. unfold Text.code, digit_char. apply nat_ascii_embedding. lia.
Qed.

Lemma digit_char_code c k : Text.code c = 48 + k -> digit_char k = c.
Proof.
  intros H. unfold digit_char. rewrite <- H. apply ascii_nat_embedding.
Qed.

Ltac to_codes H :=
  repeat rewrite ?andb_true_iff, ?orb_true_iff, ?char_is_code, ?between_code,
    ?digit_code in H;
  change (Text.code "0") with 48 in H; change (Text.code "1") with 49 in H;
  change (Text.code "2") with 50 in H; change (Text.code "3") with 51 in H;
  change (Text.code "9") with 57 in H; change (Text.code "-") with 45 in H.

Lemma date_body_sound l :
  Text.date_body l = true ->
  exists y m d, date_in_range y m d /\ l = iso_chars y m d.
Proof.
  intros H.
  do 11 (destruct l as [| ? l]; try discriminate H).
  unfold Text.date_body in H. to_codes H.
  exists (1000 * (Text.code a - 48) + 100 * (Text.code a0 - 48)
          + 10 * (Text.code a1 - 48) + (Text.code a2 - 48)),
         (10 * (Text.code a4 - 48) + (Text.code a5 - 48)),
         (10 * (Text.code a7 - 48) + (Text.code a8 - 48)).
  split; [unfold date_in_range; lia |].
  unfold iso_chars.
  repeat (f_equal;
          [first [symmetry; apply digit_char_code; div_lia
                 | apply code_inj; change (Text.code "-") with 45; lia] |]).
  f_equal. symmetry. apply digit_char_code. div_lia.
Qed.

Lemma date_body_complete y m d :
  date_in_range y m d -> Text.date_body (iso_chars y m d) = true.
Proof.
  intros (Hy & Hm & Hd). unfold iso_chars, Text.date_body.
  repeat rewrite ?andb_true_iff, ?orb_true_iff, ?char_is_code, ?between_code,
    ?digit_code.
  rewrite !code_digit_char by div_lia.
  change (Text.code "0") with 48; change (Text.code "1") with 49;
  change (Text.code "2") with 50; change (Text.code "3") with 51;
  change (Text.code "9") with 57; change (Text.code "-") with 45.
  div_lia.
Qed.

Lemma string_of_list_ascii_app l1 l2 :
  string_of_list_ascii (l1 ++ l2)
  = (string_of_list_ascii l1 ++ string_of_list_ascii l2)%string.
Proof. induction l1 as [| c l1 IH]; cbn; [reflexivity | rewrite IH; reflexivity]. Qed.

(** X11.  Among the texts of Latin-1 code points, so for every ASCII
    text, the pattern check of [from_date] and [to_date] accepts exactly
    the texts YYYY-MM-DD of ten characters with a year from 1900 to 2099, a
    month from 01 to 12 and a day from 01 to 31, and those texts followed
    by one newline.  The day is not checked against the month, so a date
    such as 2023-02-31 passes.  Beyond Latin-1 the pattern also accepts
    the other decimal digits of Unicode, which these texts cannot hold. *)
Theorem DATE_REGEX_accepts (s : string) :
  Text.DATE_REGEX_search s = true <->
  exists y m d,
    date_in_range y m d
    /\ (s = iso_date y m d
        \/ s = (iso_date y m d ++ String "010" EmptyString)%string).
Proof.
  unfold Text.DATE_REGEX_search. cbv zeta. rewrite orb_true_iff. split.
  - intros [H | H].
    + destruct (date_body_sound _ H) as (y & m & d & Hr & Hl).
      exists y, m, d. split; [exact Hr |]. left.
      unfold iso_date. rewrite <- Hl. symmetry. apply string_of_list_ascii_of_string.
    + destruct (rev (list_ascii_of_string s)) as [| nl body] eqn:Hrev; [discriminate |].
      apply andb_prop in H as [Hnl H].
      apply Ascii.eqb_eq in Hnl. subst nl.
      destruct (date_body_sound _ H) as (y & m & d & Hr & Hl).
      exists y, m, d. split; [exact Hr |]. right.
      apply (f_equal (@rev ascii)) in Hrev. rewrite rev_involutive in Hrev.
      cbn [rev] in Hrev. rewrite Hl in Hrev.
      rewrite <- (string_of_list_ascii_of_string s), Hrev.
      rewrite string_of_list_ascii_app. reflexivity.
  - intros (y & m & d & Hr & [-> | ->]).
    + left. unfold iso_date. rewrite list_ascii_of_string_of_list_ascii.
      apply date_body_complete. exact Hr.
    + right. unfold iso_date.
      change (String "010" EmptyString) with (string_of_list_ascii ["010"%char]).
      rewrite <- string_of_list_ascii_app, list_ascii_of_string_of_list_ascii.
      rewrite rev_app_distr. cbn [rev app].
      rewrite rev_involutive, (date_body_complete y m d Hr). reflexivity.
Qed.

Example impossible_date_accepted :
  Text.DATE_REGEX_search "2023-02-31" = true
  /\ Text.DATE_REGEX_search "1899-12-31" = false
  /\ Text.DATE_REGEX_search "2023-2-03" = false.
Proof. repeat split. Qed.

End DateFacts.

(* ===================================================================== *)
(** * More on the replay: the schedule of a run                           *)
(* ===================================================================== *)

Section ScheduleFacts.
Import Py.
Local Open Scope list_scope.

(** X7.  What a run of [perform_simulation] does, outcomes apart, is
    its schedule: for every event in order, the sleep (the recorded
    difference to the previous time, 3 when negative, or the static time),
    then the driver calls that the loop itself makes: with the default
    handler the navigation to the page when it differs from the previous
    one; the scroll to [scroll_top] when that value is truthy; the click at
    the two coordinates of [mouse_position] when that value is truthy.  All
    of the schedule when the run returns, a prefix when an exception ends
    it.  With a custom handler the loop itself never navigates, and a
    scroll position of 0 is never replayed. *)
Theorem replay_schedule (self : UserSimulation.t) (static : option Z)
  (exec : UserSimulation.execute_function_arg) (w : Browser.world) :
  exists new,
    fst (UserSimulation.perform_simulation self static exec w) = w ++ new
    /\ prefix (flat_map step_of new) (schedule static exec self)
    /\ (is_ok (snd (UserSimulation.perform_simulation self static exec w)) = true ->
        flat_map step_of new = schedule static exec self).
Proof. apply observes_schedule. Qed.

Lemma skipn_length_app {X} (l1 l2 : list X) : skipn (length l1) (l1 ++ l2) = l2.
Proof. induction l1 as [| x l1 IH]; [reflexivity | exact IH]. Qed.

Lemma wants_navigation_page n event events ll page :
  dict_item "page" event = Ok page ->
  Example.wants_navigation n event events ll = Ok (ne ll page).
Proof.
  intros Hp. unfold Example.wants_navigation. rewrite Hp. cbn.
  destruct (ne ll page); reflexivity.
Qed.

Lemma observes_example_handler self n event ll lt :
  observes step_within
    (UserSimulation.call_custom Example.function_that_i_want_to_execute_inside_loop
       n event self ll lt)
    (map Ask (navigation_of event ll)).
Proof.
  intros w.
  unfold UserSimulation.call_custom, Example.function_that_i_want_to_execute_inside_loop,
    navigation_of, mbind, Browser.print, lift.
  destruct (dict_item "page" event) as [page | e] eqn:Hp.
  - rewrite (wants_navigation_page _ _ _ _ _ Hp).
    unfold event_page. rewrite (dict_item_get _ _ _ Hp).
    destruct (ne ll page).
    + unfold Browser.call.
      destruct (UserSimulation.driver self _ _) as [e |];
        rewrite <- app_assoc, skipn_length_app; eexists [_]; cbn;
        (split; [reflexivity | split; [apply prefix_refl | reflexivity]]).
    + unfold ret. rewrite skipn_length_app. eexists [_]; cbn.
      split; [reflexivity | split; [apply prefix_refl | reflexivity]].
  - unfold Example.wants_navigation. rewrite Hp. cbn.
    rewrite skipn_length_app. eexists [_]; cbn.
    split; [reflexivity | split; [apply prefix_nil | discriminate]].
Qed.

(** X8.  With the handler of [example.py] a run does what a run with
    the default handler does: counting what the handler performs, its
    sleeps and driver calls are the schedule of the default handler on the
    same events.  The handler navigates exactly when the page differs from
    the previous one; the part of its test that looks at the next event
    never changes the outcome. *)
Theorem example_handler_replays_as_default (self : UserSimulation.t)
  (static : option Z) (w : Browser.world) :
  (exists new,
     fst (UserSimulation.perform_simulation self static
            (UserSimulation.Callable Example.function_that_i_want_to_execute_inside_loop) w)
     = w ++ new
     /\ prefix (flat_map step_within new)
          (schedule static UserSimulation.NoFunction self)
     /\ (is_ok (snd (UserSimulation.perform_simulation self static
                       (UserSimulation.Callable
                          Example.function_that_i_want_to_execute_inside_loop) w)) = true ->
         flat_map step_within new = schedule static UserSimulation.NoFunction self)) /\
  (forall n event events last_location page,
     dict_item "page" event = Ok page ->
     Example.wants_navigation n event events last_location
     = Ok (ne last_location page)).
Proof.
  split; [| intros; apply wants_navigation_page; assumption].
  apply (observes_perform_simulation step_within self static
           (UserSimulation.Callable Example.function_that_i_want_to_execute_inside_loop)
           (body_steps static UserSimulation.NoFunction)).
  intros n event lt ll. unfold body_steps, body_commands.
  apply observes_body_steps; try reflexivity.
  apply observes_example_handler.
Qed.

Example schedule_of_recorded_events :
  schedule None UserSimulation.NoFunction
    (UserSimulation.Build recorded_events
       (replay_event 100 (Str "https://x/p1") (Int 50) None_) working_driver)
  = [Wait 0; Ask (Browser.get (Str "https://x/p1"));
     Ask (Browser.execute_script_scrollTo (Int 50));
     Wait 3; Ask (Browser.perform_click (Int 10) (Int 20));
     Wait 3; Ask (Browser.get (Str "https://x/p2"));
     Ask (Browser.execute_script_scrollTo (Int 70))]
  /\ scroll_of (replay_event 100 (Str "https://x/p1") (Int 0) None_) = [].
Proof. split; reflexivity. Qed.

Example example_handler_run :
  UserSimulation.perform_simulation
    (UserSimulation.Build pageless_events
       (replay_event 100 None_ (Int 50) None_) working_driver)
    (Some 1)
    (UserSimulation.Callable Example.function_that_i_want_to_execute_inside_loop) []
  = ([Browser.Sleep 1;
      Browser.Custom 1
        [Browser.Print
           (Text.repr (Dict (replay_event 100 None_ (Int 50) None_)))] None;
      Browser.Call (Browser.execute_script_scrollTo (Int 50)) None],
     Ok tt).
Proof. reflexivity. Qed.

End ScheduleFacts.

(* ===================================================================== *)
(** * [MixpanelParser]: the authorization header and the response lines   *)
(* ===================================================================== *)

Section CodecFacts.
Import Bytes.
Local Open Scope nat_scope.
Local Open Scope list_scope.

Lemma nat_of_byte_lt b : nat_of_byte b < 256.
Proof. apply nat_ascii_bounded. Qed.

Lemma nat_of_byte_of_nat n : n < 256 -> nat_of_byte (byte_of_nat n) = n.
Proof.
  intros H. unfold nat_of_byte, byte_of_nat.
  rewrite ascii_of_byte_of_ascii. apply nat_ascii_embedding. exact H.
Qed.

Lemma byte_of_nat_of_byte b : byte_of_nat (nat_of_byte b) = b.
Proof.
  unfold nat_of_byte, byte_of_nat.
  rewrite ascii_nat_embedding. apply byte_of_ascii_of_byte.
Qed.

Lemma sextet_index_sextet i : i < 64 -> sextet_index (sextet i) = i.
Proof.
  intros H. do 64 (destruct i as [| i]; [reflexivity |]). lia.
Qed.

Lemma sextet_not_pad i : i < 64 -> is_pad (sextet i) = false.
Proof.
  intros H. do 64 (destruct i as [| i]; [reflexivity |]). lia.
Qed.

Lemma sextet_ascii i : nat_of_byte (sextet i) < 128.
Proof.
  do 64 (destruct i as [| i]; [cbv; lia |]). cbv. lia.
Qed.

Lemma list_ind3 {X} (P : list X -> Prop) :
  P [] -> (forall a, P [a]) -> (forall a b, P [a; b]) ->
  (forall a b c rest, P rest -> P (a :: b :: c :: rest)) ->
  forall l, P l.
Proof.
  intros H0 H1 H2 H3.
  fix IH 1. intros [| a [| b [| c rest]]]; [exact H0 | apply H1 | apply H2 |].
  apply H3. apply IH.
Qed.

Lemma pad_is_pad : is_pad pad = true.
Proof. reflexivity. Qed.

Lemma b64decode_b64encode bs : b64decode (b64encode bs) = bs.
Proof.
  induction bs as [| a | a b | a b c rest IH] using list_ind3.
  - reflexivity.
  - pose proof (nat_of_byte_lt a) as Ha.
    cbn [b64encode b64decode]. cbv zeta. rewrite pad_is_pad.
    rewrite !sextet_index_sextet by div_lia.
    replace (_ + _) with (nat_of_byte a) by div_lia.
    rewrite byte_of_nat_of_byte. reflexivity.
  - pose proof (nat_of_byte_lt a) as Ha. pose proof (nat_of_byte_lt b) as Hb.
    cbn [b64encode b64decode]. cbv zeta.
    rewrite (sextet_not_pad (nat_of_byte b mod 16 * 4)) by div_lia.
    rewrite pad_is_pad.
    rewrite !sextet_index_sextet by div_lia.
    replace (nat_of_byte a / 4 * 4 + _) with (nat_of_byte a) by div_lia.
    replace (_ + _) with (nat_of_byte b) by div_lia.
    rewrite !byte_of_nat_of_byte. reflexivity.
  - pose proof (nat_of_byte_lt a) as Ha. pose proof (nat_of_byte_lt b) as Hb.
    pose proof (nat_of_byte_lt c) as Hc.
    cbn [b64encode b64decode app]. cbv zeta.
    rewrite (sextet_not_pad (nat_of_byte b mod 16 * 4 + nat_of_byte c / 64)) by div_lia.
    rewrite (sextet_not_pad (nat_of_byte c mod 64)) by div_lia.
    rewrite !sextet_index_sextet by div_lia.
    replace (nat_of_byte a / 4 * 4 + _) with (nat_of_byte a) by div_lia.
    replace (_ mod 16 * 16 + _) with (nat_of_byte b) by div_lia.
    replace (_ + _ mod 64) with (nat_of_byte c) by div_lia.
    rewrite !byte_of_nat_of_byte, IH. reflexivity.
Qed.

Lemma b64encode_length bs : length (b64encode bs) = 4 * ((length bs + 2) / 3).
Proof.
  induction bs as [| a | a b | a b c rest IH] using list_ind3; try reflexivity.
  cbn [b64encode app length]. rewrite IH. div_lia.
Qed.

Lemma pad_ascii : nat_of_byte pad < 128.
Proof. cbv. lia. Qed.

Lemma b64encode_ascii bs : Forall (fun b => nat_of_byte b < 128) (b64encode bs).
Proof.
  induction bs as [| a | a b | a b c rest IH] using list_ind3;
    cbn [b64encode app]; cbv zeta;
    repeat (apply Forall_cons; [first [apply sextet_ascii | apply pad_ascii] |]);
    [apply Forall_nil .. | exact IH].
Qed.

Lemma decode_ascii bs :
  Forall (fun b => nat_of_byte b < 128) bs -> decode bs = Some (text_of bs).
Proof.
  induction 1 as [| b bs Hb _ IH]; [reflexivity |].
  cbn [decode]. cbv zeta.
  apply Nat.ltb_lt in Hb. rewrite Hb, IH. cbn.
  unfold nat_of_byte, text_of. rewrite ascii_nat_embedding. reflexivity.
Qed.

Lemma encode_text_of bs :
  Forall (fun b => nat_of_byte b < 128) bs -> encode (text_of bs) = bs.
Proof.
  induction 1 as [| b bs Hb _ IH]; [reflexivity |].
  unfold text_of in *. cbn [map string_of_list_ascii encode]. cbv zeta.
  change (nat_of_ascii (ascii_of_byte b)) with (nat_of_byte b).
  apply Nat.ltb_lt in Hb. rewrite Hb, IH, byte_of_nat_of_byte. reflexivity.
Qed.

Lemma text_of_length bs : String.length (text_of bs) = length bs.
Proof.
  unfold text_of. induction bs as [| b bs IH]; [reflexivity |].
  cbn. rewrite IH. reflexivity.
Qed.

Lemma decode_encode s : decode (encode s) = Some s.
Proof.
  induction s as [| c s IH]; [reflexivity |].
  pose proof (nat_ascii_bounded c) as Hc.
  cbn [encode]. cbv zeta.
  destruct (nat_of_ascii c <? 128) eqn:Hlt.
  - cbn [app decode]. cbv zeta.
    rewrite nat_of_byte_of_nat by exact Hc. rewrite Hlt, IH. cbn.
    rewrite ascii_nat_embedding. reflexivity.
  - apply Nat.ltb_ge in Hlt.
    cbn [app decode]. cbv zeta.
    rewrite !nat_of_byte_of_nat by div_lia.
    replace (192 + nat_of_ascii c / 64 <? 128) with false
      by (symmetry; apply Nat.ltb_ge; lia).
    replace ((192 + nat_of_ascii c / 64 =? 194) || (192 + nat_of_ascii c / 64 =? 195))
      with true.
    2:{ symmetry. apply orb_true_iff. rewrite !Nat.eqb_eq. div_lia. }
    replace ((128 <=? 128 + nat_of_ascii c mod 64) && (128 + nat_of_ascii c mod 64 <? 192))
      with true.
    2:{ symmetry. apply andb_true_iff. rewrite Nat.leb_le, Nat.ltb_lt. div_lia. }
    rewrite IH. cbn [option_map].
    replace (_ * 64 + _) with (nat_of_ascii c) by div_lia.
    rewrite ascii_nat_embedding. reflexivity.
Qed.

Lemma authorization_text (self : MixpanelParser.t) :
  MixpanelParser._authorization_as_base64 self
  = Some ("Basic " ++ text_of (b64encode (encode (credentials self))))%string.
Proof.
  unfold MixpanelParser._authorization_as_base64. cbv zeta.
  fold (credentials self).
  rewrite decode_ascii by apply b64encode_ascii. reflexivity.
Qed.

Lemma text_of_inj bs cs : text_of bs = text_of cs -> bs = cs.
Proof.
  unfold text_of. revert cs.
  induction bs as [| b bs IH]; intros [| c cs] H; cbn in H; try discriminate;
    [reflexivity |].
  injection H as Hb H. f_equal; [| apply IH; exact H].
  rewrite <- (byte_of_ascii_of_byte b), Hb. apply byte_of_ascii_of_byte.
Qed.

(** X9.  [_authorization_as_base64] always returns a header: the word
    Basic, a space, and four base64 characters for every three bytes (the
    last group padded) of the UTF-8 text of the user name, a colon and the
    secret.  Decoding the base64 part gives that text back, so two parsers
    with the same header have the same credentials text. *)
Theorem authorization_header_round_trip (self : MixpanelParser.t) :
  exists base64_string,
    MixpanelParser._authorization_as_base64 self
    = Some ("Basic " ++ base64_string)%string
    /\ String.length base64_string = 4 * ((length (encode (credentials self)) + 2) / 3)
    /\ decode (b64decode (encode base64_string)) = Some (credentials self)
    /\ forall other,
         MixpanelParser._authorization_as_base64 other
         = MixpanelParser._authorization_as_base64 self ->
         credentials other = credentials self.
Proof.
  exists (text_of (b64encode (encode (credentials self)))).
  split; [apply authorization_text |].
  split; [rewrite text_of_length; apply b64encode_length |].
  split.
  - rewrite encode_text_of by apply b64encode_ascii.
    rewrite b64decode_b64encode. apply decode_encode.
  - intros other H. rewrite !authorization_text in H.
    injection H as H. apply text_of_inj in H.
    apply (f_equal b64decode) in H. rewrite !b64decode_b64encode in H.
    apply (f_equal decode) in H. rewrite !decode_encode in H.
    injection H as H. exact H.
Qed.

Example authorization_examples :
  MixpanelParser._authorization_as_base64
    (MixpanelParser.__init__ (Py.Int 1) (Py.Str "user") (Py.Str "secret"))
  = Some "Basic dXNlcjpzZWNyZXQ="%string
  /\ MixpanelParser._authorization_as_base64
       (MixpanelParser.__init__ (Py.Int 1)
          (Py.Str (String "233" EmptyString)) (Py.Str EmptyString))
     = Some "Basic w6k6"%string.
Proof. split; reflexivity. Qed.

End CodecFacts.

Section SplitFacts.
Import Py.

Lemma append_assoc (a b c : string) : (a ++ b) ++ c = a ++ b ++ c.
Proof. induction a as [| x a IH]; cbn; [reflexivity | rewrite IH; reflexivity]. Qed.

Lemma append_nil_r (a : string) : a ++ EmptyString = a.
Proof. induction a as [| x a IH]; cbn; [reflexivity | rewrite IH; reflexivity]. Qed.

Lemma splitlines_from_line a : forall line rest,
  one_line a = true ->
  Text.splitlines_from line (a ++ rest) = Text.splitlines_from (line ++ a) rest.
Proof.
  induction a as [| c a IH]; intros line rest Ha.
  - rewrite append_nil_r. reflexivity.
  - cbn [one_line] in Ha. apply andb_prop in Ha as [Hc Ha].
    cbn [append Text.splitlines_from]. apply negb_true_iff in Hc. rewrite Hc.
    rewrite IH by exact Ha. rewrite append_assoc. reflexivity.
Qed.

Lemma splitlines_cut a c rest :
  one_line a = true -> Text.linebreak c = true ->
  (c = "013"%char -> forall rest', rest <> String "010" rest') ->
  Text.splitlines (a ++ String c rest) = a :: Text.splitlines rest.
Proof.
  intros Ha Hc Hcr. unfold Text.splitlines.
  rewrite splitlines_from_line by exact Ha. cbn [append Text.splitlines_from].
  rewrite Hc. f_equal.
  destruct rest as [| c' rest']; [reflexivity |].
  destruct (Ascii.eqb_spec c "013") as [-> | Hn]; [| reflexivity].
  destruct (Ascii.eqb_spec c' "010") as [-> | Hn']; [| reflexivity].
  exfalso. apply (Hcr eq_refl rest'). reflexivity.
Qed.

Lemma concat_nil_cons (x : string) (l : list string) :
  String.concat EmptyString (x :: l) = x ++ String.concat EmptyString l.
Proof.
  destruct l as [| y l]; cbn; [rewrite append_nil_r |]; reflexivity.
Qed.

Lemma splitlines_jsonl lines :
  forallb one_line lines = true -> Text.splitlines (jsonl lines) = lines.
Proof.
  unfold jsonl. induction lines as [| line lines IH]; intros H; [reflexivity |].
  cbn [forallb] in H. apply andb_prop in H as [Hl H].
  cbn [map]. rewrite concat_nil_cons, append_assoc. cbn [Text.chr append].
  rewrite splitlines_cut; [| exact Hl | reflexivity | discriminate].
  rewrite IH by exact H. reflexivity.
Qed.

Lemma extract_loop_traverse json_loads (lines : list string) :
  MixpanelParser._extract_events_from_response_loop json_loads lines
  = traverse json_loads lines.
Proof.
  induction lines as [| line lines IH]; cbn; [reflexivity |].
  rewrite IH. reflexivity.
Qed.

(** X10.  A response of lines that each end with LF, none containing a
    line boundary of [str.splitlines], is split back into exactly those
    lines, empty ones included, and [_extract_events_from_response] returns
    the [json.loads] of each line in order, or raises what the first
    failing line raises.  The text is cut at every line boundary, not only
    at LF: a boundary such as NEL or FS inside a record ends the line
    there. *)
Theorem extract_events_one_record_per_line
  (json_loads : string -> result value) (lines : list string) :
  forallb one_line lines = true ->
  Text.splitlines (jsonl lines) = lines
  /\ MixpanelParser._extract_events_from_response json_loads (jsonl lines)
     = traverse json_loads lines
  /\ (forall a c rest,
        one_line a = true -> Text.linebreak c = true ->
        (c = "013"%char -> forall rest', rest <> String "010" rest') ->
        Text.splitlines (a ++ String c rest) = a :: Text.splitlines rest).
Proof.
  intros H. split; [apply splitlines_jsonl; exact H |]. split.
  - unfold MixpanelParser._extract_events_from_response.
    rewrite splitlines_jsonl by exact H. apply extract_loop_traverse.
  - intros a c rest. apply splitlines_cut.
Qed.

Lemma extract_events_one_record_per_line_witness :
  Text.splitlines (jsonl ["{}"; EmptyString; "[1, 2]"]) = ["{}"; EmptyString; "[1, 2]"]
  /\ MixpanelParser._extract_events_from_response (fun line => Ok (Str line))
       (jsonl ["{}"; EmptyString; "[1, 2]"])
     = traverse (fun line => Ok (Str line)) ["{}"; EmptyString; "[1, 2]"]
  /\ (forall a c rest,
        one_line a = true -> Text.linebreak c = true ->
        (c = "013"%char -> forall rest', rest <> String "010" rest') ->
        Text.splitlines (a ++ String c rest) = a :: Text.splitlines rest).
Proof.
  exact (extract_events_one_record_per_line (fun line => Ok (Str line))
           ["{}"; EmptyString; "[1, 2]"] eq_refl).
Defined.

Example splitlines_examples :
  Text.splitlines
    ("a" ++ String "133" "b" ++ String "013" (String "010" "c")
     ++ String "010" (String "010" "d"))
  = ["a"; "b"; "c"; EmptyString; "d"]
  /\ Text.splitlines ("a" ++ String "028" "b" ++ String "013" "c") = ["a"; "b"; "c"]
  /\ Text.splitlines (String "010" EmptyString) = [EmptyString]
  /\ Text.splitlines EmptyString = [].
Proof. repeat split. Qed.

End SplitFacts.
